(** * Frame: the renderer-side terminal manager

    A shallow embedding of [TerminalManager] (src/renderer/terminalManager.js)
    and the properties of its session registry: activation, closing,
    capacity, notification, ordering, renaming, resizing and default names.

    The object's fields become a record, every method a function from
    manager to manager.  What a method does to the world around it (messages
    on the IPC channel, calls on the xterm emulator and the DOM, calls of the
    [onStateChange] subscriber) is appended to logs carried by the same
    record, so that "no message is sent" and "notified once" are statements
    about those logs. *)

From Stdlib Require Import ZArith List Ascii String Bool Lia Arith.
From Stdlib Require Import Sorting.Sorted Sorting.Permutation.
From Stdlib Require Import Decimal DecimalString DecimalNat.
Import ListNotations.

Local Open Scope string_scope.
Local Open Scope list_scope.

(** ** JavaScript values the manager handles *)

(** A terminal id is whatever the main process put in [response.terminalId]:
    a number or a string.  The manager tests ids for truthiness and compares
    them with [===]. *)
Inductive TermId : Type :=
| IdNum (n : Z)
| IdStr (s : string).

Definition truthy (i : TermId) : bool :=
  match i with
  | IdNum n => negb (n =? 0)%Z
  | IdStr s => negb (s =? "")
  end.

Definition id_eqb (a b : TermId) : bool :=
  match a, b with
  | IdNum x, IdNum y => (x =? y)%Z
  | IdStr x, IdStr y => (x =? y)
  | _, _ => false
  end.

(** [this.activeTerminalId]: [null] or an id. *)
Definition truthy_active (a : option TermId) : bool :=
  match a with
  | None => false
  | Some i => truthy i
  end.

Definition active_is (a : option TermId) (i : TermId) : bool :=
  match a with
  | None => false
  | Some j => id_eqb j i
  end.

(** A string used as a condition: the empty string is falsy. *)
Definition truthy_str (s : option string) : option string :=
  match s with
  | Some v => if v =? "" then None else Some v
  | None => None
  end.

(** ** A JavaScript [Map]: keyed entries in insertion order *)

Module JsMap.
Section Ops.
Context {V : Type}.

Definition t : Type := list (TermId * V).

Fixpoint get (k : TermId) (m : t) : option V :=
  match m with
  | [] => None
  | (k', v) :: rest => if id_eqb k' k then Some v else get k rest
  end.

Definition has (k : TermId) (m : t) : bool :=
  match get k m with Some _ => true | None => false end.

(** [set] keeps the position of a key already present and appends a new
    key at the end. *)
Fixpoint set (k : TermId) (v : V) (m : t) : t :=
  match m with
  | [] => [(k, v)]
  | (k', v') :: rest =>
      if id_eqb k' k then (k', v) :: rest else (k', v') :: set k v rest
  end.

Fixpoint delete (k : TermId) (m : t) : t :=
  match m with
  | [] => []
  | (k', v') :: rest =>
      if id_eqb k' k then delete k rest else (k', v') :: delete k rest
  end.

(** Mutation of the object stored under [k], in place. *)
Fixpoint adjust (f : V -> V) (k : TermId) (m : t) : t :=
  match m with
  | [] => []
  | (k', v') :: rest =>
      if id_eqb k' k then (k', f v') :: rest else (k', v') :: adjust f k rest
  end.

(** What [adjust] does to the entry it finds. *)
Definition upd (f : V -> V) (j : TermId) (e : TermId * V) : TermId * V :=
  if id_eqb (fst e) j then (fst e, f (snd e)) else e.

Definition keys (m : t) : list TermId := map fst m.
Definition values (m : t) : list V := map snd m.
Definition size (m : t) : nat := List.length m.
End Ops.
Arguments t : clear implicits.
End JsMap.

(** [remaining[remaining.length - 1]], [null] when the array is empty. *)
Fixpoint last_key (l : list TermId) : option TermId :=
  match l with
  | [] => None
  | [k] => Some k
  | _ :: rest => last_key rest
  end.

(** ** Session records *)

Record TerminalState : Type := mkState {
  id : TermId;
  name : string;
  customName : option string;
  isActive : bool;
  createdAt : Z
}.

(** The entry kept per terminal: [{terminal, fitAddon, element, state}] and
    the [opened] flag added on first mount.  Of the xterm object only its
    size ([terminal.cols], [terminal.rows]) is read by the manager. *)
Record Instance : Type := mkInstance {
  state : TerminalState;
  opened : bool;
  cols : Z;
  rows : Z
}.

Definition with_isActive (b : bool) (i : Instance) : Instance :=
  mkInstance
    (mkState (id (state i)) (name (state i)) (customName (state i)) b
             (createdAt (state i)))
    (opened i) (cols i) (rows i).

Definition with_name (n : string) (i : Instance) : Instance :=
  mkInstance
    (mkState (id (state i)) n (Some n) (isActive (state i))
             (createdAt (state i)))
    (opened i) (cols i) (rows i).

Definition with_opened (i : Instance) : Instance :=
  mkInstance (state i) true (cols i) (rows i).

Definition with_size (d : Z * Z) (i : Instance) : Instance :=
  mkInstance (state i) (opened i) (fst d) (snd d).

Record Options : Type := mkOptions {
  opt_cwd : option string;
  opt_name : option string
}.

(** ** The world around the manager *)

Inductive IpcMsg : Type :=
| TERMINAL_CREATE (cwd : option string)
| TERMINAL_DESTROY (terminalId : TermId)
| TERMINAL_INPUT_ID (terminalId : TermId) (data : string)
| TERMINAL_RESIZE_ID (terminalId : TermId) (c r : Z).

Inductive UiEffect : Type :=
| Dispose (terminalId : TermId)
| ElementRemove (terminalId : TermId)
| Focus (terminalId : TermId)
| Open (terminalId : TermId)
| Append (terminalId : TermId)
| TermWrite (terminalId : TermId) (data : string).

(** The argument of [onStateChange]. *)
Record Snapshot : Type := mkSnapshot {
  snap_terminals : list TerminalState;
  snap_activeTerminalId : option TermId;
  snap_viewMode : string;
  snap_gridLayout : string
}.

(** The reply on [IPC.TERMINAL_CREATED]. *)
Inductive Response : Type :=
| Created (terminalId : TermId)
| Failed (error : string).

(** ** The manager *)

Record Manager : Type := mkManager {
  terminals : JsMap.t Instance;
  activeTerminalId : option TermId;
  viewMode : string;
  gridLayout : string;
  maxTerminals : nat;
  terminalCounter : nat;
  (** [onStateChange] is [null] or a subscriber; a call of the subscriber
      is recorded in [notified]. *)
  onStateChange : bool;
  (** one-shot [TERMINAL_CREATED] handlers registered and not yet fired,
      each with the [options] it closed over *)
  listeners : list Options;
  sent : list IpcMsg;
  notified : list Snapshot;
  effects : list UiEffect
}.

Definition set_terminals (t : JsMap.t Instance) (m : Manager) : Manager :=
  mkManager t (activeTerminalId m) (viewMode m) (gridLayout m)
    (maxTerminals m) (terminalCounter m) (onStateChange m) (listeners m)
    (sent m) (notified m) (effects m).

Definition set_activeTerminalId (a : option TermId) (m : Manager) : Manager :=
  mkManager (terminals m) a (viewMode m) (gridLayout m)
    (maxTerminals m) (terminalCounter m) (onStateChange m) (listeners m)
    (sent m) (notified m) (effects m).

Definition set_viewMode (v : string) (m : Manager) : Manager :=
  mkManager (terminals m) (activeTerminalId m) v (gridLayout m)
    (maxTerminals m) (terminalCounter m) (onStateChange m) (listeners m)
    (sent m) (notified m) (effects m).

Definition set_gridLayout (g : string) (m : Manager) : Manager :=
  mkManager (terminals m) (activeTerminalId m) (viewMode m) g
    (maxTerminals m) (terminalCounter m) (onStateChange m) (listeners m)
    (sent m) (notified m) (effects m).

Definition set_terminalCounter (c : nat) (m : Manager) : Manager :=
  mkManager (terminals m) (activeTerminalId m) (viewMode m) (gridLayout m)
    (maxTerminals m) c (onStateChange m) (listeners m)
    (sent m) (notified m) (effects m).

Definition set_onStateChange (b : bool) (m : Manager) : Manager :=
  mkManager (terminals m) (activeTerminalId m) (viewMode m) (gridLayout m)
    (maxTerminals m) (terminalCounter m) b (listeners m)
    (sent m) (notified m) (effects m).

Definition set_listeners (l : list Options) (m : Manager) : Manager :=
  mkManager (terminals m) (activeTerminalId m) (viewMode m) (gridLayout m)
    (maxTerminals m) (terminalCounter m) (onStateChange m) l
    (sent m) (notified m) (effects m).

(** [ipcRenderer.send] *)
Definition send (msg : IpcMsg) (m : Manager) : Manager :=
  mkManager (terminals m) (activeTerminalId m) (viewMode m) (gridLayout m)
    (maxTerminals m) (terminalCounter m) (onStateChange m) (listeners m)
    (sent m ++ [msg]) (notified m) (effects m).

Definition notify (s : Snapshot) (m : Manager) : Manager :=
  mkManager (terminals m) (activeTerminalId m) (viewMode m) (gridLayout m)
    (maxTerminals m) (terminalCounter m) (onStateChange m) (listeners m)
    (sent m) (notified m ++ [s]) (effects m).

Definition effect (e : UiEffect) (m : Manager) : Manager :=
  mkManager (terminals m) (activeTerminalId m) (viewMode m) (gridLayout m)
    (maxTerminals m) (terminalCounter m) (onStateChange m) (listeners m)
    (sent m) (notified m) (effects m ++ [e]).

(** [constructor] *)
Definition init : Manager :=
  mkManager [] None "tabs" "2x2" 9 0 false [] [] [] [].

(** ** [Array.prototype.sort] with a comparator

    The engine's sort is stable; for a consistent comparator its result is
    the one stable ordering, computed here by insertion. *)
Section Sort.
Context {A : Type} (cmp : A -> A -> Z).

Fixpoint sort_insert (x : A) (l : list A) : list A :=
  match l with
  | [] => [x]
  | y :: rest =>
      if (cmp x y <=? 0)%Z then x :: y :: rest else y :: sort_insert x rest
  end.

Fixpoint js_sort (l : list A) : list A :=
  match l with
  | [] => []
  | x :: rest => sort_insert x (js_sort rest)
  end.
End Sort.

(** ** Methods *)

Definition getTerminalStates (m : Manager) : list TerminalState :=
  js_sort (fun a b => (createdAt a - createdAt b)%Z)
          (map state (JsMap.values (terminals m))).

Definition snapshot (m : Manager) : Snapshot :=
  mkSnapshot (getTerminalStates m) (activeTerminalId m) (viewMode m)
             (gridLayout m).

Definition _notifyStateChange (m : Manager) : Manager :=
  if onStateChange m then notify (snapshot m) m else m.

Definition setActiveTerminal (terminalId : TermId) (m : Manager) : Manager :=
  (* Update previous active *)
  let m1 :=
    match activeTerminalId m with
    | Some a =>
        if truthy a then
          set_terminals (JsMap.adjust (with_isActive false) a (terminals m)) m
        else m
    | None => m
    end in
  (* Set new active *)
  let m2 := set_activeTerminalId (Some terminalId) m1 in
  let m3 :=
    match JsMap.get terminalId (terminals m2) with
    | Some _ =>
        effect (Focus terminalId)
          (set_terminals
             (JsMap.adjust (with_isActive true) terminalId (terminals m2)) m2)
    | None => m2
    end in
  _notifyStateChange m3.

Definition renameTerminal (terminalId : TermId) (newName : string)
    (m : Manager) : Manager :=
  match JsMap.get terminalId (terminals m) with
  | Some _ =>
      _notifyStateChange
        (set_terminals
           (JsMap.adjust (with_name newName) terminalId (terminals m)) m)
  | None => m
  end.

Definition closeTerminal (terminalId : TermId) (m : Manager) : Manager :=
  match JsMap.get terminalId (terminals m) with
  | Some _ =>
      let m1 := effect (Dispose terminalId) m in
      let m2 := effect (ElementRemove terminalId) m1 in
      let m3 := set_terminals (JsMap.delete terminalId (terminals m2)) m2 in
      let m4 := send (TERMINAL_DESTROY terminalId) m3 in
      (* Switch to another terminal if closing active *)
      let m5 :=
        if active_is (activeTerminalId m4) terminalId then
          let remaining := JsMap.keys (terminals m4) in
          let m' := set_activeTerminalId (last_key remaining) m4 in
          match activeTerminalId m' with
          | Some a => if truthy a then setActiveTerminal a m' else m'
          | None => m'
          end
        else m4 in
      _notifyStateChange m5
  | None => m
  end.

Definition setViewMode (mode : string) (m : Manager) : Manager :=
  _notifyStateChange (set_viewMode mode m).

Definition setGridLayout (layout : string) (m : Manager) : Manager :=
  _notifyStateChange (set_gridLayout layout m).

(** [`Terminal ${n}`] *)
Definition default_name (n : nat) : string :=
  "Terminal " ++ NilEmpty.string_of_uint (Nat.to_uint n).

(** What [new Terminal({...})] starts with: xterm's 80 by 24, no size being
    passed to the constructor. *)
Definition new_instance (st : TerminalState) : Instance :=
  mkInstance st false 80 24.

(** [now] is the value [Date.now()] returns during the call. *)
Definition _initializeTerminal (terminalId : TermId) (options : Options)
    (now : Z) (m : Manager) : Manager :=
  (* options.name || `Terminal ${++this.terminalCounter}` *)
  let '(nm, m1) :=
    match truthy_str (opt_name options) with
    | Some n => (n, m)
    | None =>
        let c := S (terminalCounter m) in
        (default_name c, set_terminalCounter c m)
    end in
  let st := mkState terminalId nm None false now in
  let m2 :=
    set_terminals (JsMap.set terminalId (new_instance st) (terminals m1)) m1 in
  (* If first terminal or no active terminal, make it active *)
  let m3 :=
    if (JsMap.size (terminals m2) =? 1)%nat
       || negb (truthy_active (activeTerminalId m2))
    then setActiveTerminal terminalId m2
    else m2 in
  _notifyStateChange m3.

(** The outcome of [createTerminal]: the promise resolves to [null] at
    once, after [console.error('Maximum terminal limit reached')], or stays
    pending until the main process replies. *)
Inductive CreateOutcome : Type :=
| LimitReached
| Pending.

Definition createTerminal (options : Options) (m : Manager)
    : CreateOutcome * Manager :=
  if (maxTerminals m <=? JsMap.size (terminals m))%nat then (LimitReached, m)
  else
    let m1 := set_listeners (listeners m ++ [options]) m in
    (Pending, send (TERMINAL_CREATE (truthy_str (opt_cwd options))) m1).

(** The body of one [handler] of [createTerminal]: it unregisters itself,
    then initializes the terminal or rejects its promise. *)
Definition created_handler (response : Response) (now : Z)
    (m : Manager) (options : Options) : Manager :=
  let m1 := set_listeners (tl (listeners m)) m in
  match response with
  | Created terminalId => _initializeTerminal terminalId options now m1
  | Failed _ => m1
  end.

(** A message on [IPC.TERMINAL_CREATED]: the emitter calls every handler
    registered at that moment, in registration order. *)
Definition onTerminalCreated (response : Response) (now : Z)
    (m : Manager) : Manager :=
  fold_left (created_handler response now) (listeners m) m.

(** [container] tells whether the container argument is an element. *)
Definition mountTerminal (terminalId : TermId) (container : bool)
    (m : Manager) : Manager :=
  match JsMap.get terminalId (terminals m) with
  | Some instance =>
      if container then
        let m1 := effect (Append terminalId) m in
        if opened instance then m1
        else
          set_terminals
            (JsMap.adjust with_opened terminalId (terminals m1))
            (effect (Open terminalId) m1)
      else m
  | None => m
  end.

(** [instance.fitAddon.fit()]: the emulator takes the size its fit
    computation proposes for its container, [propose terminalId]. *)
Definition fit (propose : TermId -> Z * Z) (terminalId : TermId)
    (m : Manager) : Manager :=
  set_terminals
    (JsMap.adjust (with_size (propose terminalId)) terminalId (terminals m)) m.

Definition _sendResize (terminalId : TermId) (m : Manager) : Manager :=
  match JsMap.get terminalId (terminals m) with
  | Some instance =>
      send (TERMINAL_RESIZE_ID terminalId (cols instance) (rows instance)) m
  | None => m
  end.

(** The callback [mountTerminal] hands to [setTimeout]. *)
Definition mountTimeout (propose : TermId -> Z * Z) (terminalId : TermId)
    (m : Manager) : Manager :=
  let m1 := _sendResize terminalId (fit propose terminalId m) in
  if active_is (activeTerminalId m1) terminalId
  then effect (Focus terminalId) m1
  else m1.

(** One turn of the loop of [fitAll] over the entry [(id, instance)]. *)
Definition fitAll_step (propose : TermId -> Z * Z) (m : Manager)
    (entry : TermId * Instance) : Manager :=
  if opened (snd entry)
  then _sendResize (fst entry) (fit propose (fst entry) m)
  else m.

Definition fitAll (propose : TermId -> Z * Z) (m : Manager) : Manager :=
  fold_left (fitAll_step propose) (terminals m) m.

Definition fitTerminal (propose : TermId -> Z * Z) (terminalId : TermId)
    (m : Manager) : Manager :=
  match JsMap.get terminalId (terminals m) with
  | Some instance =>
      if opened instance
      then _sendResize terminalId (fit propose terminalId m)
      else m
  | None => m
  end.

Definition writeToActive (data : string) (m : Manager) : Manager :=
  match activeTerminalId m with
  | Some a =>
      if truthy a then
        match JsMap.get a (terminals m) with
        | Some _ => effect (TermWrite a data) m
        | None => m
        end
      else m
  | None => m
  end.

Definition sendCommand (command : string) (m : Manager) : Manager :=
  match activeTerminalId m with
  | Some a =>
      if truthy a
      then send (TERMINAL_INPUT_ID a (command ++ String "013"%char "")) m
      else m
  | None => m
  end.

(** The two listeners installed by [_setupIPC]. *)
Definition onTerminalOutput (terminalId : TermId) (data : string)
    (m : Manager) : Manager :=
  match JsMap.get terminalId (terminals m) with
  | Some _ => effect (TermWrite terminalId data) m
  | None => m
  end.

Definition onTerminalDestroyed (terminalId : TermId) (m : Manager)
    : Manager :=
  if JsMap.has terminalId (terminals m) then closeTerminal terminalId m
  else m.

(** The listener [_initializeTerminal] gives to [terminal.onData]: what
    is typed into the emulator of a terminal goes to the main process.  An
    emulator that was disposed emits nothing. *)
Definition onData (terminalId : TermId) (data : string) (m : Manager)
    : Manager :=
  match JsMap.get terminalId (terminals m) with
  | Some _ => send (TERMINAL_INPUT_ID terminalId data) m
  | None => m
  end.

(** ** Events and runs

    Everything that can happen to a manager between its construction and
    the end of the process: a call of a public method, a message from the
    main process, a timer, input typed into an emulator. *)
Inductive Event : Type :=
| Subscribe (on : bool)
| CallCreateTerminal (options : Options)
| RecvTerminalCreated (response : Response) (now : Z)
| RecvTerminalDestroyed (terminalId : TermId)
| RecvTerminalOutput (terminalId : TermId) (data : string)
| CallMountTerminal (terminalId : TermId) (container : bool)
| FireMountTimeout (propose : TermId -> Z * Z) (terminalId : TermId)
| CallSetActiveTerminal (terminalId : TermId)
| CallRenameTerminal (terminalId : TermId) (newName : string)
| CallCloseTerminal (terminalId : TermId)
| CallSetViewMode (mode : string)
| CallSetGridLayout (layout : string)
| CallFitAll (propose : TermId -> Z * Z)
| CallFitTerminal (propose : TermId -> Z * Z) (terminalId : TermId)
| CallWriteToActive (data : string)
| CallSendCommand (command : string)
| TypeInto (terminalId : TermId) (data : string).

Definition exec (m : Manager) (e : Event) : Manager :=
  match e with
  | Subscribe on => set_onStateChange on m
  | CallCreateTerminal options => snd (createTerminal options m)
  | RecvTerminalCreated response now => onTerminalCreated response now m
  | RecvTerminalDestroyed terminalId => onTerminalDestroyed terminalId m
  | RecvTerminalOutput terminalId data => onTerminalOutput terminalId data m
  | CallMountTerminal terminalId container =>
      mountTerminal terminalId container m
  | FireMountTimeout propose terminalId => mountTimeout propose terminalId m
  | CallSetActiveTerminal terminalId => setActiveTerminal terminalId m
  | CallRenameTerminal terminalId newName =>
      renameTerminal terminalId newName m
  | CallCloseTerminal terminalId => closeTerminal terminalId m
  | CallSetViewMode mode => setViewMode mode m
  | CallSetGridLayout layout => setGridLayout layout m
  | CallFitAll propose => fitAll propose m
  | CallFitTerminal propose terminalId => fitTerminal propose terminalId m
  | CallWriteToActive data => writeToActive data m
  | CallSendCommand command => sendCommand command m
  | TypeInto terminalId data => onData terminalId data m
  end.

Definition run (events : list Event) (m : Manager) : Manager :=
  fold_left exec events m.

(** The main process never hands out an id that is falsy in JavaScript
    ([0] or the empty string). *)
Definition event_ok (e : Event) : Prop :=
  match e with
  | RecvTerminalCreated (Created terminalId) _ => truthy terminalId = true
  | _ => True
  end.

Inductive reachable : Manager -> Prop :=
| reachable_init : reachable init
| reachable_exec m e :
    reachable m -> event_ok e -> reachable (exec m e).

(** ** Observations *)

Definition marked (entry : TermId * Instance) : bool :=
  isActive (state (snd entry)).

(** Number of sessions with [isActive = true]. *)
Definition count_active (m : Manager) : nat :=
  List.length (filter marked (terminals m)).

(** The registry once [setActiveTerminal] has unmarked the previous
    active session. *)
Definition cleared (m : Manager) : JsMap.t Instance :=
  match activeTerminalId m with
  | Some a =>
      if truthy a
      then JsMap.adjust (with_isActive false) a (terminals m)
      else terminals m
  | None => terminals m
  end.

(** The registry invariant: keys are distinct and truthy, every record
    carries its key, and only the session [activeTerminalId] names can be
    marked active. *)
Definition reg_ok (t : JsMap.t Instance) (a : option TermId) : Prop :=
  NoDup (JsMap.keys t)
  /\ (forall k i, In (k, i) t -> truthy k = true /\ id (state i) = k)
  /\ (forall k i, In (k, i) t -> isActive (state i) = true -> a = Some k).

Definition registry_ok (m : Manager) : Prop :=
  reg_ok (terminals m) (activeTerminalId m).

(** The spec's wording of the activation invariant: never two, and zero
    only in an empty registry. *)
Definition one_active_unless_empty (m : Manager) : Prop :=
  terminals m = [] \/ count_active m = 1%nat.

Definition no_options : Options := mkOptions None None.

(** One terminal, ["A"], created and active. *)
Definition one_terminal : Manager :=
  run [CallCreateTerminal no_options;
       RecvTerminalCreated (Created (IdStr "A")) 1000] init.

(** Creation times do not decrease along the insertion order of the
    registry: what a clock that never runs backwards and ids that are never
    handed out twice produce. *)
Definition older (a b : TermId * Instance) : Prop :=
  (createdAt (state (snd a)) <= createdAt (state (snd b)))%Z.

Definition chronological (m : Manager) : Prop :=
  StronglySorted older (terminals m).

Definition times (l : JsMap.t Instance) : list Z :=
  map (fun e => createdAt (state (snd e))) l.

(** A reply to a creation request that comes with a new id and a clock
    reading not below the creation times on record, to a manager with at
    most one request outstanding. *)
Definition event_timely (m : Manager) (e : Event) : Prop :=
  match e with
  | RecvTerminalCreated (Created terminalId) now =>
      JsMap.get terminalId (terminals m) = None
      /\ (forall k i, In (k, i) (terminals m) ->
                      (createdAt (state i) <= now)%Z)
      /\ (List.length (listeners m) <= 1)%nat
  | _ => True
  end.

(** The literal scenario: create A, B, C in that order, activate B. *)
Definition scenario_ABC : Manager :=
  run [CallCreateTerminal no_options;
       RecvTerminalCreated (Created (IdStr "A")) 1000;
       CallCreateTerminal no_options;
       RecvTerminalCreated (Created (IdStr "B")) 2000;
       CallCreateTerminal no_options;
       RecvTerminalCreated (Created (IdStr "C")) 3000;
       CallSetActiveTerminal (IdStr "B")] init.

(** What no event takes back: the bound stays, the name counter never
    drops. *)
Definition steady (m m' : Manager) : Prop :=
  maxTerminals m' = maxTerminals m
  /\ (terminalCounter m <= terminalCounter m')%nat.

(** A manager that holds nine terminals: A to I, created in that order. *)
Definition nine_terminals : Manager :=
  run (flat_map
         (fun p => [CallCreateTerminal no_options;
                    RecvTerminalCreated (Created (IdStr (fst p))) (snd p)])
         [("A", 1000%Z); ("B", 2000%Z); ("C", 3000%Z); ("D", 4000%Z);
          ("E", 5000%Z); ("F", 6000%Z); ("G", 7000%Z); ("H", 8000%Z);
          ("I", 9000%Z)]) init.

(** The spec's wording of the notification rule: one call of the
    subscriber, with the snapshot of the state the operation leaves. *)
Definition notifies_once (m m' : Manager) : Prop :=
  notified m' = notified m ++ [snapshot m'].

(** When [_initializeTerminal] also activates the terminal it adds: the
    registry then holds one terminal, or no terminal was active. *)
Definition activates_on_create (t : TermId) (m : Manager) : bool :=
  ((if JsMap.has t (terminals m) then JsMap.size (terminals m)
    else S (JsMap.size (terminals m))) =? 1)%nat
  || negb (truthy_active (activeTerminalId m)).

(** When [closeTerminal] hands the activation on: the closed terminal was
    the active one and a terminal remains. *)
Definition hands_over (x : TermId) (m : Manager) : bool :=
  active_is (activeTerminalId m) x
  && truthy_active (last_key (JsMap.keys (JsMap.delete x (terminals m)))).

(** A subscribed manager with one creation request outstanding. *)
Definition awaiting_first : Manager :=
  run [Subscribe true; CallCreateTerminal no_options] init.

(** Number of resize messages for terminal [x] in a list of messages. *)
Definition is_resize_for (x : TermId) (msg : IpcMsg) : bool :=
  match msg with
  | TERMINAL_RESIZE_ID y _ _ => id_eqb y x
  | _ => false
  end.

Definition resizes_for (x : TermId) (l : list IpcMsg) : nat :=
  List.length (filter (is_resize_for x) l).

(** The resize message that carries what the fit of terminal [x]
    computed. *)
Definition resize_message (propose : TermId -> Z * Z) (x : TermId) : IpcMsg :=
  TERMINAL_RESIZE_ID x (fst (propose x)) (snd (propose x)).

(** Name recorded for terminal [t], if it is in the registry. *)
Definition name_of (t : TermId) (m : Manager) : option string :=
  option_map (fun i => name (state i)) (JsMap.get t (terminals m)).

(** States reached when every reply to a creation request is timely. *)
Inductive on_time : Manager -> Prop :=
| on_time_init : on_time init
| on_time_exec m e :
    on_time m -> event_ok e -> event_timely m e -> on_time (exec m e).

(** The bound on the registry, with room left for every creation request
    that is outstanding. *)
Definition within_bound (m : Manager) : Prop :=
  (JsMap.size (terminals m) <= maxTerminals m)%nat
  /\ (listeners m <> [] -> (JsMap.size (terminals m) < maxTerminals m)%nat).

(** An event that adds no terminal and leaves the creation handlers. *)
Definition calm (m m' : Manager) : Prop :=
  maxTerminals m' = maxTerminals m
  /\ listeners m' = listeners m
  /\ (JsMap.size (terminals m') <= JsMap.size (terminals m))%nat.

(** What has been written to the emulator of terminal [t], in order. *)
Definition writes_to (t : TermId) (l : list UiEffect) : list string :=
  flat_map (fun e => match e with
                     | TermWrite t' data => if id_eqb t' t then [data] else []
                     | _ => []
                     end) l.

(** Output chunks arriving from the main process, one event each. *)
Definition output_events (chunks : list (TermId * string)) : list Event :=
  map (fun c => RecvTerminalOutput (fst c) (snd c)) chunks.

(** The active id names a session of the registry and that session is
    marked; there is no active id only when the registry is empty. *)
Definition well_activated (m : Manager) : Prop :=
  registry_ok m
  /\ match activeTerminalId m with
     | None => terminals m = []
     | Some a =>
         exists i, JsMap.get a (terminals m) = Some i
                   /\ isActive (state i) = true
     end.

(** The manager as its callers drive it: [setActiveTerminal] is called with
    ids of the registry, and the main process answers a creation request
    with a truthy id that is not in the registry. *)
Definition event_orderly (m : Manager) (e : Event) : Prop :=
  match e with
  | RecvTerminalCreated (Created terminalId) _ =>
      truthy terminalId = true
      /\ JsMap.get terminalId (terminals m) = None
  | CallSetActiveTerminal terminalId =>
      JsMap.has terminalId (terminals m) = true
  | _ => True
  end.

Inductive orderly : Manager -> Prop :=
| orderly_init : orderly init
| orderly_exec m e :
    orderly m -> event_orderly m e -> orderly (exec m e).

(** Two terminals created, A then B, and A closed. *)
Definition closed_first : Manager :=
  run [CallCreateTerminal no_options;
       RecvTerminalCreated (Created (IdStr "A")) 1000;
       CallCreateTerminal no_options;
       RecvTerminalCreated (Created (IdStr "B")) 2000;
       CallCloseTerminal (IdStr "A")] init.

(** ** The keyboard

    The shortcuts of [MultiTerminalUI] (src/renderer/multiTerminalUI.js) and
    the key filter [_initializeTerminal] attaches to every emulator.  Of a
    keyboard event the handlers read the three modifier flags and [key].
    [String.prototype.toLowerCase] is Unicode's; the handlers take it as the
    argument [toLowerCase], and nothing is assumed of it. *)

Record KeyEvent : Type := mkKeyEvent {
  ctrlKey : bool;
  metaKey : bool;
  shiftKey : bool;
  key : string
}.

(** [event.key >= '1' && event.key <= '9'], strings compared code unit by
    code unit. *)
Definition between_1_and_9 (k : string) : bool :=
  String.leb "1" k && String.leb k "9".

(** The handler given to [terminal.attachCustomKeyEventHandler]: [false]
    hands the key to the application, [true] leaves it to the emulator. *)
Definition customKeyEventHandler (toLowerCase : string -> string)
    (event : KeyEvent) : bool :=
  let modKey := ctrlKey event || metaKey event in
  let lowered := toLowerCase (key event) in
  (* Ctrl/Cmd + Shift combinations *)
  if modKey && shiftKey event then false
  (* Ctrl/Cmd + 1-9 *)
  else if modKey && between_1_and_9 (key event) then false
  (* Ctrl/Cmd + K *)
  else if modKey && (lowered =? "k") then false
  (* Ctrl/Cmd + I *)
  else if modKey && (lowered =? "i") then false
  (* Ctrl/Cmd + H *)
  else if modKey && (lowered =? "h") then false
  (* Ctrl/Cmd + Tab *)
  else if modKey && (key event =? "Tab") then false
  (* Let terminal handle everything else *)
  else true.

(** [Array.prototype.findIndex]: the first index whose element passes the
    test, -1 if there is none. *)
Fixpoint findIndex_from {A} (p : A -> bool) (l : list A) (n : Z) : Z :=
  match l with
  | [] => (-1)%Z
  | x :: rest => if p x then n else findIndex_from p rest (n + 1)%Z
  end.

Definition findIndex {A} (p : A -> bool) (l : list A) : Z :=
  findIndex_from p l 0%Z.

(** [array[i]]: [undefined] ([None]) outside the array. *)
Definition element_at {A} (l : list A) (i : Z) : option A :=
  if (i <? 0)%Z then None else nth_error l (Z.to_nat i).

(** The two wrap-around tests of [_switchTerminal], one after the other. *)
Definition wrap_around (len newIndex : Z) : Z :=
  let newIndex := if (newIndex <? 0)%Z then (len - 1)%Z else newIndex in
  if (len <=? newIndex)%Z then 0%Z else newIndex.

Definition _switchTerminal (direction : Z) (m : Manager) : Manager :=
  let terminals := getTerminalStates m in
  if (Z.of_nat (List.length terminals) <=? 1)%Z then m
  else
    let currentIndex :=
      findIndex (fun t => active_is (activeTerminalId m) (id t)) terminals in
    let newIndex :=
      wrap_around (Z.of_nat (List.length terminals))
                  (currentIndex + direction)%Z in
    match element_at terminals newIndex with
    | Some t => setActiveTerminal (id t) m
    | None => m (* [terminals[newIndex].id] would throw; never reached *)
    end.

(** [parseInt] of a key that starts with a decimal digit, as the test
    before the call ensures: the number its leading digits spell.  [None]
    stands for [NaN]. *)
Definition digit_of (c : ascii) : option Z :=
  let n := Z.of_N (N_of_ascii c) in
  if (48 <=? n)%Z && (n <=? 57)%Z then Some (n - 48)%Z else None.

Fixpoint digits_value (acc : Z) (s : string) : Z :=
  match s with
  | String c rest =>
      match digit_of c with
      | Some d => digits_value (10 * acc + d)%Z rest
      | None => acc
      end
  | EmptyString => acc
  end.

Definition parseInt (s : string) : option Z :=
  match s with
  | String c rest =>
      match digit_of c with
      | Some d => Some (digits_value d rest)
      | None => None
      end
  | EmptyString => None
  end.

(** The six shortcuts of the [keydown] listener, in the order it tests
    them; each acts on the manager the tests before it left. *)
Definition shortcut_new (lowered : string) (e : KeyEvent) : bool :=
  (ctrlKey e || metaKey e) && shiftKey e && (lowered =? "t").

Definition shortcut_close (lowered : string) (e : KeyEvent) : bool :=
  (ctrlKey e || metaKey e) && shiftKey e && (lowered =? "w").

Definition shortcut_next (e : KeyEvent) : bool :=
  (ctrlKey e || metaKey e) && (key e =? "Tab") && negb (shiftKey e).

Definition shortcut_previous (e : KeyEvent) : bool :=
  (ctrlKey e || metaKey e) && shiftKey e && (key e =? "Tab").

Definition shortcut_number (e : KeyEvent) : bool :=
  (ctrlKey e || metaKey e) && between_1_and_9 (key e).

Definition shortcut_grid (lowered : string) (e : KeyEvent) : bool :=
  (ctrlKey e || metaKey e) && shiftKey e && (lowered =? "g").

(** Whether the listener calls [e.preventDefault()]. *)
Definition preventDefault (toLowerCase : string -> string) (e : KeyEvent)
    : bool :=
  let lowered := toLowerCase (key e) in
  shortcut_new lowered e || shortcut_close lowered e || shortcut_next e
  || shortcut_previous e || shortcut_number e || shortcut_grid lowered e.

Definition close_active (m : Manager) : Manager :=
  match activeTerminalId m with
  | Some a =>
      if truthy a && (1 <? JsMap.size (terminals m))%nat
      then closeTerminal a m
      else m
  | None => m
  end.

Definition switch_to_number (k : string) (m : Manager) : Manager :=
  match parseInt k with
  | Some n =>
      let index := (n - 1)%Z in
      let terminals := getTerminalStates m in
      if (index <? Z.of_nat (List.length terminals))%Z then
        match element_at terminals index with
        | Some t => setActiveTerminal (id t) m
        | None => m (* would throw; never reached *)
        end
      else m
  | None => m
  end.

Definition toggle_grid (m : Manager) : Manager :=
  setViewMode (if viewMode m =? "tabs" then "grid" else "tabs") m.

Definition keydown (toLowerCase : string -> string) (e : KeyEvent)
    (m : Manager) : Manager :=
  let lowered := toLowerCase (key e) in
  let m1 := if shortcut_new lowered e
            then snd (createTerminal no_options m) else m in
  let m2 := if shortcut_close lowered e then close_active m1 else m1 in
  let m3 := if shortcut_next e then _switchTerminal 1 m2 else m2 in
  let m4 := if shortcut_previous e then _switchTerminal (-1) m3 else m3 in
  let m5 := if shortcut_number e then switch_to_number (key e) m4 else m4 in
  if shortcut_grid lowered e then toggle_grid m5 else m5.

(** Plain ASCII lower-casing, to run the handlers on examples. *)
Definition ascii_lower (c : ascii) : ascii :=
  let n := N_of_ascii c in
  if (65 <=? n)%N && (n <=? 90)%N then ascii_of_N (n + 32) else c.

Fixpoint ascii_toLowerCase (s : string) : string :=
  match s with
  | String c rest => String (ascii_lower c) (ascii_toLowerCase rest)
  | EmptyString => EmptyString
  end.

(** ** The prompt log of the single-terminal main process

    The [terminal-input] listener of [main.js] (src/unnamed/part_000) writes
    what the renderer sends to the pty and keeps a line buffer of it, which
    it appends to the history file at each line end.

    Input is taken byte by byte.  The listener goes through the code points
    of [data]; a code point outside ASCII is none of the characters it
    tests for and is not between [' '] and ['~'], and so is none of the
    bytes that encode it: the buffer and the file come out the same.  The
    file is the list of the entries appended; an append is taken to
    succeed.  [clock n] is what [new Date().toISOString()] returns when n
    entries have been appended. *)

Record MainProcess : Type := mkMainProcess {
  ptyProcess : bool;
  ptyInput : list string;
  inputBuffer : string;
  appended : list string
}.

(** [char >= ' ' && char <= '~'] *)
Definition printable (c : ascii) : bool :=
  Ascii.leb " " c && Ascii.leb c "~".

(** The white space [trim] removes, among single bytes. *)
Definition whitespace (c : ascii) : bool :=
  (c =? "009")%char || (c =? "010")%char || (c =? "011")%char
  || (c =? "012")%char || (c =? "013")%char || (c =? " ")%char.

(** [s.trim().length > 0] fails: [s] is white space throughout. *)
Fixpoint blank (s : string) : bool :=
  match s with
  | String c rest => whitespace c && blank rest
  | EmptyString => true
  end.

(** [s.slice(0, -1)] *)
Fixpoint slice_last (s : string) : string :=
  match s with
  | EmptyString => EmptyString
  | String c EmptyString => EmptyString
  | String c rest => String c (slice_last rest)
  end.

(** [`[${timestamp}] ${inputBuffer}\n`] *)
Definition logEntry (timestamp inputBuffer : string) : string :=
  "[" ++ timestamp ++ "] " ++ inputBuffer ++ String "010"%char "".

Definition set_inputBuffer (b : string) (p : MainProcess) : MainProcess :=
  mkMainProcess (ptyProcess p) (ptyInput p) b (appended p).

Definition appendFileSync (entry : string) (p : MainProcess) : MainProcess :=
  mkMainProcess (ptyProcess p) (ptyInput p) (inputBuffer p)
    (appended p ++ [entry]).

Definition pty_write (data : string) (p : MainProcess) : MainProcess :=
  mkMainProcess (ptyProcess p) (ptyInput p ++ [data]) (inputBuffer p)
    (appended p).

(** One turn of the loop [for (let char of data)]. *)
Definition log_char (clock : nat -> string) (p : MainProcess) (char : ascii)
    : MainProcess :=
  if (char =? "013")%char || (char =? "010")%char then
    (* Enter pressed - save the line *)
    let p1 :=
      if negb (blank (inputBuffer p))
      then appendFileSync
             (logEntry (clock (List.length (appended p))) (inputBuffer p)) p
      else p in
    set_inputBuffer "" p1
  else if (char =? "127")%char || (char =? "008")%char then
    (* Backspace - remove last char *)
    set_inputBuffer (slice_last (inputBuffer p)) p
  else if printable char then
    (* Printable character *)
    set_inputBuffer (inputBuffer p ++ String char "") p
  else p.

Fixpoint log_chars (clock : nat -> string) (data : string) (p : MainProcess)
    : MainProcess :=
  match data with
  | String char rest => log_chars clock rest (log_char clock p char)
  | EmptyString => p
  end.

(** The listener of [terminal-input]. *)
Definition onTerminalInput (clock : nat -> string) (data : string)
    (p : MainProcess) : MainProcess :=
  if ptyProcess p then log_chars clock data (pty_write data p) else p.

(** The main process once the pty is started: nothing typed, nothing
    logged. *)
Definition main_started : MainProcess := mkMainProcess true [] "" [].

Fixpoint all_chars (test : ascii -> bool) (s : string) : bool :=
  match s with
  | String c rest => test c && all_chars test rest
  | EmptyString => true
  end.

(** An entry of the history file that a reader can use: a line of
    printable characters that is not blank, behind its time stamp. *)
Definition proper_entry (clock : nat -> string) (entry : string) : Prop :=
  exists n line,
    entry = logEntry (clock n) line
    /\ all_chars printable line = true
    /\ blank line = false.

(** * Proofs *)

(** ** Identifiers *)

Lemma id_eqb_eq a b : id_eqb a b = true <-> a = b.
Proof.
  destruct a as [x|x], b as [y|y]; simpl; split; intro H;
    try discriminate; try congruence.
  - apply Z.eqb_eq in H. now subst.
  - injection H as ->. apply Z.eqb_refl.
  - apply String.eqb_eq in H. now subst.
  - injection H as ->. apply String.eqb_refl.
Qed.

Lemma id_eqb_refl a : id_eqb a a = true.
Proof. now apply id_eqb_eq. Qed.

Lemma id_eqb_neq a b : id_eqb a b = false <-> a <> b.
Proof.
  split; intro H.
  - intros ->. rewrite id_eqb_refl in H. discriminate.
  - destruct (id_eqb a b) eqn:E; [|reflexivity].
    apply id_eqb_eq in E. contradiction.
Qed.

Lemma id_eqb_sym a b : id_eqb a b = id_eqb b a.
Proof.
  destruct (id_eqb b a) eqn:E.
  - apply id_eqb_eq in E. subst. apply id_eqb_refl.
  - apply id_eqb_neq in E. apply id_eqb_neq. congruence.
Qed.

Ltac id_cases a b :=
  let E := fresh "E" in
  destruct (id_eqb a b) eqn:E;
  [apply id_eqb_eq in E; try subst | pose proof (proj1 (id_eqb_neq _ _) E)].

(** ** The map *)

Module JsMapFacts.
Import JsMap.
Section Facts.
Context {V : Type}.
Implicit Types (m : JsMap.t V) (k j : TermId) (v : V) (f : V -> V).

Lemma get_In k m v : get k m = Some v -> In (k, v) m.
Proof.
  induction m as [|[k' v'] m IH]; simpl; [discriminate|].
  id_cases k' k.
  - intros [= ->]. now left.
  - intro G. right. auto.
Qed.

Lemma get_None k m : get k m = None <-> ~ In k (keys m).
Proof.
  induction m as [|[k' v'] m IH]; simpl.
  - tauto.
  - id_cases k' k.
    + split; [discriminate|]. intro N. exfalso. apply N. now left.
    + rewrite IH. split; [intros N [?|?]; [congruence|tauto] | tauto].
Qed.

Lemma In_get k v m : NoDup (keys m) -> In (k, v) m -> get k m = Some v.
Proof.
  induction m as [|[k' v'] m IH]; simpl; [tauto|].
  intros ND [E|I]; inversion ND as [|? ? Hn Hd]; subst.
  - injection E as -> ->. now rewrite id_eqb_refl.
  - id_cases k' k.
    + exfalso. apply Hn. change k with (fst (k, v)). now apply in_map.
    + auto.
Qed.

Lemma has_true k m : has k m = true <-> In k (keys m).
Proof.
  unfold has. destruct (get k m) eqn:G.
  - split; [intros _|reflexivity].
    apply get_In in G. change k with (fst (k, v)). now apply in_map.
  - split; [discriminate|]. intro I. now apply get_None in G.
Qed.

Lemma keys_adjust f j m : keys (adjust f j m) = keys m.
Proof.
  unfold keys.
  induction m as [|[k' v'] m IH]; simpl; [reflexivity|].
  destruct (id_eqb k' j); simpl; [reflexivity|]. now rewrite IH.
Qed.

Lemma upd_absent f j m : ~ In j (keys m) -> map (upd f j) m = m.
Proof.
  induction m as [|[k' v'] m IH]; simpl; [reflexivity|].
  intro N. unfold upd at 1. simpl. id_cases k' j.
  - exfalso. apply N. now left.
  - rewrite IH; [reflexivity|]. tauto.
Qed.

Lemma adjust_map f j m :
  NoDup (keys m) -> adjust f j m = map (upd f j) m.
Proof.
  induction m as [|[k' v'] m IH]; simpl; [reflexivity|].
  intro ND. inversion ND as [|? ? Hn Hd]; subst.
  unfold upd at 1. simpl. id_cases k' j.
  - now rewrite upd_absent.
  - now rewrite IH.
Qed.

Lemma adjust_absent f j m : get j m = None -> adjust f j m = m.
Proof.
  induction m as [|[k' v'] m IH]; simpl; [reflexivity|].
  destruct (id_eqb k' j); [discriminate|]. intro G. now rewrite IH.
Qed.

Lemma get_adjust f j k m :
  get k (adjust f j m) =
  if id_eqb j k then option_map f (get k m) else get k m.
Proof.
  induction m as [|[k' v'] m IH]; simpl.
  - now destruct (id_eqb j k).
  - destruct (id_eqb k' j) eqn:E1; simpl.
    + apply id_eqb_eq in E1. subst k'. now destruct (id_eqb j k).
    + destruct (id_eqb k' k) eqn:E2; [|apply IH].
      apply id_eqb_eq in E2. subst k'. now rewrite id_eqb_sym, E1.
Qed.

Lemma delete_filter j m :
  delete j m = filter (fun e => negb (id_eqb (fst e) j)) m.
Proof.
  induction m as [|[k' v'] m IH]; simpl; [reflexivity|].
  destruct (id_eqb k' j); simpl; now rewrite IH.
Qed.

Lemma In_delete j k v m : In (k, v) (delete j m) <-> In (k, v) m /\ k <> j.
Proof.
  rewrite delete_filter, filter_In. simpl.
  rewrite negb_true_iff, id_eqb_neq. tauto.
Qed.

Lemma get_delete j k m :
  get k (delete j m) = if id_eqb j k then None else get k m.
Proof.
  induction m as [|[k' v'] m IH]; simpl.
  - now destruct (id_eqb j k).
  - destruct (id_eqb k' j) eqn:E1.
    + rewrite IH. apply id_eqb_eq in E1. subst k'.
      now destruct (id_eqb j k).
    + simpl. destruct (id_eqb k' k) eqn:E2; [|apply IH].
      apply id_eqb_eq in E2. subst k'. now rewrite id_eqb_sym, E1.
Qed.

Lemma delete_absent j m : get j m = None -> delete j m = m.
Proof.
  induction m as [|[k' v'] m IH]; simpl; [reflexivity|].
  destruct (id_eqb k' j); [discriminate|]. intro G. now rewrite IH.
Qed.

Lemma keys_delete j m :
  keys (delete j m) = filter (fun k => negb (id_eqb k j)) (keys m).
Proof.
  unfold keys.
  induction m as [|[k' v'] m IH]; simpl; [reflexivity|].
  destruct (id_eqb k' j); simpl; now rewrite IH.
Qed.

Lemma NoDup_filter {A} (p : A -> bool) (l : list A) :
  NoDup l -> NoDup (filter p l).
Proof.
  induction 1 as [|x l Hn Hd IH]; simpl; [constructor|].
  destruct (p x); [constructor|]; auto.
  rewrite filter_In. tauto.
Qed.

Lemma NoDup_keys_delete j m : NoDup (keys m) -> NoDup (keys (delete j m)).
Proof. rewrite keys_delete. apply NoDup_filter. Qed.

(** [set] on a new key appends; on a key already there it replaces the
    value where it stands. *)
Lemma set_fresh k v m : get k m = None -> set k v m = m ++ [(k, v)].
Proof.
  induction m as [|[k' v'] m IH]; simpl; [reflexivity|].
  destruct (id_eqb k' k); [discriminate|]. intro G. now rewrite IH.
Qed.

Lemma set_present k v v0 m :
  get k m = Some v0 -> set k v m = adjust (fun _ => v) k m.
Proof.
  induction m as [|[k' v'] m IH]; simpl; [discriminate|].
  destruct (id_eqb k' k); [reflexivity|]. intro G. now rewrite IH.
Qed.

Lemma keys_set k v m :
  keys (set k v m) = if has k m then keys m else keys m ++ [k].
Proof.
  unfold has. destruct (get k m) eqn:G.
  - rewrite (set_present _ _ _ _ G). apply keys_adjust.
  - rewrite (set_fresh _ _ _ G). unfold keys. now rewrite map_app.
Qed.

Lemma NoDup_keys_set k v m : NoDup (keys m) -> NoDup (keys (set k v m)).
Proof.
  intro ND. rewrite keys_set. destruct (has k m) eqn:H; [assumption|].
  assert (N : ~ In k (keys m)).
  { intro I. apply has_true in I. congruence. }
  clear H. induction (keys m) as [|x l IH]; simpl.
  - constructor; [tauto|constructor].
  - inversion ND; subst. constructor.
    + rewrite in_app_iff. simpl in *. intuition congruence.
    + apply IH; simpl in *; tauto.
Qed.

Lemma get_set k j v m :
  get j (set k v m) = if id_eqb k j then Some v else get j m.
Proof.
  induction m as [|[k' v'] m IH]; simpl.
  - reflexivity.
  - destruct (id_eqb k' k) eqn:E1; simpl.
    + apply id_eqb_eq in E1. subst k'. now destruct (id_eqb k j).
    + destruct (id_eqb k' j) eqn:E2; [|apply IH].
      apply id_eqb_eq in E2. subst k'. now rewrite id_eqb_sym, E1.
Qed.

Lemma In_set k v j w m :
  NoDup (keys m) ->
  In (j, w) (set k v m) -> (j = k /\ w = v) \/ (j <> k /\ In (j, w) m).
Proof.
  induction m as [|[k' v'] m IH]; simpl.
  - intros _ [[= <- <-]|[]]. now left.
  - intro ND. inversion ND as [|? ? Hn Hd]; subst.
    id_cases k' k; simpl.
    + intros [[= <- <-]|I]; [now left|]. right. split; [|now right].
      intros ->. apply Hn. change k with (fst (k, w)). now apply in_map.
    + intros [[= <- <-]|I]; [right; split; [assumption|now left]|].
      destruct (IH Hd I) as [?|[? ?]]; [now left|right; tauto].
Qed.

Lemma In_adjust f j k w m :
  NoDup (keys m) ->
  In (k, w) (adjust f j m) ->
  (k = j /\ exists w0, In (k, w0) m /\ w = f w0) \/ (k <> j /\ In (k, w) m).
Proof.
  intros ND. rewrite (adjust_map _ _ _ ND), in_map_iff.
  intros [[k0 w0] [E I]]. unfold upd in E. simpl in E.
  id_cases k0 j.
  - injection E as <- <-. left. eauto.
  - injection E as <- <-. right. tauto.
Qed.

Lemma In_adjust_present f j w0 m :
  In (j, w0) m -> NoDup (keys m) -> In (j, f w0) (adjust f j m).
Proof.
  intros I ND. rewrite (adjust_map _ _ _ ND), in_map_iff.
  exists (j, w0). unfold upd. simpl. now rewrite id_eqb_refl.
Qed.
End Facts.
End JsMapFacts.

Import JsMapFacts.

(** ** Projections of the methods *)

Lemma terminals_notifyStateChange m :
  terminals (_notifyStateChange m) = terminals m.
Proof. unfold _notifyStateChange. now destruct (onStateChange m). Qed.

Lemma active_notifyStateChange m :
  activeTerminalId (_notifyStateChange m) = activeTerminalId m.
Proof. unfold _notifyStateChange. now destruct (onStateChange m). Qed.

Lemma terminals_setActiveTerminal t m :
  terminals (setActiveTerminal t m) =
  JsMap.adjust (with_isActive true) t (cleared m).
Proof.
  unfold setActiveTerminal. rewrite terminals_notifyStateChange.
  unfold cleared.
  destruct (activeTerminalId m) as [a|]; [destruct (truthy a)|]; simpl;
    match goal with
    | |- context [JsMap.get t ?l] =>
        destruct (JsMap.get t l) eqn:G; simpl;
        [reflexivity | symmetry; now apply adjust_absent]
    end.
Qed.

Lemma active_setActiveTerminal t m :
  activeTerminalId (setActiveTerminal t m) = Some t.
Proof.
  unfold setActiveTerminal. rewrite active_notifyStateChange.
  destruct (activeTerminalId m) as [a|]; [destruct (truthy a)|]; simpl;
    match goal with
    | |- context [JsMap.get t ?l] => now destruct (JsMap.get t l)
    end.
Qed.

Lemma reg_ok_adjust f j t a :
  (forall i, id (state (f i)) = id (state i)
             /\ isActive (state (f i)) = isActive (state i)) ->
  reg_ok t a -> reg_ok (JsMap.adjust f j t) a.
Proof.
  intros Hf (ND & Hk & Ha). split; [|split].
  - now rewrite keys_adjust.
  - intros k i I. apply In_adjust in I; [|assumption].
    destruct I as [[-> (w0 & I & ->)]|[_ I]]; [|eauto].
    destruct (Hk _ _ I) as [T E]. split; [assumption|].
    now rewrite (proj1 (Hf w0)).
  - intros k i I M. apply In_adjust in I; [|assumption].
    destruct I as [[-> (w0 & I & ->)]|[_ I]]; [|eauto].
    rewrite (proj2 (Hf w0)) in M. eauto.
Qed.

Lemma reg_ok_delete j t a : reg_ok t a -> reg_ok (JsMap.delete j t) a.
Proof.
  intros (ND & Hk & Ha). split; [|split].
  - now apply NoDup_keys_delete.
  - intros k i I. apply In_delete in I. apply (Hk _ _ (proj1 I)).
  - intros k i I. apply In_delete in I. apply (Ha _ _ (proj1 I)).
Qed.

(** Once the active session is deleted no session is marked, so the
    active id can be set to anything. *)
Lemma reg_ok_delete_active j t a :
  reg_ok t (Some j) -> reg_ok (JsMap.delete j t) a.
Proof.
  intros (ND & Hk & Ha). split; [|split].
  - now apply NoDup_keys_delete.
  - intros k i I. apply In_delete in I. apply (Hk _ _ (proj1 I)).
  - intros k i I M. apply In_delete in I. destruct I as [I N].
    specialize (Ha _ _ I M). congruence.
Qed.

Lemma reg_ok_unmarked t a :
  reg_ok t a ->
  forall k i, In (k, i) (cleared (mkManager t a "" "" 0 0 false [] [] [] []))
              -> isActive (state i) = false.
Proof.
  intros (ND & Hk & Ha) k i. unfold cleared. simpl.
  assert (Plain : In (k, i) t -> truthy_active a = false ->
                  isActive (state i) = false).
  { intros I F. destruct (isActive (state i)) eqn:M; [|reflexivity].
    rewrite (Ha _ _ I M) in F. simpl in F.
    rewrite (proj1 (Hk _ _ I)) in F. discriminate. }
  destruct a as [a|]; [destruct (truthy a) eqn:T|]; try (intro I; now apply Plain).
  intro I. apply In_adjust in I; [|assumption].
  destruct I as [[-> (w0 & I & ->)]|[N I]]; [reflexivity|].
  destruct (isActive (state i)) eqn:M; [|reflexivity].
  specialize (Ha _ _ I M). congruence.
Qed.

Lemma cleared_depends m :
  cleared m =
  cleared (mkManager (terminals m) (activeTerminalId m) "" "" 0 0 false
                     [] [] [] []).
Proof. reflexivity. Qed.

Lemma keys_cleared m : JsMap.keys (cleared m) = JsMap.keys (terminals m).
Proof.
  unfold cleared. destruct (activeTerminalId m) as [a|]; [|reflexivity].
  destruct (truthy a); [apply keys_adjust|reflexivity].
Qed.

Lemma cleared_keeps m k i :
  NoDup (JsMap.keys (terminals m)) ->
  In (k, i) (cleared m) ->
  exists i0, In (k, i0) (terminals m)
             /\ (i = i0 \/ i = with_isActive false i0).
Proof.
  intros ND. unfold cleared.
  destruct (activeTerminalId m) as [a|]; [destruct (truthy a)|];
    try (intro I; exists i; tauto).
  intro I. apply In_adjust in I; [|assumption].
  destruct I as [[-> (w0 & I & ->)]|[N I]]; eauto.
Qed.

Lemma registry_ok_setActiveTerminal t m :
  registry_ok m -> registry_ok (setActiveTerminal t m).
Proof.
  intros OK. pose proof (reg_ok_unmarked _ _ OK) as U.
  rewrite <- cleared_depends in U.
  destruct OK as (ND & Hk & Ha).
  unfold registry_ok.
  rewrite terminals_setActiveTerminal, active_setActiveTerminal.
  assert (NDc : NoDup (JsMap.keys (cleared m))) by now rewrite keys_cleared.
  split; [|split].
  - now rewrite keys_adjust.
  - intros k i I. apply In_adjust in I; [|assumption].
    assert (K : forall w, In (k, w) (cleared m) ->
                          truthy k = true /\ id (state w) = k).
    { intros w Iw. destruct (cleared_keeps _ _ _ ND Iw) as (i0 & I0 & [->| ->]);
        apply (Hk _ _ I0). }
    destruct I as [[-> (w0 & I & ->)]|[_ I]]; [|now apply K].
    apply (K _ I).
  - intros k i I M. apply In_adjust in I; [|assumption].
    destruct I as [[-> _]|[_ I]]; [reflexivity|].
    rewrite (U _ _ I) in M. discriminate.
Qed.

Lemma registry_ok_same m m' :
  terminals m' = terminals m ->
  activeTerminalId m' = activeTerminalId m ->
  registry_ok m -> registry_ok m'.
Proof. unfold registry_ok. now intros -> ->. Qed.

Lemma registry_ok_notify m :
  registry_ok m -> registry_ok (_notifyStateChange m).
Proof.
  apply registry_ok_same;
    [apply terminals_notifyStateChange | apply active_notifyStateChange].
Qed.

Lemma reg_ok_set k v t a :
  truthy k = true -> id (state v) = k -> isActive (state v) = false ->
  reg_ok t a -> reg_ok (JsMap.set k v t) a.
Proof.
  intros T E M (ND & Hk & Ha). split; [|split].
  - now apply NoDup_keys_set.
  - intros j i I. apply In_set in I; [|assumption].
    destruct I as [[-> ->]|[_ I]]; [tauto|eauto].
  - intros j i I. apply In_set in I; [|assumption].
    destruct I as [[-> ->]|[_ I]]; [congruence|eauto].
Qed.

Lemma registry_ok_closeTerminal t m :
  registry_ok m -> registry_ok (closeTerminal t m).
Proof.
  intro OK. unfold closeTerminal.
  destruct (JsMap.get t (terminals m)); [|assumption].
  apply registry_ok_notify. cbn [send effect set_terminals terminals
    activeTerminalId set_activeTerminalId].
  destruct (active_is (activeTerminalId m) t) eqn:A.
  - destruct (activeTerminalId m) as [j|] eqn:Ej; [|discriminate].
    simpl in A. apply id_eqb_eq in A. subst j.
    assert (OK' : forall a,
      registry_ok
        (set_activeTerminalId a
           (send (TERMINAL_DESTROY t)
              (set_terminals (JsMap.delete t (terminals m))
                 (effect (ElementRemove t) (effect (Dispose t) m)))))).
    { intro a. unfold registry_ok. simpl. apply reg_ok_delete_active.
      unfold registry_ok in OK. now rewrite Ej in OK. }
    match goal with
    | |- registry_ok (match ?x with _ => _ end) => destruct x as [a|] eqn:L
    end.
    + destruct (truthy a).
      * apply registry_ok_setActiveTerminal.
        eapply registry_ok_same; [| |apply (OK' (Some a))]; reflexivity.
      * apply (OK' (Some a)).
    + apply (OK' None).
  - unfold registry_ok. simpl. now apply reg_ok_delete.
Qed.

Lemma registry_ok_initializeTerminal t o now m :
  truthy t = true ->
  registry_ok m -> registry_ok (_initializeTerminal t o now m).
Proof.
  intros T OK. unfold _initializeTerminal.
  destruct (truthy_str (opt_name o)); apply registry_ok_notify;
    match goal with
    | |- registry_ok (if ?c then _ else _) => destruct c
    end;
    try apply registry_ok_setActiveTerminal;
    unfold registry_ok; simpl; now apply reg_ok_set.
Qed.

Lemma fold_left_invariant {A B} (P : A -> Prop) (f : A -> B -> A) l :
  (forall a b, P a -> P (f a b)) -> forall a, P a -> P (fold_left f l a).
Proof. intro H. induction l; simpl; auto. Qed.

Lemma registry_ok_adjust_size f j m :
  (forall i, state (f i) = state i) ->
  registry_ok m ->
  registry_ok (set_terminals (JsMap.adjust f j (terminals m)) m).
Proof.
  intros Hf OK. unfold registry_ok. simpl. apply reg_ok_adjust; [|assumption].
  intro i. now rewrite Hf.
Qed.

Lemma registry_ok_sendResize t m :
  registry_ok m -> registry_ok (_sendResize t m).
Proof.
  unfold _sendResize. now destruct (JsMap.get t (terminals m)).
Qed.

Lemma registry_ok_fit p t m : registry_ok m -> registry_ok (fit p t m).
Proof. intro OK. unfold fit. now apply registry_ok_adjust_size. Qed.

Lemma registry_ok_exec m e :
  registry_ok m -> event_ok e -> registry_ok (exec m e).
Proof.
  intros OK EV. destruct e; simpl.
  - assumption.
  - unfold createTerminal.
    now destruct (maxTerminals m <=? JsMap.size (terminals m))%nat.
  - unfold onTerminalCreated. apply fold_left_invariant; [|assumption].
    intros a b Ha. unfold created_handler. destruct response; simpl in EV.
    + now apply registry_ok_initializeTerminal.
    + assumption.
  - unfold onTerminalDestroyed.
    destruct (JsMap.has terminalId (terminals m)); [|assumption].
    now apply registry_ok_closeTerminal.
  - unfold onTerminalOutput.
    now destruct (JsMap.get terminalId (terminals m)).
  - unfold mountTerminal.
    destruct (JsMap.get terminalId (terminals m)) as [i|]; [|assumption].
    destruct container; [|assumption].
    destruct (opened i); [assumption|].
    unfold registry_ok. simpl. now apply reg_ok_adjust.
  - unfold mountTimeout.
    match goal with
    | |- registry_ok (if ?c then _ else _) => destruct c
    end; [apply (registry_ok_same _ (effect _ _) eq_refl eq_refl)|];
      now apply registry_ok_sendResize, registry_ok_fit.
  - now apply registry_ok_setActiveTerminal.
  - unfold renameTerminal.
    destruct (JsMap.get terminalId (terminals m)); [|assumption].
    apply registry_ok_notify. unfold registry_ok. simpl.
    now apply reg_ok_adjust.
  - now apply registry_ok_closeTerminal.
  - now apply registry_ok_notify.
  - now apply registry_ok_notify.
  - unfold fitAll. apply fold_left_invariant; [|assumption].
    intros a b Ha. unfold fitAll_step. destruct (opened (snd b)); [|assumption].
    now apply registry_ok_sendResize, registry_ok_fit.
  - unfold fitTerminal.
    destruct (JsMap.get terminalId (terminals m)) as [i|]; [|assumption].
    destruct (opened i); [|assumption].
    now apply registry_ok_sendResize, registry_ok_fit.
  - unfold writeToActive.
    destruct (activeTerminalId m) as [a|]; [|assumption].
    destruct (truthy a); [|assumption].
    now destruct (JsMap.get a (terminals m)).
  - unfold sendCommand.
    destruct (activeTerminalId m) as [a|]; [|assumption].
    now destruct (truthy a).
  - unfold onData. now destruct (JsMap.get terminalId (terminals m)).
Qed.

Lemma registry_ok_init : registry_ok init.
Proof.
  split; [constructor|split]; intros k i [].
Qed.

Lemma reachable_registry_ok m : reachable m -> registry_ok m.
Proof.
  induction 1; [apply registry_ok_init | now apply registry_ok_exec].
Qed.

Lemma reachable_run events m :
  reachable m -> Forall event_ok events -> reachable (run events m).
Proof.
  intros R F. revert m R. induction F as [|e l Ok _ IH]; intros m R.
  - exact R.
  - simpl. apply IH. now constructor.
Qed.

(** At most one entry passes a test that only entries under one key pass. *)
Lemma filter_one_key {V} (p : TermId * V -> bool) (a : TermId)
    (l : JsMap.t V) :
  NoDup (JsMap.keys l) ->
  (forall e, In e l -> p e = true -> fst e = a) ->
  (List.length (filter p l) <= 1)%nat.
Proof.
  induction l as [|e l IH]; simpl; [lia|].
  intros ND H. inversion ND as [|? ? Hn Hd]; subst.
  destruct (p e) eqn:P.
  - assert (E : filter p l = []).
    { destruct (filter p l) as [|e' r] eqn:F; [reflexivity|].
      assert (I : In e' (filter p l)) by (rewrite F; now left).
      apply filter_In in I. destruct I as [I Pe'].
      exfalso. apply Hn.
      rewrite (H e (or_introl eq_refl) P), <- (H e' (or_intror I) Pe').
      now apply in_map. }
    rewrite E. simpl. lia.
  - apply IH; auto.
Qed.

Lemma registry_ok_count_active m :
  registry_ok m -> (count_active m <= 1)%nat.
Proof.
  intros (ND & Hk & Ha). unfold count_active.
  destruct (activeTerminalId m) as [a|] eqn:A.
  - apply (filter_one_key _ a); [assumption|].
    intros [k i] I M. specialize (Ha _ _ I M). simpl. congruence.
  - destruct (filter marked (terminals m)) as [|[k i] r] eqn:F; [simpl; lia|].
    assert (I : In (k, i) (filter marked (terminals m)))
      by (rewrite F; now left).
    apply filter_In in I. destruct I as [I M].
    specialize (Ha _ _ I M). discriminate.
Qed.

(** ** Activation *)

Lemma reachable_one_terminal : reachable one_terminal.
Proof.
  apply reachable_run; [apply reachable_init|]. repeat constructor.
Qed.

Lemma has_cleared t m :
  JsMap.has t (cleared m) = JsMap.has t (terminals m).
Proof.
  destruct (JsMap.has t (terminals m)) eqn:H.
  - apply has_true. rewrite keys_cleared. now apply has_true.
  - destruct (JsMap.has t (cleared m)) eqn:H'; [|reflexivity].
    apply has_true in H'. rewrite keys_cleared in H'.
    apply has_true in H'. congruence.
Qed.

Lemma count_active_positive m k i :
  In (k, i) (terminals m) -> isActive (state i) = true ->
  (1 <= count_active m)%nat.
Proof.
  intros I M. unfold count_active.
  assert (F : In (k, i) (filter marked (terminals m)))
    by (apply filter_In; split; assumption).
  destruct (filter marked (terminals m)); [destruct F|simpl; lia].
Qed.

(** C1, the claim as stated, fails: [setActiveTerminal] with an id that is
    not in the registry reports nothing, and leaves a registry that is not
    empty with no session marked active. *)
Lemma setActiveTerminal_unknown_id_counterexample :
  reachable one_terminal
  /\ JsMap.has (IdStr "Z") (terminals one_terminal) = false
  /\ count_active one_terminal = 1%nat
  /\ terminals (setActiveTerminal (IdStr "Z") one_terminal) <> []
  /\ count_active (setActiveTerminal (IdStr "Z") one_terminal) = 0%nat
  /\ activeTerminalId (setActiveTerminal (IdStr "Z") one_terminal)
     = Some (IdStr "Z")
  /\ ~ one_active_unless_empty (setActiveTerminal (IdStr "Z") one_terminal).
Proof.
  split; [apply reachable_one_terminal|].
  repeat split; try reflexivity; try discriminate.
  intros [E|E]; vm_compute in E; discriminate.
Qed.

(** C1 (amended): in every reachable state at most one session has
    [isActive = true]; and [setActiveTerminal] with an id that is in the
    registry unmarks the previous active session and marks the new one in
    the one call, so that afterwards exactly one session, that one, is
    marked and [activeTerminalId] names it. *)
Theorem setActiveTerminal_single_active :
  forall m, reachable m ->
    (count_active m <= 1)%nat
    /\ forall t, JsMap.has t (terminals m) = true ->
         count_active (setActiveTerminal t m) = 1%nat
         /\ activeTerminalId (setActiveTerminal t m) = Some t
         /\ exists i, JsMap.get t (terminals (setActiveTerminal t m)) = Some i
                      /\ isActive (state i) = true.
Proof.
  intros m R. pose proof (reachable_registry_ok _ R) as OK.
  split; [now apply registry_ok_count_active|].
  intros t H.
  assert (G : exists i, JsMap.get t (terminals (setActiveTerminal t m)) = Some i
                        /\ isActive (state i) = true).
  { rewrite terminals_setActiveTerminal, get_adjust, id_eqb_refl.
    rewrite <- has_cleared in H. unfold JsMap.has in H.
    destruct (JsMap.get t (cleared m)) as [i0|]; [|discriminate].
    simpl. eauto. }
  split; [|split; [apply active_setActiveTerminal|exact G]].
  destruct G as (i & G & M).
  pose proof (registry_ok_setActiveTerminal t _ OK) as OK'.
  pose proof (registry_ok_count_active _ OK').
  pose proof (count_active_positive _ _ _ (get_In _ _ _ G) M). lia.
Qed.

Lemma setActiveTerminal_single_active_witness :
  reachable one_terminal
  /\ JsMap.has (IdStr "A") (terminals one_terminal) = true
  /\ (count_active one_terminal <= 1)%nat
  /\ count_active (setActiveTerminal (IdStr "A") one_terminal) = 1%nat.
Proof.
  split; [apply reachable_one_terminal|]. split; [reflexivity|].
  destruct (setActiveTerminal_single_active one_terminal
              reachable_one_terminal) as [H1 H2].
  split; [exact H1|]. apply (H2 (IdStr "A")). reflexivity.
Defined.

(** ** Closing *)

Lemma last_key_app (l : list TermId) k : last_key (l ++ [k]) = Some k.
Proof.
  induction l as [|x l IH]; [reflexivity|].
  simpl. rewrite IH. now destruct (l ++ [k]) eqn:E; [destruct l|].
Qed.

Lemma adjust_last {V} (f : V -> V) k v (l : JsMap.t V) :
  ~ In k (JsMap.keys l) ->
  JsMap.adjust f k (l ++ [(k, v)]) = l ++ [(k, f v)].
Proof.
  induction l as [|[k' v'] l IH]; simpl; intro N.
  - now rewrite id_eqb_refl.
  - rewrite (proj2 (id_eqb_neq k' k)); [|tauto].
    rewrite IH; [reflexivity|tauto].
Qed.

Lemma NoDup_app_last {A} (l : list A) x : NoDup (l ++ [x]) -> ~ In x l.
Proof.
  intros ND I. apply NoDup_remove_2 in ND. apply ND.
  rewrite app_nil_r. exact I.
Qed.

Lemma StronglySorted_filter {A} (R : A -> A -> Prop) p l :
  StronglySorted R l -> StronglySorted R (filter p l).
Proof.
  induction 1 as [|x l S IH F]; simpl; [constructor|].
  destruct (p x); [|assumption]. constructor; [assumption|].
  rewrite Forall_forall in *. intros y I. apply filter_In in I. now apply F.
Qed.

Lemma StronglySorted_last {A} (R : A -> A -> Prop) l x :
  StronglySorted R (l ++ [x]) -> forall y, In y l -> R y x.
Proof.
  induction l as [|z l IH]; simpl; [tauto|].
  intros S y [->|I]; inversion S as [|? ? S' F]; subst.
  - rewrite Forall_forall in F. apply F, in_or_app. right. now left.
  - now apply IH.
Qed.

(** The registry [closeTerminal] leaves when it closes the active
    session [t]. *)
Lemma closeTerminal_active_terminals t m :
  registry_ok m -> activeTerminalId m = Some t ->
  JsMap.has t (terminals m) = true ->
  (forall rest k i, JsMap.delete t (terminals m) = rest ++ [(k, i)] ->
     terminals (closeTerminal t m) = rest ++ [(k, with_isActive true i)]
     /\ activeTerminalId (closeTerminal t m) = Some k)
  /\ (JsMap.delete t (terminals m) = [] ->
      terminals (closeTerminal t m) = []
      /\ activeTerminalId (closeTerminal t m) = None).
Proof.
  intros OK A H. unfold JsMap.has in H. unfold closeTerminal.
  destruct (JsMap.get t (terminals m)) as [inst|]; [clear H|discriminate].
  rewrite terminals_notifyStateChange, active_notifyStateChange.
  cbn [send effect set_terminals terminals activeTerminalId
       set_activeTerminalId].
  rewrite A. simpl active_is. rewrite id_eqb_refl.
  split.
  - intros rest k i E. rewrite E. unfold JsMap.keys.
    rewrite map_app. simpl map. rewrite last_key_app.
    pose proof (reg_ok_delete t _ _ OK) as (ND & Hk & _).
    rewrite E in ND, Hk.
    assert (T : truthy k = true).
    { apply (Hk k i), in_or_app. right. now left. }
    rewrite T, terminals_setActiveTerminal, active_setActiveTerminal.
    split; [|reflexivity].
    unfold cleared. simpl. rewrite T.
    assert (N : ~ In k (JsMap.keys rest)).
    { unfold JsMap.keys in ND. rewrite map_app in ND.
      now apply NoDup_app_last in ND. }
    now rewrite !adjust_last.
  - intros E. rewrite E. simpl. split; reflexivity.
Qed.

(** C2: closing the active session makes the last created of the
    remaining sessions active: the registry keeps the remaining sessions in
    the order they were created, the last of them is the one marked, and no
    remaining session has a later [createdAt]; closing the only session
    leaves no active session and an empty list. *)
Theorem closeTerminal_activates_latest :
  forall m t,
    registry_ok m -> chronological m ->
    activeTerminalId m = Some t -> JsMap.has t (terminals m) = true ->
    (forall rest k i, JsMap.delete t (terminals m) = rest ++ [(k, i)] ->
       terminals (closeTerminal t m) = rest ++ [(k, with_isActive true i)]
       /\ activeTerminalId (closeTerminal t m) = Some k
       /\ count_active (closeTerminal t m) = 1%nat
       /\ forall j w, In (j, w) (JsMap.delete t (terminals m)) ->
                      (createdAt (state w) <= createdAt (state i))%Z)
    /\ (JsMap.delete t (terminals m) = [] ->
        terminals (closeTerminal t m) = []
        /\ activeTerminalId (closeTerminal t m) = None
        /\ count_active (closeTerminal t m) = 0%nat
        /\ getTerminalStates (closeTerminal t m) = []).
Proof.
  intros m t OK C A H.
  destruct (closeTerminal_active_terminals t m OK A H) as [Some_left None_left].
  split.
  - intros rest k i E. destruct (Some_left rest k i E) as [Et Ea].
    split; [exact Et|]. split; [exact Ea|]. split.
    + pose proof (registry_ok_count_active _
                    (registry_ok_closeTerminal t _ OK)) as Le.
      assert (I : In (k, with_isActive true i) (terminals (closeTerminal t m))).
      { rewrite Et. apply in_or_app. right. now left. }
      pose proof (count_active_positive _ _ _ I eq_refl). lia.
    + intros j w I. rewrite E in I. apply in_app_or in I.
      destruct I as [I|[[= -> ->]|[]]]; [|lia].
      unfold chronological in C.
      apply (StronglySorted_filter _ (fun e => negb (id_eqb (fst e) t))) in C.
      rewrite <- delete_filter, E in C.
      apply (StronglySorted_last _ _ _ C _ I).
  - intros E. destruct (None_left E) as [Et Ea].
    unfold count_active, getTerminalStates. rewrite Et. repeat split; auto.
Qed.

(** [chronological] is kept by every event, a creation needing what
    [event_timely] asks for. *)
Lemma chronological_times m :
  chronological m <-> StronglySorted Z.le (times (terminals m)).
Proof.
  unfold chronological, times.
  induction (terminals m) as [|e l IH]; simpl.
  - split; constructor.
  - split; intro S; inversion S as [|? ? S' F]; subst; constructor;
      try (now apply IH); rewrite Forall_forall in *.
    + intros z Iz. apply in_map_iff in Iz. destruct Iz as (y & <- & Iy).
      now apply F.
    + intros y Iy. unfold older. apply F.
      apply (in_map (fun e => createdAt (state (snd e))) _ _ Iy).
Qed.

Lemma times_adjust f j l :
  (forall i, createdAt (state (f i)) = createdAt (state i)) ->
  times (JsMap.adjust f j l) = times l.
Proof.
  intro Hf. unfold times. induction l as [|[k v] l IH]; simpl; [reflexivity|].
  destruct (id_eqb k j); simpl; [now rewrite Hf|now rewrite IH].
Qed.

Lemma times_cleared m : times (cleared m) = times (terminals m).
Proof.
  unfold cleared. destruct (activeTerminalId m) as [a|]; [|reflexivity].
  destruct (truthy a); [now apply times_adjust|reflexivity].
Qed.

Lemma chronological_setActiveTerminal t m :
  chronological m -> chronological (setActiveTerminal t m).
Proof.
  rewrite !chronological_times, terminals_setActiveTerminal.
  rewrite times_adjust by reflexivity. now rewrite times_cleared.
Qed.

Lemma chronological_same m m' :
  terminals m' = terminals m -> chronological m -> chronological m'.
Proof. unfold chronological. now intros ->. Qed.

Lemma chronological_delete t m :
  chronological m ->
  chronological (set_terminals (JsMap.delete t (terminals m)) m).
Proof.
  unfold chronological. simpl. rewrite delete_filter.
  apply StronglySorted_filter.
Qed.

Lemma chronological_closeTerminal t m :
  chronological m -> chronological (closeTerminal t m).
Proof.
  intro C. unfold closeTerminal.
  destruct (JsMap.get t (terminals m)); [|assumption].
  apply (chronological_same _ _ (terminals_notifyStateChange _)).
  assert (D : forall a,
    chronological
      (set_activeTerminalId a
         (send (TERMINAL_DESTROY t)
            (set_terminals
               (JsMap.delete t
                  (terminals (effect (ElementRemove t) (effect (Dispose t) m))))
               (effect (ElementRemove t) (effect (Dispose t) m)))))).
  { intro a. apply (chronological_same _ _ eq_refl (chronological_delete t _ C)). }
  match goal with
  | |- chronological (if ?c then _ else _) => destruct c
  end; [|apply (D (activeTerminalId m))].
  match goal with
  | |- chronological (match ?x with _ => _ end) => destruct x as [a|] eqn:L
  end; [destruct (truthy a)|].
  - apply chronological_setActiveTerminal, D.
  - apply D.
  - apply D.
Qed.

Lemma StronglySorted_snoc (l : list Z) (x : Z) :
  StronglySorted Z.le l -> (forall y, In y l -> (y <= x)%Z) ->
  StronglySorted Z.le (l ++ [x]).
Proof.
  induction 1 as [|z l S IH F]; simpl; intro B.
  - repeat constructor.
  - constructor; [apply IH; auto|].
    rewrite Forall_forall in *. intros y I. apply in_app_or in I.
    destruct I as [I|[<-|[]]]; auto.
Qed.

Lemma chronological_initializeTerminal t o now m :
  JsMap.get t (terminals m) = None ->
  (forall k i, In (k, i) (terminals m) -> (createdAt (state i) <= now)%Z) ->
  chronological m -> chronological (_initializeTerminal t o now m).
Proof.
  intros G B C. unfold _initializeTerminal.
  assert (Base : forall nm c,
    chronological
      (set_terminals
         (JsMap.set t (new_instance (mkState t nm None false now))
            (terminals m)) (set_terminalCounter c m))).
  { intros nm c. apply chronological_times. simpl.
    rewrite (set_fresh _ _ _ G). unfold times. rewrite map_app. simpl.
    apply StronglySorted_snoc; [now apply chronological_times|].
    intros y I. apply in_map_iff in I. destruct I as ([k i] & <- & I).
    simpl. eauto. }
  destruct (truthy_str (opt_name o));
    apply (chronological_same _ _ (terminals_notifyStateChange _));
    match goal with
    | |- chronological (if ?c then _ else _) => destruct c
    end; try apply chronological_setActiveTerminal;
    first [ apply (Base _ (S (terminalCounter m)))
          | apply (chronological_same _ _ eq_refl
                     (Base _ (terminalCounter m))) ].
Qed.

Lemma chronological_adjust f j m :
  (forall i, createdAt (state (f i)) = createdAt (state i)) ->
  chronological m ->
  chronological (set_terminals (JsMap.adjust f j (terminals m)) m).
Proof.
  intros Hf. rewrite !chronological_times. simpl. now rewrite times_adjust.
Qed.

Lemma chronological_resized p t m :
  chronological m -> chronological (_sendResize t (fit p t m)).
Proof.
  intro C. unfold _sendResize.
  destruct (JsMap.get t (terminals (fit p t m)));
    [apply (chronological_same _ (send _ _) eq_refl)|];
    now apply chronological_adjust.
Qed.

Lemma chronological_exec m e :
  chronological m -> event_timely m e -> chronological (exec m e).
Proof.
  intros C EV. destruct e; simpl.
  - assumption.
  - unfold createTerminal.
    now destruct (maxTerminals m <=? JsMap.size (terminals m))%nat.
  - unfold onTerminalCreated.
    destruct (listeners m) as [|o [|o' l]] eqn:L; simpl; [assumption| |].
    + unfold created_handler. destruct response; [|assumption].
      simpl in EV. destruct EV as (G & B & _).
      now apply chronological_initializeTerminal.
    + destruct response; simpl in EV; [rewrite L in EV; simpl in EV; lia|].
      apply fold_left_invariant; [intros a b Ha; exact Ha|exact C].
  - unfold onTerminalDestroyed.
    destruct (JsMap.has terminalId (terminals m)); [|assumption].
    now apply chronological_closeTerminal.
  - unfold onTerminalOutput.
    now destruct (JsMap.get terminalId (terminals m)).
  - unfold mountTerminal.
    destruct (JsMap.get terminalId (terminals m)) as [i|]; [|assumption].
    destruct container; [|assumption].
    destruct (opened i); [assumption|].
    apply (chronological_same _ _ eq_refl
             (chronological_adjust with_opened terminalId m
                (fun _ => eq_refl) C)).
  - unfold mountTimeout.
    match goal with
    | |- chronological (if ?c then _ else _) => destruct c
    end; [apply (chronological_same _ (effect _ _) eq_refl)|];
      now apply chronological_resized.
  - now apply chronological_setActiveTerminal.
  - unfold renameTerminal.
    destruct (JsMap.get terminalId (terminals m)); [|assumption].
    apply (chronological_same _ _ (terminals_notifyStateChange _)).
    now apply chronological_adjust.
  - now apply chronological_closeTerminal.
  - now apply (chronological_same _ _ (terminals_notifyStateChange _)).
  - now apply (chronological_same _ _ (terminals_notifyStateChange _)).
  - unfold fitAll. apply fold_left_invariant; [|assumption].
    intros a b Ha. unfold fitAll_step. destruct (opened (snd b)); [|assumption].
    now apply chronological_resized.
  - unfold fitTerminal.
    destruct (JsMap.get terminalId (terminals m)) as [i|]; [|assumption].
    destruct (opened i); [|assumption]. now apply chronological_resized.
  - unfold writeToActive.
    destruct (activeTerminalId m) as [a|]; [|assumption].
    destruct (truthy a); [|assumption].
    now destruct (JsMap.get a (terminals m)).
  - unfold sendCommand.
    destruct (activeTerminalId m) as [a|]; [|assumption].
    now destruct (truthy a).
  - unfold onData. now destruct (JsMap.get terminalId (terminals m)).
Qed.

Lemma reachable_scenario_ABC : reachable scenario_ABC.
Proof.
  apply reachable_run; [apply reachable_init|]. repeat constructor.
Qed.

Lemma chronological_scenario_ABC : chronological scenario_ABC.
Proof.
  unfold chronological. vm_compute. repeat constructor; discriminate.
Qed.

Lemma chronological_one_terminal : chronological one_terminal.
Proof. unfold chronological. vm_compute. repeat constructor. Qed.

Lemma closeTerminal_activates_latest_witness :
  (registry_ok scenario_ABC /\ chronological scenario_ABC
   /\ activeTerminalId scenario_ABC = Some (IdStr "B")
   /\ JsMap.has (IdStr "B") (terminals scenario_ABC) = true
   /\ activeTerminalId (closeTerminal (IdStr "B") scenario_ABC)
      = Some (IdStr "C"))
  /\ (registry_ok one_terminal /\ chronological one_terminal
      /\ activeTerminalId one_terminal = Some (IdStr "A")
      /\ JsMap.has (IdStr "A") (terminals one_terminal) = true
      /\ activeTerminalId (closeTerminal (IdStr "A") one_terminal) = None
      /\ getTerminalStates (closeTerminal (IdStr "A") one_terminal) = []).
Proof.
  pose proof (reachable_registry_ok _ reachable_scenario_ABC) as OK.
  pose proof (reachable_registry_ok _ reachable_one_terminal) as OK1.
  pose proof chronological_scenario_ABC as C.
  pose proof chronological_one_terminal as C1.
  assert (A : activeTerminalId scenario_ABC = Some (IdStr "B"))
    by (vm_compute; reflexivity).
  assert (H : JsMap.has (IdStr "B") (terminals scenario_ABC) = true)
    by (vm_compute; reflexivity).
  assert (A1 : activeTerminalId one_terminal = Some (IdStr "A"))
    by (vm_compute; reflexivity).
  assert (H1 : JsMap.has (IdStr "A") (terminals one_terminal) = true)
    by (vm_compute; reflexivity).
  split.
  - do 4 (split; [assumption|]).
    destruct (closeTerminal_activates_latest scenario_ABC (IdStr "B")
                OK C A H) as [L _].
    assert (E : JsMap.delete (IdStr "B") (terminals scenario_ABC)
                = [(IdStr "A",
                    new_instance
                      (mkState (IdStr "A") "Terminal 1" None false 1000))]
                  ++ [(IdStr "C",
                       new_instance
                         (mkState (IdStr "C") "Terminal 3" None false 3000))])
      by (vm_compute; reflexivity).
    apply (L _ _ _ E).
  - do 4 (split; [assumption|]).
    destruct (closeTerminal_activates_latest one_terminal (IdStr "A")
                OK1 C1 A1 H1) as [_ L].
    assert (E : JsMap.delete (IdStr "A") (terminals one_terminal) = [])
      by (vm_compute; reflexivity).
    destruct (L E) as (_ & Ha & _ & Hg). split; assumption.
Defined.

(** ** The bound and the name counter *)

Ltac split_matches :=
  repeat match goal with
         | |- context [match ?x with _ => _ end] => destruct x
         end.

Lemma steady_refl m : steady m m.
Proof. split; [reflexivity|lia]. Qed.

Lemma steady_trans m1 m2 m3 : steady m1 m2 -> steady m2 m3 -> steady m1 m3.
Proof. intros [A B] [C D]. split; [congruence|lia]. Qed.

Ltac steady_now := split; simpl; [reflexivity | lia].

Lemma steady_notifyStateChange m : steady m (_notifyStateChange m).
Proof. unfold _notifyStateChange. split_matches; steady_now. Qed.

Lemma steady_setActiveTerminal t m : steady m (setActiveTerminal t m).
Proof.
  unfold setActiveTerminal.
  eapply steady_trans; [|apply steady_notifyStateChange].
  split_matches; steady_now.
Qed.

Lemma steady_closeTerminal t m : steady m (closeTerminal t m).
Proof.
  unfold closeTerminal.
  destruct (JsMap.get t (terminals m)); [|steady_now].
  eapply steady_trans; [|apply steady_notifyStateChange].
  match goal with
  | |- steady _ (if ?c then _ else _) => destruct c
  end; [|steady_now].
  match goal with
  | |- steady _ (match ?x with _ => _ end) => destruct x as [a|]
  end; [destruct (truthy a)|]; try steady_now.
  eapply steady_trans; [|apply steady_setActiveTerminal]. steady_now.
Qed.

Lemma steady_initializeTerminal t o now m :
  steady m (_initializeTerminal t o now m).
Proof.
  unfold _initializeTerminal.
  destruct (truthy_str (opt_name o));
    (eapply steady_trans; [|apply steady_notifyStateChange]);
    match goal with
    | |- steady _ (if ?c then _ else _) => destruct c
    end;
    try (eapply steady_trans; [|apply steady_setActiveTerminal]);
    split; simpl; lia.
Qed.

Lemma steady_resized p t m : steady m (_sendResize t (fit p t m)).
Proof. unfold _sendResize. split_matches; steady_now. Qed.

Lemma steady_fold {B} (f : Manager -> B -> Manager) l :
  (forall a b, steady a (f a b)) -> forall m, steady m (fold_left f l m).
Proof.
  intro H. induction l as [|b l IH]; simpl; intro m; [steady_now|].
  eapply steady_trans; [apply H|apply IH].
Qed.

Lemma steady_exec m e : steady m (exec m e).
Proof.
  destruct e; simpl.
  - steady_now.
  - unfold createTerminal. split_matches; steady_now.
  - unfold onTerminalCreated. apply steady_fold. intros a b.
    unfold created_handler. destruct response; [|steady_now].
    eapply steady_trans; [|apply steady_initializeTerminal]. steady_now.
  - unfold onTerminalDestroyed.
    destruct (JsMap.has terminalId (terminals m));
      [apply steady_closeTerminal|steady_now].
  - unfold onTerminalOutput. split_matches; steady_now.
  - unfold mountTerminal. split_matches; steady_now.
  - unfold mountTimeout.
    match goal with
    | |- steady _ (if ?c then _ else _) => destruct c
    end; [eapply steady_trans; [apply steady_resized|steady_now]
         |apply steady_resized].
  - apply steady_setActiveTerminal.
  - unfold renameTerminal.
    destruct (JsMap.get terminalId (terminals m)); [|steady_now].
    eapply steady_trans; [|apply steady_notifyStateChange]. steady_now.
  - apply steady_closeTerminal.
  - unfold setViewMode.
    eapply steady_trans; [|apply steady_notifyStateChange]. steady_now.
  - unfold setGridLayout.
    eapply steady_trans; [|apply steady_notifyStateChange]. steady_now.
  - unfold fitAll. apply steady_fold. intros a b. unfold fitAll_step.
    destruct (opened (snd b)); [apply steady_resized|steady_now].
  - unfold fitTerminal.
    destruct (JsMap.get terminalId (terminals m)) as [i|]; [|steady_now].
    destruct (opened i); [apply steady_resized|steady_now].
  - unfold writeToActive. split_matches; steady_now.
  - unfold sendCommand. split_matches; steady_now.
  - unfold onData. split_matches; steady_now.
Qed.

Lemma steady_run events m : steady m (run events m).
Proof. unfold run. apply steady_fold. apply steady_exec. Qed.

Lemma reachable_maxTerminals m : reachable m -> maxTerminals m = 9%nat.
Proof.
  induction 1 as [|m e R IH Ok]; [reflexivity|].
  now rewrite (proj1 (steady_exec m e)).
Qed.

(** ** Capacity *)

Lemma reachable_nine_terminals : reachable nine_terminals.
Proof.
  apply reachable_run; [apply reachable_init|]. simpl. repeat constructor.
Qed.

(** C3: with nine sessions in the registry a further [createTerminal] is
    turned down and changes nothing: the manager it leaves is the one it
    found, so the registry holds the same nine sessions, the active id is
    the same, no handler is registered and nothing is sent to the main
    process. *)
Theorem createTerminal_at_capacity :
  forall m options,
    reachable m -> JsMap.size (terminals m) = 9%nat ->
    createTerminal options m = (LimitReached, m)
    /\ terminals (snd (createTerminal options m)) = terminals m
    /\ activeTerminalId (snd (createTerminal options m)) = activeTerminalId m
    /\ sent (snd (createTerminal options m)) = sent m.
Proof.
  intros m options R Full.
  assert (E : createTerminal options m = (LimitReached, m)).
  { unfold createTerminal. rewrite (reachable_maxTerminals _ R), Full.
    reflexivity. }
  rewrite E. repeat split.
Qed.

Lemma createTerminal_at_capacity_witness :
  reachable nine_terminals
  /\ JsMap.size (terminals nine_terminals) = 9%nat
  /\ createTerminal no_options nine_terminals = (LimitReached, nine_terminals).
Proof.
  assert (S : JsMap.size (terminals nine_terminals) = 9%nat)
    by (vm_compute; reflexivity).
  split; [apply reachable_nine_terminals|]. split; [exact S|].
  apply (createTerminal_at_capacity nine_terminals no_options
           reachable_nine_terminals S).
Defined.

(** ** Messages and emulator calls of the activation and closing paths *)

Lemma sent_notifyStateChange m : sent (_notifyStateChange m) = sent m.
Proof. unfold _notifyStateChange. now destruct (onStateChange m). Qed.

Lemma effects_notifyStateChange m :
  effects (_notifyStateChange m) = effects m.
Proof. unfold _notifyStateChange. now destruct (onStateChange m). Qed.

Lemma sent_setActiveTerminal t m : sent (setActiveTerminal t m) = sent m.
Proof.
  unfold setActiveTerminal. rewrite sent_notifyStateChange.
  split_matches; reflexivity.
Qed.

Lemma effects_setActiveTerminal t m :
  effects (setActiveTerminal t m) = effects m
  \/ effects (setActiveTerminal t m) = effects m ++ [Focus t].
Proof.
  unfold setActiveTerminal. rewrite effects_notifyStateChange.
  split_matches; simpl; auto.
Qed.

Lemma get_cleared_None k m :
  JsMap.get k (terminals m) = None -> JsMap.get k (cleared m) = None.
Proof.
  intro G. pose proof (has_cleared k m) as H. unfold JsMap.has in H.
  rewrite G in H. now destruct (JsMap.get k (cleared m)).
Qed.

Lemma get_setActiveTerminal_None k t m :
  JsMap.get k (terminals m) = None ->
  JsMap.get k (terminals (setActiveTerminal t m)) = None.
Proof.
  intro G. rewrite terminals_setActiveTerminal, get_adjust.
  rewrite (get_cleared_None _ _ G). now destruct (id_eqb t k).
Qed.

Lemma keys_setActiveTerminal t m :
  JsMap.keys (terminals (setActiveTerminal t m)) = JsMap.keys (terminals m).
Proof.
  now rewrite terminals_setActiveTerminal, keys_adjust, keys_cleared.
Qed.

(** The state [closeTerminal] has built when it reaches its last line. *)
Lemma closeTerminal_present x m :
  JsMap.has x (terminals m) = true ->
  exists m5,
    closeTerminal x m = _notifyStateChange m5
    /\ sent m5 = sent m ++ [TERMINAL_DESTROY x]
    /\ JsMap.keys (terminals m5) = JsMap.keys (JsMap.delete x (terminals m))
    /\ JsMap.get x (terminals m5) = None
    /\ (exists rest,
          effects m5 = effects m ++ Dispose x :: ElementRemove x :: rest).
Proof.
  unfold JsMap.has, closeTerminal.
  destruct (JsMap.get x (terminals m)); [intros _|discriminate].
  eexists. split; [reflexivity|].
  cbn [send effect set_terminals terminals activeTerminalId
       set_activeTerminalId].
  assert (D : JsMap.get x (JsMap.delete x (terminals m)) = None)
    by now rewrite get_delete, id_eqb_refl.
  assert (F : forall l : list UiEffect,
             (l ++ [Dispose x]) ++ [ElementRemove x]
             = l ++ Dispose x :: ElementRemove x :: [])
    by (intro l; now rewrite <- app_assoc).
  destruct (active_is (activeTerminalId m) x).
  - match goal with
    | |- context [match ?v with Some _ => _ | None => _ end] =>
        destruct v as [a|]
    end; [destruct (truthy a)|].
    + rewrite sent_setActiveTerminal, keys_setActiveTerminal.
      repeat split; [now apply get_setActiveTerminal_None|].
      match goal with
      | |- context [effects (setActiveTerminal a ?s)] =>
          destruct (effects_setActiveTerminal a s) as [E|E]; rewrite E
      end; simpl; rewrite F; [now eexists|].
      rewrite <- app_assoc. simpl. now eexists.
    + simpl. repeat split; [exact D|]. rewrite F. now eexists.
    + simpl. repeat split; [exact D|]. rewrite F. now eexists.
  - simpl. repeat split; [exact D|]. rewrite F. now eexists.
Qed.

Lemma closeTerminal_absent x m :
  JsMap.get x (terminals m) = None -> closeTerminal x m = m.
Proof. unfold closeTerminal. now intros ->. Qed.

Lemma closeTerminal_removes x m :
  JsMap.get x (terminals (closeTerminal x m)) = None.
Proof.
  destruct (JsMap.has x (terminals m)) eqn:H.
  - destruct (closeTerminal_present x m H) as (m5 & -> & _ & _ & G & _).
    now rewrite terminals_notifyStateChange.
  - unfold JsMap.has in H.
    destruct (JsMap.get x (terminals m)) eqn:G; [discriminate|].
    now rewrite closeTerminal_absent.
Qed.

Lemma onTerminalDestroyed_closeTerminal x m :
  onTerminalDestroyed x m = closeTerminal x m.
Proof.
  unfold onTerminalDestroyed, JsMap.has.
  destruct (JsMap.get x (terminals m)) eqn:G; [reflexivity|].
  now rewrite closeTerminal_absent.
Qed.

(** ** Exit reported by the main process *)

(** C4, the claim as stated, fails: the exit notice for ["A"] makes the
    manager send a destroy request for ["A"] to the main process. *)
Lemma host_exit_destroy_counterexample :
  reachable one_terminal
  /\ sent one_terminal = [TERMINAL_CREATE None]
  /\ sent (onTerminalDestroyed (IdStr "A") one_terminal)
     = [TERMINAL_CREATE None; TERMINAL_DESTROY (IdStr "A")]
  /\ In (TERMINAL_DESTROY (IdStr "A"))
        (sent (onTerminalDestroyed (IdStr "A") one_terminal)).
Proof.
  split; [apply reachable_one_terminal|].
  split; [reflexivity|]. split; [reflexivity|].
  vm_compute. right. now left.
Qed.

(** C4 (amended): an exit notice for id X is handled by [closeTerminal]
    itself, so the teardown is the one of a close by the user in every
    respect; for X in the registry the emulator is disposed and its
    element removed, X leaves the registry, and one destroy request for X
    is sent to the main process. *)
Theorem host_exit_same_as_close :
  forall m x,
    onTerminalDestroyed x m = closeTerminal x m
    /\ (JsMap.has x (terminals m) = true ->
        sent (onTerminalDestroyed x m) = sent m ++ [TERMINAL_DESTROY x]
        /\ JsMap.get x (terminals (onTerminalDestroyed x m)) = None
        /\ JsMap.keys (terminals (onTerminalDestroyed x m))
           = JsMap.keys (JsMap.delete x (terminals m))
        /\ exists rest,
             effects (onTerminalDestroyed x m)
             = effects m ++ Dispose x :: ElementRemove x :: rest).
Proof.
  intros m x. split; [apply onTerminalDestroyed_closeTerminal|].
  intro H. rewrite onTerminalDestroyed_closeTerminal.
  destruct (closeTerminal_present x m H) as (m5 & -> & S & K & G & E).
  now rewrite sent_notifyStateChange, terminals_notifyStateChange,
    effects_notifyStateChange.
Qed.

Lemma host_exit_same_as_close_witness :
  JsMap.has (IdStr "A") (terminals one_terminal) = true
  /\ onTerminalDestroyed (IdStr "A") one_terminal
     = closeTerminal (IdStr "A") one_terminal
  /\ sent (onTerminalDestroyed (IdStr "A") one_terminal)
     = sent one_terminal ++ [TERMINAL_DESTROY (IdStr "A")].
Proof.
  assert (H : JsMap.has (IdStr "A") (terminals one_terminal) = true)
    by (vm_compute; reflexivity).
  split; [exact H|].
  destruct (host_exit_same_as_close one_terminal (IdStr "A")) as [E P].
  split; [exact E|]. apply (P H).
Defined.

(** ** Closing twice *)

(** C5: [closeTerminal] on an id that is not in the registry, an id
    already closed included, returns the manager as it found it (same
    registry, active id, view mode, grid layout; nothing sent, nobody
    notified); so after a close of X by the user a late exit notice for X
    changes nothing: X was removed once. *)
Theorem closeTerminal_idempotent :
  forall m x,
    (JsMap.get x (terminals m) = None -> closeTerminal x m = m)
    /\ JsMap.get x (terminals (closeTerminal x m)) = None
    /\ closeTerminal x (closeTerminal x m) = closeTerminal x m
    /\ onTerminalDestroyed x (closeTerminal x m) = closeTerminal x m.
Proof.
  intros m x. split; [apply closeTerminal_absent|].
  split; [apply closeTerminal_removes|].
  rewrite onTerminalDestroyed_closeTerminal.
  split; apply closeTerminal_absent, closeTerminal_removes.
Qed.

Lemma closeTerminal_idempotent_witness :
  JsMap.get (IdStr "Z") (terminals one_terminal) = None
  /\ closeTerminal (IdStr "Z") one_terminal = one_terminal
  /\ onTerminalDestroyed (IdStr "A") (closeTerminal (IdStr "A") one_terminal)
     = closeTerminal (IdStr "A") one_terminal.
Proof.
  assert (G : JsMap.get (IdStr "Z") (terminals one_terminal) = None)
    by (vm_compute; reflexivity).
  split; [exact G|]. split.
  - apply (proj1 (closeTerminal_idempotent one_terminal (IdStr "Z")) G).
  - apply (closeTerminal_idempotent one_terminal (IdStr "A")).
Defined.

(** ** Notifications *)

Lemma snapshot_same m m' :
  terminals m' = terminals m -> activeTerminalId m' = activeTerminalId m ->
  viewMode m' = viewMode m -> gridLayout m' = gridLayout m ->
  snapshot m' = snapshot m.
Proof.
  unfold snapshot, getTerminalStates. now intros -> -> -> ->.
Qed.

Lemma snapshot_notifyStateChange m : snapshot (_notifyStateChange m) = snapshot m.
Proof. unfold _notifyStateChange. now destruct (onStateChange m). Qed.

Lemma onStateChange_notifyStateChange m :
  onStateChange (_notifyStateChange m) = onStateChange m.
Proof. unfold _notifyStateChange. now destruct (onStateChange m) eqn:E. Qed.

Lemma notified_notifyStateChange m :
  onStateChange m = true ->
  notified (_notifyStateChange m)
  = notified m ++ [snapshot (_notifyStateChange m)].
Proof. unfold _notifyStateChange. now intros ->. Qed.

Lemma setActiveTerminal_notifies t m :
  onStateChange m = true ->
  onStateChange (setActiveTerminal t m) = true
  /\ notified (setActiveTerminal t m)
     = notified m ++ [snapshot (setActiveTerminal t m)].
Proof.
  intro On. unfold setActiveTerminal.
  match goal with
  | |- context [_notifyStateChange ?s] => set (m3 := s)
  end.
  assert (H : onStateChange m3 = true /\ notified m3 = notified m).
  { subst m3. split_matches; simpl; auto. }
  destruct H as [On3 N3].
  rewrite onStateChange_notifyStateChange, notified_notifyStateChange, N3;
    auto.
Qed.

Lemma size_set {V} t (v : V) l :
  JsMap.size (JsMap.set t v l)
  = if JsMap.has t l then JsMap.size l else S (JsMap.size l).
Proof.
  unfold JsMap.size.
  rewrite <- (length_map fst (JsMap.set t v l)), <- (length_map fst l).
  fold (JsMap.keys (JsMap.set t v l)). fold (JsMap.keys l).
  rewrite keys_set. destruct (JsMap.has t l); [reflexivity|].
  rewrite length_app. simpl. lia.
Qed.

Lemma initializeTerminal_notifies t o now m :
  onStateChange m = true ->
  notified (_initializeTerminal t o now m)
  = notified m
    ++ repeat (snapshot (_initializeTerminal t o now m))
         (if activates_on_create t m then 2 else 1).
Proof.
  intro On. unfold _initializeTerminal, activates_on_create.
  destruct (truthy_str (opt_name o));
    cbn [terminals activeTerminalId set_terminals set_terminalCounter];
    rewrite size_set;
    match goal with
    | |- context [if ?c then setActiveTerminal _ _ else _] => destruct c
    end;
    rewrite snapshot_notifyStateChange;
    try (match goal with
         | |- context [setActiveTerminal t ?s] =>
             destruct (setActiveTerminal_notifies t s On) as [On' N']
         end;
         rewrite (notified_notifyStateChange _ On'), N',
           snapshot_notifyStateChange, <- app_assoc; reflexivity);
    rewrite notified_notifyStateChange, snapshot_notifyStateChange by exact On;
    reflexivity.
Qed.

Lemma closeTerminal_notifies x m :
  onStateChange m = true -> JsMap.has x (terminals m) = true ->
  notified (closeTerminal x m)
  = notified m
    ++ repeat (snapshot (closeTerminal x m))
         (if hands_over x m then 2 else 1).
Proof.
  intros On H. unfold JsMap.has in H. unfold closeTerminal, hands_over.
  destruct (JsMap.get x (terminals m)); [clear H|discriminate].
  cbn [send effect set_terminals terminals activeTerminalId
       set_activeTerminalId].
  rewrite snapshot_notifyStateChange.
  destruct (active_is (activeTerminalId m) x); simpl andb.
  - destruct (last_key (JsMap.keys (JsMap.delete x (terminals m))))
      as [a|]; simpl truthy_active; [destruct (truthy a)|].
    + match goal with
      | |- context [setActiveTerminal a ?s] =>
          destruct (setActiveTerminal_notifies a s On) as [On' N']
      end.
      rewrite (notified_notifyStateChange _ On'), N',
        snapshot_notifyStateChange, <- app_assoc. reflexivity.
    + rewrite notified_notifyStateChange, snapshot_notifyStateChange
        by exact On. reflexivity.
    + rewrite notified_notifyStateChange, snapshot_notifyStateChange
        by exact On. reflexivity.
  - rewrite notified_notifyStateChange, snapshot_notifyStateChange
      by exact On. reflexivity.
Qed.

(** C6, the claim as stated, fails: the completion of the first creation
    calls the subscriber twice, and so does closing the active session B of
    three. *)
Lemma notification_count_counterexample :
  onStateChange awaiting_first = true
  /\ notified awaiting_first = []
  /\ List.length
       (notified (onTerminalCreated (Created (IdStr "A")) 1000 awaiting_first))
     = 2%nat
  /\ ~ notifies_once awaiting_first
         (onTerminalCreated (Created (IdStr "A")) 1000 awaiting_first)
  /\ ~ notifies_once (set_onStateChange true scenario_ABC)
         (closeTerminal (IdStr "B") (set_onStateChange true scenario_ABC)).
Proof.
  split; [reflexivity|]. split; [reflexivity|]. split; [reflexivity|].
  split; intro E; vm_compute in E; discriminate.
Qed.

(** C6 (amended): with a subscriber registered, every mutating operation
    calls it synchronously, each call carrying the snapshot (ordered
    session list, active id, view mode, grid layout) of the state the
    operation leaves: once for set-active, rename of a session in the
    registry, set view mode and set grid layout; once for the close of a
    session in the registry and for the completion of a creation, and
    twice when the close hands the activation on to a remaining session or
    the creation activates the new session. *)
Theorem notifications_per_operation :
  forall m, onStateChange m = true ->
    (forall t, notifies_once m (setActiveTerminal t m))
    /\ (forall mode, notifies_once m (setViewMode mode m))
    /\ (forall layout, notifies_once m (setGridLayout layout m))
    /\ (forall x n, JsMap.has x (terminals m) = true ->
          notifies_once m (renameTerminal x n m))
    /\ (forall x, JsMap.has x (terminals m) = true ->
          notified (closeTerminal x m)
          = notified m
            ++ repeat (snapshot (closeTerminal x m))
                 (if hands_over x m then 2 else 1))
    /\ (forall t o now,
          notified (_initializeTerminal t o now m)
          = notified m
            ++ repeat (snapshot (_initializeTerminal t o now m))
                 (if activates_on_create t m then 2 else 1)).
Proof.
  intros m On. unfold notifies_once.
  split; [intro t; apply (setActiveTerminal_notifies t m On)|].
  split; [intro mode; unfold setViewMode;
          now rewrite notified_notifyStateChange|].
  split; [intro layout; unfold setGridLayout;
          now rewrite notified_notifyStateChange|].
  split.
  { intros x n H. unfold JsMap.has in H. unfold renameTerminal.
    destruct (JsMap.get x (terminals m)); [|discriminate].
    now rewrite notified_notifyStateChange. }
  split; [intros x H; now apply closeTerminal_notifies|].
  intros t o now. now apply initializeTerminal_notifies.
Qed.

Lemma notifications_per_operation_witness :
  onStateChange (set_onStateChange true scenario_ABC) = true
  /\ notifies_once (set_onStateChange true scenario_ABC)
       (setViewMode "grid" (set_onStateChange true scenario_ABC))
  /\ List.length
       (notified (closeTerminal (IdStr "B")
                    (set_onStateChange true scenario_ABC)))
     = 2%nat.
Proof.
  assert (On : onStateChange (set_onStateChange true scenario_ABC) = true)
    by reflexivity.
  destruct (notifications_per_operation _ On) as (_ & V & _ & _ & C & _).
  split; [exact On|]. split; [apply V|].
  assert (H : JsMap.has (IdStr "B")
                (terminals (set_onStateChange true scenario_ABC)) = true)
    by (vm_compute; reflexivity).
  rewrite (C (IdStr "B") H). vm_compute. reflexivity.
Defined.

(** ** Listing *)

Section SortFacts.
Context {A : Type} (key : A -> Z).

Let cmp (a b : A) : Z := (key a - key b)%Z.
Let le_key (a b : A) : Prop := (key a <= key b)%Z.

Lemma sort_insert_perm x l : Permutation (sort_insert cmp x l) (x :: l).
Proof.
  induction l as [|y l IH]; simpl; [reflexivity|].
  destruct (cmp x y <=? 0)%Z; [reflexivity|].
  rewrite IH. apply perm_swap.
Qed.

Lemma js_sort_perm l : Permutation (js_sort cmp l) l.
Proof.
  induction l as [|x l IH]; simpl; [reflexivity|].
  rewrite sort_insert_perm. now constructor.
Qed.

Lemma sort_insert_sorted x l :
  StronglySorted le_key l -> StronglySorted le_key (sort_insert cmp x l).
Proof.
  induction 1 as [|y l S IH F]; simpl.
  - repeat constructor.
  - destruct (cmp x y <=? 0)%Z eqn:C.
    + apply Z.leb_le in C. unfold cmp in C.
      constructor; [now constructor|].
      constructor; [unfold le_key; lia|].
      rewrite Forall_forall in *. intros z I. specialize (F z I).
      unfold le_key in *. lia.
    + apply Z.leb_gt in C. unfold cmp in C.
      constructor; [exact IH|].
      rewrite Forall_forall in *. intros z I.
      apply (Permutation_in _ (sort_insert_perm x l)) in I.
      destruct I as [<-|I]; [unfold le_key; lia|now apply F].
Qed.

Lemma js_sort_sorted l : StronglySorted le_key (js_sort cmp l).
Proof.
  induction l as [|x l IH]; simpl; [constructor|].
  now apply sort_insert_sorted.
Qed.

(** Elements with one and the same key keep their order. *)
Lemma sort_insert_stable ts x l :
  filter (fun a => (key a =? ts)%Z) (sort_insert cmp x l)
  = filter (fun a => (key a =? ts)%Z) (x :: l).
Proof.
  induction l as [|y l IH]; simpl; [reflexivity|].
  destruct (cmp x y <=? 0)%Z eqn:C; [reflexivity|].
  apply Z.leb_gt in C. unfold cmp in C. simpl. rewrite IH. simpl.
  destruct (key x =? ts)%Z eqn:Ex; [|reflexivity].
  apply Z.eqb_eq in Ex.
  destruct (key y =? ts)%Z eqn:Ey; [|reflexivity].
  apply Z.eqb_eq in Ey. lia.
Qed.

Lemma js_sort_stable ts l :
  filter (fun a => (key a =? ts)%Z) (js_sort cmp l)
  = filter (fun a => (key a =? ts)%Z) l.
Proof.
  induction l as [|x l IH]; simpl; [reflexivity|].
  rewrite sort_insert_stable. simpl. now rewrite IH.
Qed.
End SortFacts.

(** C7: [getTerminalStates] lists the states of exactly the sessions of
    the registry, by [createdAt] ascending, and sessions with the same
    [createdAt] come in the order they were inserted. *)
Theorem getTerminalStates_sorted_stable :
  forall m,
    StronglySorted (fun a b => (createdAt a <= createdAt b)%Z)
                   (getTerminalStates m)
    /\ Permutation (getTerminalStates m)
                   (map state (JsMap.values (terminals m)))
    /\ forall ts,
         filter (fun s => (createdAt s =? ts)%Z) (getTerminalStates m)
         = filter (fun s => (createdAt s =? ts)%Z)
                  (map state (JsMap.values (terminals m))).
Proof.
  intro m. unfold getTerminalStates. split; [|split].
  - apply (js_sort_sorted createdAt).
  - apply (js_sort_perm createdAt).
  - intro ts. apply (js_sort_stable createdAt).
Qed.

(** Three sessions inserted as X, Y, Z, the first two with one timestamp
    later than the third's: Z is listed first, then X before Y. *)
Example getTerminalStates_ties :
  map id
    (getTerminalStates
       (run [CallCreateTerminal no_options;
             RecvTerminalCreated (Created (IdStr "X")) 2000;
             CallCreateTerminal no_options;
             RecvTerminalCreated (Created (IdStr "Y")) 2000;
             CallCreateTerminal no_options;
             RecvTerminalCreated (Created (IdStr "Z")) 1000] init))
  = [IdStr "Z"; IdStr "X"; IdStr "Y"].
Proof. reflexivity. Qed.

(** ** Renaming *)

Lemma keys_closeTerminal x m :
  JsMap.keys (terminals (closeTerminal x m))
  = JsMap.keys (JsMap.delete x (terminals m)).
Proof.
  destruct (JsMap.has x (terminals m)) eqn:H.
  - destruct (closeTerminal_present x m H) as (m5 & -> & _ & K & _).
    now rewrite terminals_notifyStateChange.
  - unfold JsMap.has in H.
    destruct (JsMap.get x (terminals m)) eqn:G; [discriminate|].
    now rewrite closeTerminal_absent, delete_absent.
Qed.

(** C8: [renameTerminal] on a session of the registry rewrites the name of
    that session and nothing else: its id, active flag, creation time,
    mount flag and size stay, every other session stays, and so do the
    active id, the view mode, the grid layout, the bound, the name counter,
    the pending creations, the messages sent and the emulator calls; an
    exit notice for that id afterwards removes the session, and only it. *)
Theorem renameTerminal_only_name :
  forall m x n inst,
    JsMap.get x (terminals m) = Some inst ->
    terminals (renameTerminal x n m)
    = JsMap.adjust (with_name n) x (terminals m)
    /\ JsMap.get x (terminals (renameTerminal x n m))
       = Some (mkInstance
                 (mkState (id (state inst)) n (Some n)
                    (isActive (state inst)) (createdAt (state inst)))
                 (opened inst) (cols inst) (rows inst))
    /\ (forall y, y <> x ->
          JsMap.get y (terminals (renameTerminal x n m))
          = JsMap.get y (terminals m))
    /\ JsMap.keys (terminals (renameTerminal x n m))
       = JsMap.keys (terminals m)
    /\ activeTerminalId (renameTerminal x n m) = activeTerminalId m
    /\ viewMode (renameTerminal x n m) = viewMode m
    /\ gridLayout (renameTerminal x n m) = gridLayout m
    /\ maxTerminals (renameTerminal x n m) = maxTerminals m
    /\ terminalCounter (renameTerminal x n m) = terminalCounter m
    /\ listeners (renameTerminal x n m) = listeners m
    /\ sent (renameTerminal x n m) = sent m
    /\ effects (renameTerminal x n m) = effects m
    /\ JsMap.get x
         (terminals (onTerminalDestroyed x (renameTerminal x n m))) = None
    /\ JsMap.keys (terminals (onTerminalDestroyed x (renameTerminal x n m)))
       = JsMap.keys (JsMap.delete x (terminals m)).
Proof.
  intros m x n inst G.
  assert (T : terminals (renameTerminal x n m)
              = JsMap.adjust (with_name n) x (terminals m)).
  { unfold renameTerminal. rewrite G. now rewrite terminals_notifyStateChange. }
  split; [exact T|].
  split; [now rewrite T, get_adjust, id_eqb_refl, G|].
  split.
  { intros y N. rewrite T, get_adjust.
    rewrite (proj2 (id_eqb_neq x y)); [reflexivity|congruence]. }
  split; [now rewrite T, keys_adjust|].
  assert (F : forall {B} (f : Manager -> B),
             (forall s v, f (notify s v) = f v) ->
             f (set_terminals (JsMap.adjust (with_name n) x (terminals m)) m)
             = f m ->
             f (renameTerminal x n m) = f m).
  { intros B f Hn Hs. unfold renameTerminal, _notifyStateChange.
    rewrite G. simpl onStateChange.
    destruct (onStateChange m); [rewrite Hn|]; exact Hs. }
  do 8 (split; [apply F; reflexivity|]).
  rewrite onTerminalDestroyed_closeTerminal.
  split; [apply closeTerminal_removes|].
  rewrite keys_closeTerminal, T, !keys_delete. now rewrite keys_adjust.
Qed.

Lemma renameTerminal_only_name_witness :
  JsMap.get (IdStr "B") (terminals scenario_ABC)
  = Some (with_isActive true
            (new_instance (mkState (IdStr "B") "Terminal 2" None false 2000)))
  /\ name_of (IdStr "B") (renameTerminal (IdStr "B") "build" scenario_ABC)
     = Some "build"
  /\ sent (renameTerminal (IdStr "B") "build" scenario_ABC)
     = sent scenario_ABC
  /\ JsMap.keys
       (terminals
          (onTerminalDestroyed (IdStr "B")
             (renameTerminal (IdStr "B") "build" scenario_ABC)))
     = [IdStr "A"; IdStr "C"].
Proof.
  assert (G : JsMap.get (IdStr "B") (terminals scenario_ABC)
              = Some (with_isActive true
                        (new_instance
                           (mkState (IdStr "B") "Terminal 2" None false 2000))))
    by (vm_compute; reflexivity).
  split; [exact G|].
  destruct (renameTerminal_only_name scenario_ABC (IdStr "B") "build" _ G)
    as (_ & Gx & _ & _ & _ & _ & _ & _ & _ & _ & S & _ & _ & K).
  split; [unfold name_of; now rewrite Gx|].
  split; [exact S|].
  rewrite K. vm_compute. reflexivity.
Defined.

(** ** Resizing *)

Lemma has_In {V} (e : TermId * V) (l : JsMap.t V) :
  In e l -> JsMap.has (fst e) l = true.
Proof. intro I. apply has_true. now apply in_map. Qed.

Lemma resized_step p k m :
  JsMap.has k (terminals m) = true ->
  sent (_sendResize k (fit p k m)) = sent m ++ [resize_message p k]
  /\ JsMap.keys (terminals (_sendResize k (fit p k m)))
     = JsMap.keys (terminals m).
Proof.
  intro H. unfold JsMap.has in H. unfold _sendResize, fit. simpl.
  rewrite get_adjust, id_eqb_refl.
  destruct (JsMap.get k (terminals m)); [|discriminate]. simpl.
  split; [reflexivity|apply keys_adjust].
Qed.

Lemma has_keys {V W} k (l : JsMap.t V) (l' : JsMap.t W) :
  JsMap.keys l' = JsMap.keys l -> JsMap.has k l = true ->
  JsMap.has k l' = true.
Proof. intros E H. apply has_true. rewrite E. now apply has_true. Qed.

Lemma fitAll_fold p l :
  forall m,
    (forall e, In e l -> JsMap.has (fst e) (terminals m) = true) ->
    sent (fold_left (fitAll_step p) l m)
    = sent m
      ++ map (fun e => resize_message p (fst e))
             (filter (fun e => opened (snd e)) l)
    /\ JsMap.keys (terminals (fold_left (fitAll_step p) l m))
       = JsMap.keys (terminals m).
Proof.
  induction l as [|e l IH]; intros m H; simpl.
  - now rewrite app_nil_r.
  - unfold fitAll_step at 2 4. destruct (opened (snd e)).
    + destruct (resized_step p (fst e) m (H e (or_introl eq_refl)))
        as [S K].
      destruct (IH (_sendResize (fst e) (fit p (fst e) m))) as [S' K'].
      { intros e' I. apply (has_keys _ (terminals m)); [exact K|].
        apply H. now right. }
      rewrite S', K', S, K, <- app_assoc. now split.
    + apply IH. intros e' I. apply H. now right.
Qed.

Lemma count_one_key {V} (q : TermId * V -> bool) x v (l : JsMap.t V) :
  NoDup (JsMap.keys l) -> In (x, v) l ->
  List.length (filter (fun e => q e && id_eqb (fst e) x) l)
  = if q (x, v) then 1%nat else 0%nat.
Proof.
  induction l as [|[k w] l IH]; simpl; [tauto|].
  intros ND I. inversion ND as [|? ? Hn Hd]; subst.
  assert (Z : forall u, ~ In u (JsMap.keys l) ->
            filter (fun e => q e && id_eqb (fst e) u) l = []).
  { intros u N. clear -N. induction l as [|[k' w'] l IH]; [reflexivity|].
    simpl. rewrite (proj2 (id_eqb_neq k' u)).
    - rewrite andb_false_r. apply IH. simpl in N. tauto.
    - simpl in N. tauto. }
  destruct I as [[= -> ->]|I].
  - rewrite id_eqb_refl, andb_true_r, (Z _ Hn). now destruct (q (x, v)).
  - rewrite (proj2 (id_eqb_neq k x)), andb_false_r; [auto|].
    intros ->. apply Hn. change x with (fst (x, v)). now apply in_map.
Qed.

Lemma resizes_for_opened p x (l : JsMap.t Instance) :
  resizes_for x
    (map (fun e => resize_message p (fst e))
         (filter (fun e => opened (snd e)) l))
  = List.length (filter (fun e => opened (snd e) && id_eqb (fst e) x) l).
Proof.
  unfold resizes_for. induction l as [|[k w] l IH]; [reflexivity|].
  simpl. destruct (opened w); simpl; [|exact IH].
  destruct (id_eqb k x); simpl; now rewrite IH.
Qed.

(** C9: one call of [fitAll] sends, in registry order, one resize message
    for each session whose [opened] flag is set and none for the others,
    and the message of a session carries the columns and rows its
    emulator's fit computed. *)
Theorem fitAll_one_resize_per_opened :
  forall m propose,
    NoDup (JsMap.keys (terminals m)) ->
    sent (fitAll propose m)
    = sent m
      ++ map (fun e => resize_message propose (fst e))
             (filter (fun e => opened (snd e)) (terminals m))
    /\ forall x inst,
         In (x, inst) (terminals m) ->
         resizes_for x
           (map (fun e => resize_message propose (fst e))
                (filter (fun e => opened (snd e)) (terminals m)))
         = (if opened inst then 1%nat else 0%nat)
         /\ forall c r,
              In (TERMINAL_RESIZE_ID x c r)
                 (map (fun e => resize_message propose (fst e))
                      (filter (fun e => opened (snd e)) (terminals m))) ->
              (c, r) = propose x.
Proof.
  intros m propose ND. split.
  - unfold fitAll. apply fitAll_fold. intros e I. now apply has_In.
  - intros x inst I. split.
    + rewrite resizes_for_opened.
      apply (count_one_key (fun e => opened (snd e)) x inst _ ND I).
    + intros c r Im. apply in_map_iff in Im.
      destruct Im as ([k w] & E & _). unfold resize_message in E.
      simpl in E. injection E as -> <- <-. now destruct (propose x).
Qed.

Lemma fitAll_one_resize_per_opened_witness :
  NoDup (JsMap.keys
           (terminals (mountTerminal (IdStr "C") true scenario_ABC)))
  /\ sent (fitAll (fun _ => (120, 40)%Z)
             (mountTerminal (IdStr "C") true scenario_ABC))
     = sent scenario_ABC ++ [TERMINAL_RESIZE_ID (IdStr "C") 120 40].
Proof.
  assert (ND : NoDup (JsMap.keys
             (terminals (mountTerminal (IdStr "C") true scenario_ABC)))).
  { vm_compute. repeat constructor; simpl; intuition discriminate. }
  split; [exact ND|].
  rewrite (proj1 (fitAll_one_resize_per_opened _ (fun _ => (120, 40)%Z) ND)).
  vm_compute. reflexivity.
Defined.

(** ** Default names *)

Lemma default_name_inj n n' : default_name n = default_name n' -> n = n'.
Proof.
  unfold default_name. simpl. intro E. injection E as E.
  apply DecimalNat.Unsigned.to_uint_inj.
  assert (S : Some (Nat.to_uint n) = Some (Nat.to_uint n')).
  { rewrite <- !NilEmpty.usu. now rewrite E. }
  now injection S.
Qed.

Lemma name_of_setActiveTerminal k t m :
  name_of k (setActiveTerminal t m) = name_of k m.
Proof.
  unfold name_of. rewrite terminals_setActiveTerminal, get_adjust.
  assert (C : option_map (fun i => name (state i)) (JsMap.get k (cleared m))
              = option_map (fun i => name (state i))
                  (JsMap.get k (terminals m))).
  { unfold cleared. destruct (activeTerminalId m) as [a|]; [|reflexivity].
    destruct (truthy a); [|reflexivity]. rewrite get_adjust.
    destruct (id_eqb a k); [|reflexivity].
    now destruct (JsMap.get k (terminals m)). }
  rewrite <- C. destruct (id_eqb t k); [|reflexivity].
  now destruct (JsMap.get k (cleared m)).
Qed.

Lemma name_of_same k m m' :
  terminals m' = terminals m -> name_of k m' = name_of k m.
Proof. unfold name_of. now intros ->. Qed.

Lemma counter_notifyStateChange m :
  terminalCounter (_notifyStateChange m) = terminalCounter m.
Proof. unfold _notifyStateChange. now destruct (onStateChange m). Qed.

Lemma counter_setActiveTerminal t m :
  terminalCounter (setActiveTerminal t m) = terminalCounter m.
Proof.
  unfold setActiveTerminal. rewrite counter_notifyStateChange.
  split_matches; reflexivity.
Qed.

(** A creation that is given no name takes the next number. *)
Lemma initializeTerminal_default_name t o now m :
  truthy_str (opt_name o) = None ->
  terminalCounter (_initializeTerminal t o now m) = S (terminalCounter m)
  /\ name_of t (_initializeTerminal t o now m)
     = Some (default_name (S (terminalCounter m))).
Proof.
  intro N. unfold _initializeTerminal. rewrite N. split.
  - rewrite counter_notifyStateChange.
    match goal with
    | |- terminalCounter (if ?c then _ else _) = _ => destruct c
    end; [rewrite counter_setActiveTerminal|]; reflexivity.
  - rewrite (name_of_same _ _ _ (terminals_notifyStateChange _)).
    match goal with
    | |- name_of t (if ?c then _ else _) = _ => destruct c
    end; [rewrite name_of_setActiveTerminal|];
      unfold name_of; simpl; now rewrite get_set, id_eqb_refl.
Qed.

(** C10: the name counter never drops, whatever happens to the manager;
    a creation without a name takes the counter's next value; so of two
    such creations, however many events apart, the later one is named
    "Terminal N" with a larger N than the earlier one, and the two names
    differ. *)
Theorem default_names_never_repeat :
  forall m t o now events t' o' now',
    truthy_str (opt_name o) = None ->
    truthy_str (opt_name o') = None ->
    (terminalCounter m
     <= terminalCounter (run events m))%nat
    /\ exists n n',
         name_of t (_initializeTerminal t o now m) = Some (default_name n)
         /\ name_of t'
              (_initializeTerminal t' o' now'
                 (run events (_initializeTerminal t o now m)))
            = Some (default_name n')
         /\ (n < n')%nat
         /\ default_name n <> default_name n'.
Proof.
  intros m t o now events t' o' now' N N'.
  split; [apply steady_run|].
  destruct (initializeTerminal_default_name t o now m N) as [C1 D1].
  destruct (initializeTerminal_default_name t' o' now'
              (run events (_initializeTerminal t o now m)) N') as [_ D2].
  pose proof (proj2 (steady_run events (_initializeTerminal t o now m))) as Le.
  exists (S (terminalCounter m)),
         (S (terminalCounter (run events (_initializeTerminal t o now m)))).
  split; [exact D1|]. split; [exact D2|].
  split; [lia|]. intro E. apply default_name_inj in E. lia.
Qed.

Lemma default_names_never_repeat_witness :
  truthy_str (opt_name no_options) = None
  /\ name_of (IdStr "D")
       (_initializeTerminal (IdStr "D") no_options 4000
          (run [CallCloseTerminal (IdStr "A"); CallCloseTerminal (IdStr "B")]
             (_initializeTerminal (IdStr "B") no_options 2000 one_terminal)))
     = Some "Terminal 3"
  /\ exists n n',
       name_of (IdStr "B")
         (_initializeTerminal (IdStr "B") no_options 2000 one_terminal)
       = Some (default_name n)
       /\ name_of (IdStr "D")
            (_initializeTerminal (IdStr "D") no_options 4000
               (run [CallCloseTerminal (IdStr "A");
                     CallCloseTerminal (IdStr "B")]
                  (_initializeTerminal (IdStr "B") no_options 2000
                     one_terminal)))
          = Some (default_name n')
       /\ (n < n')%nat
       /\ default_name n <> default_name n'.
Proof.
  split; [reflexivity|]. split; [vm_compute; reflexivity|].
  apply (default_names_never_repeat one_terminal (IdStr "B") no_options 2000
           [CallCloseTerminal (IdStr "A"); CallCloseTerminal (IdStr "B")]
           (IdStr "D") no_options 4000 eq_refl eq_refl).
Defined.

(** ** Remarks on the assumptions *)

(** The states of [on_time] satisfy what the closing theorem asks of a
    registry. *)
Lemma on_time_registry m :
  on_time m -> reachable m /\ registry_ok m /\ chronological m.
Proof.
  induction 1 as [|m e T (R & OK & C) Ok Timely].
  - split; [constructor|]. split; [apply registry_ok_init|constructor].
  - split; [now constructor|].
    split; [now apply registry_ok_exec|now apply chronological_exec].
Qed.

(** Why [event_ok] asks for truthy ids: were the main process to hand out
    the number 0 as an id, [setActiveTerminal] would skip the unmarking of
    that terminal and two sessions would be marked active. *)
Example falsy_id_two_active :
  count_active
    (run [CallCreateTerminal no_options;
          RecvTerminalCreated (Created (IdNum 0)) 1000;
          CallCreateTerminal no_options;
          RecvTerminalCreated (Created (IdNum 1)) 2000] init)
  = 2%nat.
Proof. reflexivity. Qed.

(** Two creation requests outstanding when one reply arrives: both
    handlers fire on it, the terminal is initialized twice under the one
    id and takes the second default name. *)
Example two_handlers_one_reply :
  let m := run [CallCreateTerminal no_options;
                CallCreateTerminal no_options;
                RecvTerminalCreated (Created (IdStr "A")) 1000] init in
  JsMap.keys (terminals m) = [IdStr "A"]
  /\ name_of (IdStr "A") m = Some "Terminal 2"
  /\ terminalCounter m = 2%nat
  /\ listeners m = [].
Proof. repeat split. Qed.

(** * Further properties of the manager *)

(** ** Replies to creation requests *)


Lemma size_keys {V} (l : JsMap.t V) :
  JsMap.size l = List.length (JsMap.keys l).
Proof. unfold JsMap.size, JsMap.keys. now rewrite length_map. Qed.

Lemma size_adjust {V} (f : V -> V) k (l : JsMap.t V) :
  JsMap.size (JsMap.adjust f k l) = JsMap.size l.
Proof. now rewrite !size_keys, keys_adjust. Qed.

Lemma size_delete_le {V} k (l : JsMap.t V) :
  (JsMap.size (JsMap.delete k l) <= JsMap.size l)%nat.
Proof. rewrite delete_filter. apply filter_length_le. Qed.

Lemma calm_refl m : calm m m.
Proof. repeat split; lia. Qed.

Lemma calm_trans m1 m2 m3 : calm m1 m2 -> calm m2 m3 -> calm m1 m3.
Proof. intros (A & B & C) (D & E & F). repeat split; try congruence; lia. Qed.

Ltac calm_now :=
  unfold calm;
  cbn [maxTerminals listeners terminals send effect notify set_terminals
       set_activeTerminalId set_viewMode set_gridLayout set_terminalCounter
       set_onStateChange set_listeners];
  repeat split; rewrite ?size_adjust;
  first [reflexivity | apply size_delete_le | lia].

Lemma calm_notifyStateChange m : calm m (_notifyStateChange m).
Proof. unfold _notifyStateChange. destruct (onStateChange m); calm_now. Qed.

Lemma size_cleared m : JsMap.size (cleared m) = JsMap.size (terminals m).
Proof. now rewrite !size_keys, keys_cleared. Qed.

Lemma calm_setActiveTerminal t m : calm m (setActiveTerminal t m).
Proof.
  repeat split.
  - apply (proj1 (steady_setActiveTerminal t m)).
  - unfold setActiveTerminal, _notifyStateChange. split_matches; reflexivity.
  - rewrite terminals_setActiveTerminal, size_adjust, size_cleared. lia.
Qed.

Lemma calm_closeTerminal t m : calm m (closeTerminal t m).
Proof.
  unfold closeTerminal.
  destruct (JsMap.get t (terminals m)); [|apply calm_refl].
  eapply calm_trans; [|apply calm_notifyStateChange].
  match goal with
  | |- calm _ (if ?c then _ else _) => destruct c
  end; [|calm_now].
  match goal with
  | |- calm _ (match ?x with _ => _ end) => destruct x as [a|]
  end; [destruct (truthy a)|]; try calm_now.
  eapply calm_trans; [|apply calm_setActiveTerminal]. calm_now.
Qed.

Lemma calm_resized p t m : calm m (_sendResize t (fit p t m)).
Proof. unfold _sendResize, fit. split_matches; calm_now. Qed.

Lemma calm_fold {B} (f : Manager -> B -> Manager) l :
  (forall a b, calm a (f a b)) -> forall m, calm m (fold_left f l m).
Proof.
  intro H. induction l as [|b l IH]; simpl; intro m; [apply calm_refl|].
  eapply calm_trans; [apply H|apply IH].
Qed.

Lemma within_bound_calm m m' : calm m m' -> within_bound m -> within_bound m'.
Proof.
  intros (A & B & C) (D & E). split; rewrite A; [lia|].
  rewrite B. intro N. specialize (E N). lia.
Qed.

Lemma listeners_initializeTerminal t o now m :
  listeners (_initializeTerminal t o now m) = listeners m.
Proof.
  unfold _initializeTerminal.
  destruct (truthy_str (opt_name o));
    rewrite (proj1 (proj2 (calm_notifyStateChange _)));
    match goal with
    | |- listeners (if ?c then _ else _) = _ => destruct c
    end;
    try rewrite (proj1 (proj2 (calm_setActiveTerminal _ _))); reflexivity.
Qed.

Lemma keys_initializeTerminal t o now m :
  JsMap.keys (terminals (_initializeTerminal t o now m))
  = if JsMap.has t (terminals m) then JsMap.keys (terminals m)
    else JsMap.keys (terminals m) ++ [t].
Proof.
  unfold _initializeTerminal.
  destruct (truthy_str (opt_name o));
    rewrite terminals_notifyStateChange;
    match goal with
    | |- JsMap.keys (terminals (if ?c then _ else _)) = _ => destruct c
    end;
    try rewrite keys_setActiveTerminal; simpl; apply keys_set.
Qed.

Lemma listeners_created_handler r now m o :
  listeners (created_handler r now m o) = tl (listeners m).
Proof.
  unfold created_handler. destruct r; [|reflexivity].
  now rewrite listeners_initializeTerminal.
Qed.

Lemma listeners_created_fold r now l :
  forall m,
    listeners (fold_left (created_handler r now) l m)
    = skipn (List.length l) (listeners m).
Proof.
  induction l as [|o l IH]; intro m; simpl fold_left.
  - reflexivity.
  - rewrite IH, listeners_created_handler.
    destruct (listeners m); simpl; [now rewrite skipn_nil|reflexivity].
Qed.

Lemma listeners_onTerminalCreated r now m :
  listeners (onTerminalCreated r now m) = [].
Proof.
  unfold onTerminalCreated. rewrite listeners_created_fold.
  apply skipn_all.
Qed.

Lemma failed_reply_fold error now l m :
  forall a,
    terminals a = terminals m /\ activeTerminalId a = activeTerminalId m ->
    terminals (fold_left (created_handler (Failed error) now) l a)
    = terminals m
    /\ activeTerminalId (fold_left (created_handler (Failed error) now) l a)
       = activeTerminalId m.
Proof.
  induction l as [|o l IH]; intros a H; [exact H|]. apply IH. exact H.
Qed.

Lemma failed_reply_registry m error now :
  terminals (onTerminalCreated (Failed error) now m) = terminals m
  /\ activeTerminalId (onTerminalCreated (Failed error) now m)
     = activeTerminalId m.
Proof. unfold onTerminalCreated. apply failed_reply_fold. now split. Qed.

(** X1: a reply that reports a failure adds no session: registry, active
    id, name counter, messages, notifications and emulator calls are as
    before, and no creation handler is left waiting. *)
Theorem onTerminalCreated_failed :
  forall m error now,
    terminals (onTerminalCreated (Failed error) now m) = terminals m
    /\ activeTerminalId (onTerminalCreated (Failed error) now m)
       = activeTerminalId m
    /\ terminalCounter (onTerminalCreated (Failed error) now m)
       = terminalCounter m
    /\ sent (onTerminalCreated (Failed error) now m) = sent m
    /\ notified (onTerminalCreated (Failed error) now m) = notified m
    /\ effects (onTerminalCreated (Failed error) now m) = effects m
    /\ listeners (onTerminalCreated (Failed error) now m) = [].
Proof.
  intros m error now.
  destruct (failed_reply_registry m error now) as [K1 K2].
  assert (K : terminalCounter (onTerminalCreated (Failed error) now m)
              = terminalCounter m
              /\ sent (onTerminalCreated (Failed error) now m) = sent m
              /\ notified (onTerminalCreated (Failed error) now m) = notified m
              /\ effects (onTerminalCreated (Failed error) now m) = effects m).
  { unfold onTerminalCreated.
    apply (fold_left_invariant
             (fun a => terminalCounter a = terminalCounter m
                       /\ sent a = sent m
                       /\ notified a = notified m
                       /\ effects a = effects m)).
    - intros a o H. exact H.
    - repeat split. }
  destruct K as (K3 & K4 & K5 & K6).
  repeat split; try assumption. apply listeners_onTerminalCreated.
Qed.

(** X2: one reply fires every creation handler that is waiting, so the
    next reply finds none and changes nothing, whatever it reports: of two
    requests outstanding only the first reply is ever acted on. *)
Theorem reply_consumes_all_handlers :
  forall m r now r' now',
    listeners (onTerminalCreated r now m) = []
    /\ onTerminalCreated r' now' (onTerminalCreated r now m)
       = onTerminalCreated r now m.
Proof.
  intros m r now r' now'.
  split; [apply listeners_onTerminalCreated|].
  unfold onTerminalCreated at 1.
  now rewrite listeners_onTerminalCreated.
Qed.

(** ** The bound on the registry *)

Lemma has_same_keys {V W} k (l : JsMap.t V) (l' : JsMap.t W) :
  JsMap.keys l' = JsMap.keys l -> JsMap.has k l' = JsMap.has k l.
Proof.
  intro E. destruct (JsMap.has k l) eqn:H.
  - now apply (has_keys k l l').
  - destruct (JsMap.has k l') eqn:H'; [|reflexivity].
    now rewrite (has_keys k l' l (eq_sym E) H') in H.
Qed.

Lemma keys_created_fold_present t now l :
  forall m,
    JsMap.has t (terminals m) = true ->
    JsMap.keys (terminals (fold_left (created_handler (Created t) now) l m))
    = JsMap.keys (terminals m).
Proof.
  induction l as [|o l IH]; intros m H; cbn [fold_left]; [reflexivity|].
  assert (K : JsMap.keys (terminals (created_handler (Created t) now m o))
              = JsMap.keys (terminals m)).
  { unfold created_handler. rewrite keys_initializeTerminal. simpl.
    now rewrite H. }
  rewrite IH; [exact K|]. now rewrite (has_same_keys _ _ _ K).
Qed.

(** The keys a successful reply leaves: the id is added once, however many
    handlers fire. *)
Lemma keys_onTerminalCreated t now m :
  JsMap.keys (terminals (onTerminalCreated (Created t) now m))
  = match listeners m with
    | [] => JsMap.keys (terminals m)
    | _ :: _ =>
        if JsMap.has t (terminals m) then JsMap.keys (terminals m)
        else JsMap.keys (terminals m) ++ [t]
    end.
Proof.
  unfold onTerminalCreated. destruct (listeners m) as [|o l]; [reflexivity|].
  cbn [fold_left].
  assert (K : JsMap.keys (terminals (created_handler (Created t) now m o))
              = if JsMap.has t (terminals m) then JsMap.keys (terminals m)
                else JsMap.keys (terminals m) ++ [t]).
  { unfold created_handler. now rewrite keys_initializeTerminal. }
  assert (P : JsMap.has t (terminals (created_handler (Created t) now m o))
              = true).
  { apply has_true. rewrite K.
    destruct (JsMap.has t (terminals m)) eqn:H; [now apply has_true|].
    apply in_or_app. right. now left. }
  now rewrite (keys_created_fold_present t now l _ P).
Qed.

Lemma within_bound_exec m e : within_bound m -> within_bound (exec m e).
Proof.
  intro W. destruct e; simpl.
  - exact W.
  - unfold createTerminal.
    destruct (maxTerminals m <=? JsMap.size (terminals m))%nat eqn:Full;
      [exact W|].
    apply Nat.leb_gt in Full. split; simpl; [lia|auto].
  - split; [|now rewrite listeners_onTerminalCreated].
    pose proof (proj1 (steady_exec m (RecvTerminalCreated response now)))
      as Mx.
    simpl in Mx. rewrite Mx. clear Mx. destruct W as [Le Lt]. destruct response as [t|err].
    + rewrite size_keys, keys_onTerminalCreated.
      rewrite size_keys in Le, Lt.
      destruct (listeners m) as [|o l]; [exact Le|].
      destruct (JsMap.has t (terminals m)); [exact Le|].
      rewrite length_app. simpl.
      assert (N : o :: l <> []) by discriminate.
      specialize (Lt N). lia.
    + now rewrite (proj1 (failed_reply_registry m err now)).
  - apply (within_bound_calm m); [|exact W]. unfold onTerminalDestroyed.
    destruct (JsMap.has terminalId (terminals m));
      [apply calm_closeTerminal|apply calm_refl].
  - apply (within_bound_calm m); [|exact W]. unfold onTerminalOutput.
    split_matches; calm_now.
  - apply (within_bound_calm m); [|exact W]. unfold mountTerminal.
    split_matches; calm_now.
  - apply (within_bound_calm m); [|exact W]. unfold mountTimeout.
    match goal with
    | |- calm _ (if ?c then _ else _) => destruct c
    end; [eapply calm_trans; [apply calm_resized|calm_now]
         |apply calm_resized].
  - apply (within_bound_calm m); [|exact W]. apply calm_setActiveTerminal.
  - apply (within_bound_calm m); [|exact W]. unfold renameTerminal.
    destruct (JsMap.get terminalId (terminals m)); [|apply calm_refl].
    eapply calm_trans; [|apply calm_notifyStateChange]. calm_now.
  - apply (within_bound_calm m); [|exact W]. apply calm_closeTerminal.
  - apply (within_bound_calm m); [|exact W]. unfold setViewMode.
    eapply calm_trans; [|apply calm_notifyStateChange]. calm_now.
  - apply (within_bound_calm m); [|exact W]. unfold setGridLayout.
    eapply calm_trans; [|apply calm_notifyStateChange]. calm_now.
  - apply (within_bound_calm m); [|exact W]. unfold fitAll.
    apply calm_fold. intros a b. unfold fitAll_step.
    destruct (opened (snd b)); [apply calm_resized|apply calm_refl].
  - apply (within_bound_calm m); [|exact W]. unfold fitTerminal.
    destruct (JsMap.get terminalId (terminals m)) as [i|]; [|apply calm_refl].
    destruct (opened i); [apply calm_resized|apply calm_refl].
  - apply (within_bound_calm m); [|exact W]. unfold writeToActive.
    split_matches; calm_now.
  - apply (within_bound_calm m); [|exact W]. unfold sendCommand.
    split_matches; calm_now.
  - apply (within_bound_calm m); [|exact W]. unfold onData.
    split_matches; calm_now.
Qed.

(** X3: whatever events a manager goes through, in whatever order and
    with whatever ids the main process replies, its registry never holds
    more than nine sessions. *)
Theorem registry_never_exceeds_bound :
  forall events,
    (JsMap.size (terminals (run events init)) <= 9)%nat.
Proof.
  intro events.
  assert (W : within_bound (run events init)).
  { unfold run. apply fold_left_invariant; [apply within_bound_exec|].
    split; simpl; [lia|congruence]. }
  destruct W as [Le _].
  now rewrite (proj1 (steady_run events init)) in Le.
Qed.

(** ** Creation *)





(** X5: a creation that is given a name takes it and leaves the name
    counter alone; one that is given none, or the empty string, is named
    "Terminal N" with N the counter's next value, which the counter then
    holds. *)
Theorem initializeTerminal_naming :
  forall m t o now,
    (forall n, opt_name o = Some n -> n <> "" ->
       name_of t (_initializeTerminal t o now m) = Some n
       /\ terminalCounter (_initializeTerminal t o now m) = terminalCounter m)
    /\ (opt_name o = None \/ opt_name o = Some "" ->
        name_of t (_initializeTerminal t o now m)
        = Some (default_name (S (terminalCounter m)))
        /\ terminalCounter (_initializeTerminal t o now m)
           = S (terminalCounter m)).
Proof.
  intros m t o now. split.
  - intros n E Ne.
    assert (T : truthy_str (opt_name o) = Some n).
    { rewrite E. simpl. destruct (n =? "") eqn:Q; [|reflexivity].
      apply String.eqb_eq in Q. contradiction. }
    unfold _initializeTerminal. rewrite T. split.
    + rewrite (name_of_same _ _ _ (terminals_notifyStateChange _)).
      match goal with
      | |- name_of t (if ?c then _ else _) = _ => destruct c
      end; [rewrite name_of_setActiveTerminal|];
        unfold name_of; simpl; now rewrite get_set, id_eqb_refl.
    + rewrite counter_notifyStateChange.
      match goal with
      | |- terminalCounter (if ?c then _ else _) = _ => destruct c
      end; [rewrite counter_setActiveTerminal|]; reflexivity.
  - intro E.
    assert (T : truthy_str (opt_name o) = None)
      by (destruct E as [-> | ->]; reflexivity).
    destruct (initializeTerminal_default_name t o now m T) as [C D].
    now split.
Qed.

Lemma initializeTerminal_naming_witness :
  name_of (IdStr "B")
    (_initializeTerminal (IdStr "B") (mkOptions None (Some "build")) 2000
       one_terminal)
  = Some "build"
  /\ terminalCounter
       (_initializeTerminal (IdStr "B") (mkOptions None (Some "build")) 2000
          one_terminal)
     = 1%nat
  /\ name_of (IdStr "B")
       (_initializeTerminal (IdStr "B") (mkOptions None (Some "")) 2000
          one_terminal)
     = Some "Terminal 2".
Proof.
  destruct (initializeTerminal_naming one_terminal (IdStr "B")
              (mkOptions None (Some "build")) 2000) as [Named _].
  destruct (initializeTerminal_naming one_terminal (IdStr "B")
              (mkOptions None (Some "")) 2000) as [_ Unnamed].
  assert (Ne : "build" <> "") by discriminate.
  destruct (Named "build" eq_refl Ne) as [N1 C1].
  destruct (Unnamed (or_intror eq_refl)) as [N2 _].
  split; [exact N1|]. split; [rewrite C1; vm_compute; reflexivity|].
  rewrite N2. vm_compute. reflexivity.
Defined.

(** ** Output *)

Lemma writes_to_app t l l' :
  writes_to t (l ++ l') = writes_to t l ++ writes_to t l'.
Proof. unfold writes_to. apply flat_map_app. Qed.

Lemma output_run chunks :
  forall m,
    terminals (run (output_events chunks) m) = terminals m
    /\ activeTerminalId (run (output_events chunks) m) = activeTerminalId m
    /\ sent (run (output_events chunks) m) = sent m
    /\ effects (run (output_events chunks) m)
       = effects m
         ++ map (fun c => TermWrite (fst c) (snd c))
              (filter (fun c => JsMap.has (fst c) (terminals m)) chunks).
Proof.
  induction chunks as [|[t d] chunks IH]; intro m.
  - simpl. now rewrite app_nil_r.
  - change (run (output_events ((t, d) :: chunks)) m)
      with (run (output_events chunks) (onTerminalOutput t d m)).
    destruct (IH (onTerminalOutput t d m)) as (T & A & S & E).
    rewrite T, A, S, E. clear IH T A S E.
    unfold onTerminalOutput, JsMap.has. cbn [filter fst].
    destruct (JsMap.get t (terminals m)); simpl;
      [rewrite <- app_assoc|]; repeat split.
Qed.

(** X6: output chunks from the main process reach the emulators in the
    order they arrive: a chunk for a terminal of the registry is written to
    that terminal's emulator and to no other, a chunk for an unknown id is
    dropped, and neither the registry nor the messages sent change; so each
    terminal sees its own chunks first in, first out, however they are
    interleaved with the chunks of others. *)
Theorem output_in_order_per_terminal :
  forall m chunks,
    terminals (run (output_events chunks) m) = terminals m
    /\ activeTerminalId (run (output_events chunks) m) = activeTerminalId m
    /\ sent (run (output_events chunks) m) = sent m
    /\ effects (run (output_events chunks) m)
       = effects m
         ++ map (fun c => TermWrite (fst c) (snd c))
              (filter (fun c => JsMap.has (fst c) (terminals m)) chunks)
    /\ forall t,
         writes_to t (effects (run (output_events chunks) m))
         = writes_to t (effects m)
           ++ (if JsMap.has t (terminals m)
               then map snd (filter (fun c => id_eqb (fst c) t) chunks)
               else []).
Proof.
  intros m chunks. destruct (output_run chunks m) as (T & A & S & E).
  repeat split; try assumption.
  intro t. rewrite E, writes_to_app. f_equal. clear.
  induction chunks as [|[k d] chunks IH]; simpl.
  - now destruct (JsMap.has t (terminals m)).
  - destruct (JsMap.has k (terminals m)) eqn:Hk; simpl.
    + destruct (id_eqb k t) eqn:Q; simpl.
      * apply id_eqb_eq in Q. subst k. rewrite Hk in *. now rewrite IH.
      * exact IH.
    + destruct (id_eqb k t) eqn:Q; [|exact IH].
      apply id_eqb_eq in Q. subst k. now rewrite Hk in *.
Qed.

(** ** Mounting and fitting *)

(** X7: the emulator of a terminal is opened by its first mount and by no
    later one: a mount into a container opens the emulator if it was not
    open, and a further mount only attaches the element again; a mount
    without a container, or of an id that is not in the registry, does
    nothing. *)
Theorem mountTerminal_opens_once :
  forall m t,
    (forall i, JsMap.get t (terminals m) = Some i ->
       effects (mountTerminal t true m)
       = effects m ++ Append t :: (if opened i then [] else [Open t])
       /\ JsMap.get t (terminals (mountTerminal t true m))
          = Some (mkInstance (state i) true (cols i) (rows i))
       /\ effects (mountTerminal t true (mountTerminal t true m))
          = effects (mountTerminal t true m) ++ [Append t]
       /\ terminals (mountTerminal t true (mountTerminal t true m))
          = terminals (mountTerminal t true m))
    /\ mountTerminal t false m = m
    /\ (forall container,
          JsMap.get t (terminals m) = None ->
          mountTerminal t container m = m).
Proof.
  intros m t. split; [|split].
  - intros i G.
    assert (First :
      effects (mountTerminal t true m)
      = effects m ++ Append t :: (if opened i then [] else [Open t])
      /\ JsMap.get t (terminals (mountTerminal t true m))
         = Some (mkInstance (state i) true (cols i) (rows i))).
    { unfold mountTerminal. rewrite G. destruct (opened i) eqn:O; simpl.
      - split; [reflexivity|]. rewrite G. destruct i. simpl in O.
        now subst.
      - rewrite <- app_assoc. split; [reflexivity|].
        now rewrite get_adjust, id_eqb_refl, G. }
    destruct First as [E G']. split; [exact E|]. split; [exact G'|].
    clear E. set (m1 := mountTerminal t true m) in *. clearbody m1.
    unfold mountTerminal. rewrite G'. simpl. now split.
  - unfold mountTerminal. now destruct (JsMap.get t (terminals m)).
  - intros container G. unfold mountTerminal. now rewrite G.
Qed.

Lemma mountTerminal_opens_once_witness :
  JsMap.get (IdStr "A") (terminals one_terminal)
  = Some (with_isActive true
            (new_instance (mkState (IdStr "A") "Terminal 1" None false 1000)))
  /\ effects (mountTerminal (IdStr "A") true one_terminal)
     = [Focus (IdStr "A"); Append (IdStr "A"); Open (IdStr "A")]
  /\ effects (mountTerminal (IdStr "A") true
                (mountTerminal (IdStr "A") true one_terminal))
     = [Focus (IdStr "A"); Append (IdStr "A"); Open (IdStr "A");
        Append (IdStr "A")].
Proof.
  assert (G : JsMap.get (IdStr "A") (terminals one_terminal)
              = Some (with_isActive true
                        (new_instance
                           (mkState (IdStr "A") "Terminal 1" None false 1000))))
    by (vm_compute; reflexivity).
  split; [exact G|].
  destruct (proj1 (mountTerminal_opens_once one_terminal (IdStr "A")) _ G)
    as (E1 & _ & E2 & _).
  split; [rewrite E1|rewrite E2, E1]; vm_compute; reflexivity.
Defined.

Lemma terminals_resized p k m :
  terminals (_sendResize k (fit p k m))
  = JsMap.adjust (with_size (p k)) k (terminals m).
Proof. unfold _sendResize, fit. now split_matches. Qed.

Lemma fitAll_fold_fitTerminal p l :
  forall m,
    (forall k i, In (k, i) l ->
       exists i', JsMap.get k (terminals m) = Some i'
                  /\ opened i' = opened i) ->
    fold_left (fitAll_step p) l m
    = fold_left (fun a k => fitTerminal p k a) (JsMap.keys l) m.
Proof.
  induction l as [|[k i] l IH]; intros m H; [reflexivity|].
  cbn [fold_left JsMap.keys map fst].
  destruct (H k i (or_introl eq_refl)) as (i' & G & O).
  assert (E : fitAll_step p m (k, i) = fitTerminal p k m).
  { unfold fitAll_step, fitTerminal. simpl. now rewrite G, O. }
  rewrite E. apply IH. intros k2 i2 I.
  destruct (H k2 i2 (or_intror I)) as (j & Gj & Oj).
  unfold fitTerminal. rewrite G. destruct (opened i'); [|eauto].
  rewrite terminals_resized, get_adjust, Gj.
  destruct (id_eqb k k2); simpl; eauto.
Qed.

(** X8: [fitAll] is [fitTerminal] applied to each terminal of the registry
    in turn, in registry order; and [fitTerminal] on an id that is not in
    the registry, or on a terminal that was never mounted, does nothing. *)
Theorem fitAll_is_fitTerminal_each :
  forall m propose,
    NoDup (JsMap.keys (terminals m)) ->
    fitAll propose m
    = fold_left (fun a k => fitTerminal propose k a)
        (JsMap.keys (terminals m)) m
    /\ (forall t, JsMap.get t (terminals m) = None ->
          fitTerminal propose t m = m)
    /\ (forall t i, JsMap.get t (terminals m) = Some i ->
          opened i = false -> fitTerminal propose t m = m).
Proof.
  intros m propose ND. split; [|split].
  - unfold fitAll. apply fitAll_fold_fitTerminal.
    intros k i I. exists i. split; [now apply In_get|reflexivity].
  - intros t G. unfold fitTerminal. now rewrite G.
  - intros t i G O. unfold fitTerminal. now rewrite G, O.
Qed.

Lemma fitAll_is_fitTerminal_each_witness :
  NoDup (JsMap.keys (terminals scenario_ABC))
  /\ fitAll (fun _ => (120, 40)%Z) scenario_ABC
     = fitTerminal (fun _ => (120, 40)%Z) (IdStr "C")
         (fitTerminal (fun _ => (120, 40)%Z) (IdStr "B")
            (fitTerminal (fun _ => (120, 40)%Z) (IdStr "A") scenario_ABC)).
Proof.
  assert (ND : NoDup (JsMap.keys (terminals scenario_ABC))).
  { vm_compute. repeat constructor; simpl; intuition discriminate. }
  split; [exact ND|].
  rewrite (proj1 (fitAll_is_fitTerminal_each scenario_ABC
                    (fun _ => (120, 40)%Z) ND)).
  vm_compute. reflexivity.
Defined.





(** ** The listing and the activation *)

Lemma sort_insert_map {A B} (f : A -> B) (cmpA : A -> A -> Z)
    (cmpB : B -> B -> Z) x l :
  (forall a b, cmpB (f a) (f b) = cmpA a b) ->
  map f (sort_insert cmpA x l) = sort_insert cmpB (f x) (map f l).
Proof.
  intro H. induction l as [|y l IH]; simpl; [reflexivity|].
  rewrite H. destruct (cmpA x y <=? 0)%Z; simpl; [reflexivity|].
  now rewrite IH.
Qed.

Lemma js_sort_map {A B} (f : A -> B) (cmpA : A -> A -> Z)
    (cmpB : B -> B -> Z) l :
  (forall a b, cmpB (f a) (f b) = cmpA a b) ->
  map f (js_sort cmpA l) = js_sort cmpB (map f l).
Proof.
  intro H. induction l as [|x l IH]; simpl; [reflexivity|].
  now rewrite (sort_insert_map f cmpA cmpB), IH.
Qed.

(** The listing's ids are determined by the ids and creation times of the
    registry, in registry order. *)
Lemma listing_ids m :
  map id (getTerminalStates m)
  = map fst
      (js_sort (fun a b : TermId * Z => (snd a - snd b)%Z)
         (map (fun e => (id (state (snd e)), createdAt (state (snd e))))
              (terminals m))).
Proof.
  unfold getTerminalStates, JsMap.values.
  rewrite <- (map_map (fun s => (id s, createdAt s)) fst).
  rewrite (js_sort_map (fun s => (id s, createdAt s)) _
             (fun a b : TermId * Z => (snd a - snd b)%Z));
    [|reflexivity].
  now rewrite !map_map.
Qed.

Lemma stamps_adjust f j (l : JsMap.t Instance) :
  (forall i, id (state (f i)) = id (state i)
             /\ createdAt (state (f i)) = createdAt (state i)) ->
  map (fun e => (id (state (snd e)), createdAt (state (snd e))))
      (JsMap.adjust f j l)
  = map (fun e => (id (state (snd e)), createdAt (state (snd e)))) l.
Proof.
  intro Hf. induction l as [|[k v] l IH]; simpl; [reflexivity|].
  destruct (id_eqb k j); simpl.
  - destruct (Hf v) as [-> ->]. reflexivity.
  - now rewrite IH.
Qed.

Lemma stamps_cleared m :
  map (fun e => (id (state (snd e)), createdAt (state (snd e)))) (cleared m)
  = map (fun e => (id (state (snd e)), createdAt (state (snd e))))
      (terminals m).
Proof.
  unfold cleared. destruct (activeTerminalId m) as [a|]; [|reflexivity].
  destruct (truthy a); [|reflexivity]. now apply stamps_adjust.
Qed.

Lemma listing_ids_setActiveTerminal t m :
  map id (getTerminalStates (setActiveTerminal t m))
  = map id (getTerminalStates m).
Proof.
  rewrite !listing_ids.
  rewrite terminals_setActiveTerminal, stamps_adjust, stamps_cleared;
    [reflexivity|now intro].
Qed.

(** X10: the order of the listing does not depend on the activation
    history: activating a terminal, renaming one or mounting one leaves the
    sequence of ids that [getTerminalStates] returns as it was. *)
Theorem listing_order_unaffected :
  forall m t,
    map id (getTerminalStates (setActiveTerminal t m))
    = map id (getTerminalStates m)
    /\ (forall n,
          map id (getTerminalStates (renameTerminal t n m))
          = map id (getTerminalStates m))
    /\ (forall container,
          map id (getTerminalStates (mountTerminal t container m))
          = map id (getTerminalStates m)).
Proof.
  intros m t. split; [apply listing_ids_setActiveTerminal|].
  rewrite !listing_ids. split.
  - intro n. rewrite listing_ids. unfold renameTerminal.
    destruct (JsMap.get t (terminals m)); [|reflexivity].
    rewrite terminals_notifyStateChange. simpl.
    rewrite stamps_adjust; [reflexivity|now intro].
  - intro container. rewrite listing_ids. unfold mountTerminal.
    destruct (JsMap.get t (terminals m)) as [i|]; [|reflexivity].
    destruct container; [|reflexivity].
    destruct (opened i); [reflexivity|]. simpl.
    rewrite stamps_adjust; [reflexivity|now intro].
Qed.

(** ** Activation under orderly use *)

Lemma well_activated_same m m' :
  terminals m' = terminals m -> activeTerminalId m' = activeTerminalId m ->
  well_activated m -> well_activated m'.
Proof.
  unfold well_activated, registry_ok. now intros -> ->.
Qed.

Lemma well_activated_notify m :
  well_activated m -> well_activated (_notifyStateChange m).
Proof.
  apply well_activated_same;
    [apply terminals_notifyStateChange|apply active_notifyStateChange].
Qed.

Lemma setActiveTerminal_marks t m :
  JsMap.has t (terminals m) = true ->
  exists i, JsMap.get t (terminals (setActiveTerminal t m)) = Some i
            /\ isActive (state i) = true.
Proof.
  intro H. rewrite terminals_setActiveTerminal, get_adjust, id_eqb_refl.
  rewrite <- has_cleared in H. unfold JsMap.has in H.
  destruct (JsMap.get t (cleared m)) as [i0|]; [|discriminate].
  simpl. eauto.
Qed.

Lemma well_activated_setActiveTerminal t m :
  registry_ok m -> JsMap.has t (terminals m) = true ->
  well_activated (setActiveTerminal t m).
Proof.
  intros OK H. split; [now apply registry_ok_setActiveTerminal|].
  rewrite active_setActiveTerminal. now apply setActiveTerminal_marks.
Qed.

Lemma well_activated_adjust f k m :
  (forall i, id (state (f i)) = id (state i)
             /\ isActive (state (f i)) = isActive (state i)) ->
  well_activated m ->
  well_activated (set_terminals (JsMap.adjust f k (terminals m)) m).
Proof.
  intros Hf [OK A]. split.
  - unfold registry_ok. simpl. now apply reg_ok_adjust.
  - simpl. destruct (activeTerminalId m) as [a|].
    + destruct A as (i & G & M). rewrite get_adjust, G.
      destruct (id_eqb k a); simpl; [|eauto].
      exists (f i). split; [reflexivity|]. now rewrite (proj2 (Hf i)).
    + now rewrite A.
Qed.

Lemma well_activated_resized p t m :
  well_activated m -> well_activated (_sendResize t (fit p t m)).
Proof.
  intro W.
  apply (well_activated_same
           (set_terminals
              (JsMap.adjust (with_size (p t)) t (terminals m)) m)).
  - apply terminals_resized.
  - unfold _sendResize, fit. now split_matches.
  - now apply well_activated_adjust.
Qed.

(** [closeTerminal] on a terminal that is not the active one. *)
Lemma closeTerminal_inactive x m :
  active_is (activeTerminalId m) x = false ->
  terminals (closeTerminal x m) = JsMap.delete x (terminals m)
  /\ activeTerminalId (closeTerminal x m) = activeTerminalId m.
Proof.
  intro A. unfold closeTerminal.
  destruct (JsMap.get x (terminals m)) eqn:G.
  - rewrite terminals_notifyStateChange, active_notifyStateChange.
    cbn [send effect set_terminals terminals activeTerminalId
         set_activeTerminalId].
    rewrite A. now split.
  - now rewrite delete_absent.
Qed.

Lemma well_activated_closeTerminal x m :
  well_activated m -> well_activated (closeTerminal x m).
Proof.
  intros [OK A].
  pose proof (registry_ok_closeTerminal x m OK) as OK'.
  split; [exact OK'|].
  destruct (JsMap.has x (terminals m)) eqn:H.
  - destruct (active_is (activeTerminalId m) x) eqn:Ax.
    + destruct (activeTerminalId m) as [a|] eqn:Ea; [|discriminate].
      simpl in Ax. apply id_eqb_eq in Ax. subst a.
      destruct (closeTerminal_active_terminals x m OK Ea H) as [Sn Nn].
      destruct (JsMap.delete x (terminals m)) as [|e l] eqn:D.
      * destruct (Nn eq_refl) as [T ->]. exact T.
      * assert (Ne : e :: l <> []) by discriminate.
        destruct (exists_last Ne) as (rest & [k i] & E).
        destruct (Sn rest k i E) as [T Ak]. rewrite Ak.
        exists (with_isActive true i). split; [|reflexivity].
        apply In_get; [apply OK'|]. rewrite T. apply in_or_app.
        right. now left.
    + destruct (closeTerminal_inactive x m Ax) as [T Ea]. rewrite Ea, T.
      destruct (activeTerminalId m) as [a|].
      * destruct A as (i & G & M). exists i. split; [|exact M].
        rewrite get_delete. simpl in Ax. rewrite id_eqb_sym in Ax.
        now rewrite Ax.
      * now rewrite A.
  - unfold JsMap.has in H.
    destruct (JsMap.get x (terminals m)) eqn:G; [discriminate|].
    now rewrite (closeTerminal_absent x m G).
Qed.

Lemma well_activated_truthy m a :
  well_activated m -> activeTerminalId m = Some a -> truthy a = true.
Proof.
  intros [OK A] E. rewrite E in A. destruct A as (i & G & _).
  apply get_In in G. apply (proj1 (proj2 OK) _ _ G).
Qed.

(** One firing of a creation handler.  The second conjunct is what a
    further handler fired by the same reply relies on. *)
Lemma well_activated_initializeTerminal t o now m :
  truthy t = true ->
  well_activated m ->
  (activeTerminalId m = Some t -> JsMap.size (terminals m) = 1%nat) ->
  well_activated (_initializeTerminal t o now m)
  /\ (activeTerminalId (_initializeTerminal t o now m) = Some t ->
      JsMap.size (terminals (_initializeTerminal t o now m)) = 1%nat).
Proof.
  intros T W Q.
  pose proof (registry_ok_initializeTerminal t o now m T (proj1 W)) as OK'.
  assert (TA : forall a, activeTerminalId m = Some a -> truthy a = true)
    by (intros a E; apply (well_activated_truthy m a W E)).
  assert (Core : forall nm c,
    let m2 := set_terminals
                (JsMap.set t (new_instance (mkState t nm None false now))
                   (terminals m)) (set_terminalCounter c m) in
    let m3 := if (JsMap.size (terminals m2) =? 1)%nat
                 || negb (truthy_active (activeTerminalId m2))
              then setActiveTerminal t m2 else m2 in
    registry_ok m3 ->
    (match activeTerminalId m3 with
     | None => terminals m3 = []
     | Some a => exists i, JsMap.get a (terminals m3) = Some i
                           /\ isActive (state i) = true
     end)
    /\ (activeTerminalId m3 = Some t ->
        JsMap.size (terminals m3) = 1%nat)).
  { intros nm c m2 m3 OK3. subst m3.
    assert (H2 : JsMap.has t (terminals m2) = true).
    { unfold JsMap.has. subst m2. simpl. now rewrite get_set, id_eqb_refl. }
    destruct ((JsMap.size (terminals m2) =? 1)%nat
              || negb (truthy_active (activeTerminalId m2))) eqn:C.
    - rewrite active_setActiveTerminal. split.
      + now apply setActiveTerminal_marks.
      + intros _.
        rewrite size_keys, keys_setActiveTerminal, <- size_keys.
        apply orb_true_iff in C. destruct C as [C|C];
          [now apply Nat.eqb_eq in C|].
        apply negb_true_iff in C. subst m2. simpl in C |- *.
        destruct W as [OK A].
        destruct (activeTerminalId m) as [a|] eqn:Ea.
        * simpl in C. rewrite (TA a eq_refl) in C. discriminate.
        * now rewrite A.
    - apply orb_false_iff in C. destruct C as [C1 C2].
      apply Nat.eqb_neq in C1. apply negb_false_iff in C2.
      subst m2. simpl in C1, C2 |- *.
      destruct W as [OK A].
      destruct (activeTerminalId m) as [a|] eqn:Ea; [|discriminate].
      destruct A as (i & G & M).
      assert (Ne : id_eqb t a = false).
      { apply id_eqb_neq. intros ->. apply C1.
        rewrite size_set. unfold JsMap.has. rewrite G. now apply Q. }
      split.
      + exists i. split; [|exact M]. now rewrite get_set, Ne.
      + intros [= ->]. now rewrite id_eqb_refl in Ne. }
  unfold _initializeTerminal in *.
  destruct (truthy_str (opt_name o)) as [n|].
  - specialize (Core n (terminalCounter m)). simpl in Core.
    match goal with
    | |- well_activated (_notifyStateChange ?s) /\ _ =>
        assert (OK3 : registry_ok s)
          by (apply (registry_ok_same (_notifyStateChange s));
              [symmetry; apply terminals_notifyStateChange
              |symmetry; apply active_notifyStateChange|exact OK'])
    end.
    destruct (Core OK3) as [A3 Q3].
    rewrite terminals_notifyStateChange, active_notifyStateChange.
    split; [|exact Q3]. apply well_activated_notify. now split.
  - specialize (Core (default_name (S (terminalCounter m)))
                  (S (terminalCounter m))). simpl in Core.
    match goal with
    | |- well_activated (_notifyStateChange ?s) /\ _ =>
        assert (OK3 : registry_ok s)
          by (apply (registry_ok_same (_notifyStateChange s));
              [symmetry; apply terminals_notifyStateChange
              |symmetry; apply active_notifyStateChange|exact OK'])
    end.
    destruct (Core OK3) as [A3 Q3].
    rewrite terminals_notifyStateChange, active_notifyStateChange.
    split; [|exact Q3]. apply well_activated_notify. now split.
Qed.

Lemma well_activated_created_fold t now l :
  truthy t = true ->
  forall m,
    well_activated m ->
    (activeTerminalId m = Some t -> JsMap.size (terminals m) = 1%nat) ->
    well_activated (fold_left (created_handler (Created t) now) l m).
Proof.
  intro T. induction l as [|o l IH]; intros m W Q; [exact W|].
  cbn [fold_left]. unfold created_handler at 2.
  destruct (well_activated_initializeTerminal t o now
              (set_listeners (tl (listeners m)) m) T
              (well_activated_same m _ eq_refl eq_refl W) Q) as [W' Q'].
  now apply IH.
Qed.

Lemma well_activated_exec m e :
  well_activated m -> event_orderly m e -> well_activated (exec m e).
Proof.
  intros W EV. destruct e; simpl.
  - exact W.
  - unfold createTerminal.
    now destruct (maxTerminals m <=? JsMap.size (terminals m))%nat.
  - destruct response as [t|err].
    + simpl in EV. destruct EV as [T G]. unfold onTerminalCreated.
      apply well_activated_created_fold; [exact T|exact W|].
      intro E. destruct W as [_ A]. rewrite E in A.
      destruct A as (i & Gi & _). congruence.
    + destruct (failed_reply_registry m err now) as (Tm & Am).
      now apply (well_activated_same m).
  - unfold onTerminalDestroyed.
    destruct (JsMap.has terminalId (terminals m)); [|exact W].
    now apply well_activated_closeTerminal.
  - unfold onTerminalOutput.
    now destruct (JsMap.get terminalId (terminals m)).
  - unfold mountTerminal.
    destruct (JsMap.get terminalId (terminals m)) as [i|]; [|exact W].
    destruct container; [|exact W].
    destruct (opened i); [exact W|].
    apply (well_activated_same
             (set_terminals
                (JsMap.adjust with_opened terminalId (terminals m)) m));
      [reflexivity|reflexivity|].
    now apply well_activated_adjust.
  - unfold mountTimeout.
    match goal with
    | |- well_activated (if ?c then _ else _) => destruct c
    end; [apply (well_activated_same _ (effect _ _) eq_refl eq_refl)|];
      now apply well_activated_resized.
  - simpl in EV. now apply well_activated_setActiveTerminal; [apply W|].
  - unfold renameTerminal.
    destruct (JsMap.get terminalId (terminals m)); [|exact W].
    apply well_activated_notify. now apply well_activated_adjust.
  - now apply well_activated_closeTerminal.
  - now apply well_activated_notify.
  - now apply well_activated_notify.
  - unfold fitAll. apply fold_left_invariant; [|exact W].
    intros a b Ha. unfold fitAll_step. destruct (opened (snd b)); [|exact Ha].
    now apply well_activated_resized.
  - unfold fitTerminal.
    destruct (JsMap.get terminalId (terminals m)) as [i|]; [|exact W].
    destruct (opened i); [|exact W]. now apply well_activated_resized.
  - unfold writeToActive.
    destruct (activeTerminalId m) as [a|]; [|exact W].
    destruct (truthy a); [|exact W].
    now destruct (JsMap.get a (terminals m)).
  - unfold sendCommand.
    destruct (activeTerminalId m) as [a|]; [|exact W].
    now destruct (truthy a).
  - unfold onData. now destruct (JsMap.get terminalId (terminals m)).
Qed.

Lemma orderly_well_activated m : orderly m -> well_activated m.
Proof.
  induction 1 as [|m e O IH EV].
  - split; [apply registry_ok_init|reflexivity].
  - now apply well_activated_exec.
Qed.

Lemma well_activated_one_active m :
  well_activated m -> one_active_unless_empty m.
Proof.
  intros [OK A]. unfold one_active_unless_empty.
  destruct (activeTerminalId m) as [a|]; [right|now left].
  destruct A as (i & G & M).
  pose proof (registry_ok_count_active m OK).
  pose proof (count_active_positive m a i (get_In _ _ _ G) M). lia.
Qed.

Lemma orderly_closed_first : orderly closed_first.
Proof.
  unfold closed_first, run. cbn [fold_left].
  repeat (apply orderly_exec;
          [|first [exact I | split; vm_compute; reflexivity]]).
  apply orderly_init.
Qed.

(** X11: as long as [setActiveTerminal] is called with ids of the registry
    and the main process answers creation requests with new, truthy ids,
    the activation is never lost: in every state reached, either the
    registry is empty and no id is active, or exactly one session is marked
    active and [activeTerminalId] is its id. *)
Theorem orderly_one_active :
  forall m, orderly m ->
    one_active_unless_empty m
    /\ match activeTerminalId m with
       | None => terminals m = []
       | Some a =>
           count_active m = 1%nat
           /\ exists i, JsMap.get a (terminals m) = Some i
                        /\ isActive (state i) = true
       end.
Proof.
  intros m O. pose proof (orderly_well_activated m O) as W.
  pose proof (well_activated_one_active m W) as One.
  split; [exact One|]. destruct W as [OK A].
  destruct (activeTerminalId m) as [a|]; [|exact A].
  split; [|exact A]. destruct One as [E|C]; [|exact C].
  destruct A as (i & G & _). rewrite E in G. discriminate.
Qed.

Lemma orderly_one_active_witness :
  orderly closed_first
  /\ one_active_unless_empty closed_first
  /\ activeTerminalId closed_first = Some (IdStr "B").
Proof.
  split; [apply orderly_closed_first|].
  destruct (orderly_one_active closed_first orderly_closed_first)
    as [One _].
  split; [exact One|]. vm_compute. reflexivity.
Defined.

(** X12: under the same orderly use, a command and a write both go to the
    one session marked active: [sendCommand] sends one input message for
    it, the command followed by a carriage return, and [writeToActive]
    writes to its emulator; with an empty registry both do nothing. *)
Theorem orderly_command_target :
  forall m command data,
    orderly m ->
    (terminals m = [] ->
       sendCommand command m = m /\ writeToActive data m = m)
    /\ (terminals m <> [] ->
        exists a i,
          activeTerminalId m = Some a
          /\ JsMap.get a (terminals m) = Some i
          /\ isActive (state i) = true
          /\ sent (sendCommand command m)
             = sent m
               ++ [TERMINAL_INPUT_ID a (command ++ String "013"%char "")]
          /\ effects (writeToActive data m)
             = effects m ++ [TermWrite a data]).
Proof.
  intros m command data O.
  pose proof (orderly_well_activated m O) as W.
  assert (TA : forall a, activeTerminalId m = Some a -> truthy a = true)
    by (intros a E; apply (well_activated_truthy m a W E)).
  destruct W as [OK A]. unfold sendCommand, writeToActive. split.
  - intro E. destruct (activeTerminalId m) as [a|]; [|now split].
    destruct A as (i & G & _). rewrite E in G. discriminate.
  - intro Ne. destruct (activeTerminalId m) as [a|]; [|contradiction].
    destruct A as (i & G & M). exists a, i.
    rewrite (TA a eq_refl), G. repeat split; assumption.
Qed.

Lemma orderly_command_target_witness :
  orderly closed_first
  /\ terminals closed_first <> []
  /\ exists a i,
       activeTerminalId closed_first = Some a
       /\ JsMap.get a (terminals closed_first) = Some i
       /\ sent (sendCommand "claude" closed_first)
          = sent closed_first
            ++ [TERMINAL_INPUT_ID a ("claude" ++ String "013"%char "")].
Proof.
  assert (Ne : terminals closed_first <> [])
    by (vm_compute; discriminate).
  split; [apply orderly_closed_first|]. split; [exact Ne|].
  destruct (orderly_command_target closed_first "claude" "hello"
              orderly_closed_first) as [_ NonEmpty].
  destruct (NonEmpty Ne) as (a & i & Ea & G & _ & S & _).
  exists a, i. repeat split; assumption.
Defined.

(** * The keyboard *)

(** ** Switching between terminals *)

Lemma wrap_around_range len i :
  (1 <= len)%Z -> (0 <= wrap_around len i < len)%Z.
Proof.
  intro L. unfold wrap_around.
  destruct (i <? 0)%Z eqn:N; [apply Z.ltb_lt in N|apply Z.ltb_ge in N].
  - destruct (len <=? len - 1)%Z eqn:W;
      [apply Z.leb_le in W|apply Z.leb_gt in W]; lia.
  - destruct (len <=? i)%Z eqn:W;
      [apply Z.leb_le in W|apply Z.leb_gt in W]; lia.
Qed.

Lemma element_at_nth {A} (l : list A) i :
  (0 <= i)%Z -> element_at l i = nth_error l (Z.to_nat i).
Proof.
  intro P. unfold element_at.
  destruct (i <? 0)%Z eqn:N; [apply Z.ltb_lt in N; lia|reflexivity].
Qed.

Lemma element_at_in_range {A} (l : list A) i :
  (0 <= i < Z.of_nat (List.length l))%Z ->
  exists x, element_at l i = Some x /\ In x l.
Proof.
  intros [P Q]. rewrite element_at_nth by exact P.
  destruct (nth_error l (Z.to_nat i)) as [x|] eqn:E.
  - exists x. split; [reflexivity|]. now apply nth_error_In in E.
  - apply nth_error_None in E. lia.
Qed.

Lemma listing_length m :
  List.length (getTerminalStates m) = JsMap.size (terminals m).
Proof.
  unfold getTerminalStates, JsMap.values, JsMap.size.
  rewrite (Permutation_length (js_sort_perm createdAt _)).
  now rewrite !length_map.
Qed.

Lemma listing_member m t :
  registry_ok m -> In t (getTerminalStates m) ->
  JsMap.has (id t) (terminals m) = true.
Proof.
  intros (ND & Hk & _) I. unfold getTerminalStates in I.
  apply (Permutation_in _ (js_sort_perm createdAt _)) in I.
  unfold JsMap.values in I. rewrite map_map in I.
  apply in_map_iff in I. destruct I as ([k i] & <- & I). simpl.
  rewrite (proj2 (Hk _ _ I)). now apply (has_In (k, i)).
Qed.

Lemma switchTerminal_few d m :
  (JsMap.size (terminals m) <= 1)%nat -> _switchTerminal d m = m.
Proof.
  intro S. unfold _switchTerminal. rewrite listing_length.
  destruct (Z.of_nat (JsMap.size (terminals m)) <=? 1)%Z eqn:C;
    [reflexivity|]. apply Z.leb_gt in C. lia.
Qed.

Lemma switchTerminal_many d m :
  registry_ok m -> (2 <= JsMap.size (terminals m))%nat ->
  exists t,
    In t (getTerminalStates m)
    /\ JsMap.has (id t) (terminals m) = true
    /\ _switchTerminal d m = setActiveTerminal (id t) m.
Proof.
  intros OK S. unfold _switchTerminal. rewrite listing_length.
  destruct (Z.of_nat (JsMap.size (terminals m)) <=? 1)%Z eqn:C;
    [apply Z.leb_le in C; lia|].
  match goal with
  | |- context [element_at ?l ?i] =>
      destruct (element_at_in_range l i) as (t & E & I);
      [rewrite listing_length; apply wrap_around_range; lia|]
  end.
  rewrite E. exists t. split; [exact I|]. split; [|reflexivity].
  now apply listing_member.
Qed.

(** X13: [_switchTerminal] never leaves the listing: with fewer than two
    terminals it does nothing, and otherwise, whatever the direction and
    whether or not the active id is found in the listing, it activates a
    terminal of the registry, after which exactly one session is marked
    active. *)
Theorem switchTerminal_stays_in_registry :
  forall m direction,
    registry_ok m ->
    ((JsMap.size (terminals m) <= 1)%nat -> _switchTerminal direction m = m)
    /\ ((2 <= JsMap.size (terminals m))%nat ->
        exists t,
          In t (getTerminalStates m)
          /\ JsMap.has (id t) (terminals m) = true
          /\ _switchTerminal direction m = setActiveTerminal (id t) m
          /\ activeTerminalId (_switchTerminal direction m) = Some (id t)
          /\ count_active (_switchTerminal direction m) = 1%nat).
Proof.
  intros m direction OK. split; [apply switchTerminal_few|].
  intro S. destruct (switchTerminal_many direction m OK S) as (t & I & H & E).
  exists t. rewrite E.
  split; [exact I|]. split; [exact H|]. split; [reflexivity|].
  split; [apply active_setActiveTerminal|].
  pose proof (well_activated_one_active _
                (well_activated_setActiveTerminal (id t) m OK H))
    as [E0|One]; [|exact One].
  destruct (setActiveTerminal_marks (id t) m H) as (i & G & _).
  rewrite E0 in G. discriminate.
Qed.

Lemma switchTerminal_stays_in_registry_witness :
  registry_ok scenario_ABC
  /\ (2 <= JsMap.size (terminals scenario_ABC))%nat
  /\ exists t,
       In t (getTerminalStates scenario_ABC)
       /\ activeTerminalId (_switchTerminal 1 scenario_ABC) = Some (id t)
       /\ count_active (_switchTerminal 1 scenario_ABC) = 1%nat.
Proof.
  pose proof (reachable_registry_ok _ reachable_scenario_ABC) as OK.
  assert (S : (2 <= JsMap.size (terminals scenario_ABC))%nat)
    by (vm_compute; lia).
  split; [exact OK|]. split; [exact S|].
  destruct (switchTerminal_stays_in_registry scenario_ABC 1 OK) as [_ Many].
  destruct (Many S) as (t & I & _ & _ & A & C).
  exists t. repeat split; assumption.
Defined.

Lemma findIndex_from_map {A B} (f : A -> B) (p : B -> bool) l n :
  findIndex_from (fun x => p (f x)) l n = findIndex_from p (map f l) n.
Proof.
  revert n. induction l as [|x l IH]; intro n; simpl; [reflexivity|].
  destruct (p (f x)); [reflexivity|apply IH].
Qed.

Lemma findIndex_from_nth (ids : list TermId) x :
  NoDup ids ->
  forall i n,
    nth_error ids i = Some x ->
    findIndex_from (id_eqb x) ids n = (n + Z.of_nat i)%Z.
Proof.
  induction 1 as [|y r Hn Hd IH]; intros i n E.
  - now destruct i.
  - destruct i as [|j]; simpl in E |- *.
    + injection E as ->. rewrite id_eqb_refl. lia.
    + assert (Ne : id_eqb x y = false).
      { apply id_eqb_neq. intros ->. apply Hn.
        now apply nth_error_In in E. }
      rewrite Ne, (IH j (n + 1)%Z E). lia.
Qed.

Lemma listing_ids_perm m :
  registry_ok m ->
  Permutation (map id (getTerminalStates m)) (JsMap.keys (terminals m)).
Proof.
  intros (_ & Hk & _). unfold getTerminalStates, JsMap.values, JsMap.keys.
  rewrite (js_sort_perm createdAt _), !map_map.
  assert (E : map (fun x => id (state (snd x))) (terminals m)
              = map fst (terminals m)).
  { apply map_ext_in. intros [k i] I. simpl. apply (proj2 (Hk _ _ I)). }
  now rewrite E.
Qed.

Lemma listing_ids_NoDup m :
  registry_ok m -> NoDup (map id (getTerminalStates m)).
Proof.
  intro OK. apply (Permutation_NoDup (Permutation_sym (listing_ids_perm m OK))).
  apply OK.
Qed.

(** One switch, read on the list of ids of the listing: from position [i]
    to position [wrap_around len (i + direction)]. *)
Lemma switchTerminal_step m direction x i :
  registry_ok m ->
  (2 <= List.length (getTerminalStates m))%nat ->
  activeTerminalId m = Some x ->
  nth_error (map id (getTerminalStates m)) i = Some x ->
  nth_error (map id (getTerminalStates m))
    (Z.to_nat (wrap_around (Z.of_nat (List.length (getTerminalStates m)))
                 (Z.of_nat i + direction)))
  = activeTerminalId (_switchTerminal direction m).
Proof.
  intros OK Two A E. unfold _switchTerminal.
  destruct (Z.of_nat (List.length (getTerminalStates m)) <=? 1)%Z eqn:C;
    [apply Z.leb_le in C; lia|].
  unfold findIndex. rewrite A.
  change (findIndex_from (fun t => active_is (Some x) (id t))
            (getTerminalStates m) 0)
    with (findIndex_from (fun t => id_eqb x (id t)) (getTerminalStates m) 0).
  rewrite (findIndex_from_map id (id_eqb x)).
  rewrite (findIndex_from_nth _ x (listing_ids_NoDup m OK) i 0 E).
  rewrite Z.add_0_l.
  set (j := wrap_around _ _).
  assert (R : (0 <= j < Z.of_nat (List.length (getTerminalStates m)))%Z)
    by (apply wrap_around_range; lia).
  destruct (element_at_in_range _ j R) as (t & Et & _).
  rewrite Et, active_setActiveTerminal.
  rewrite element_at_nth in Et by lia.
  now rewrite nth_error_map, Et.
Qed.

Lemma wrap_around_cases len x :
  (1 <= len)%Z ->
  ((x < 0)%Z -> wrap_around len x = (len - 1)%Z)
  /\ ((0 <= x < len)%Z -> wrap_around len x = x)
  /\ ((len <= x)%Z -> wrap_around len x = 0%Z).
Proof.
  intro L. unfold wrap_around.
  destruct (x <? 0)%Z eqn:N; [apply Z.ltb_lt in N|apply Z.ltb_ge in N].
  - destruct (len <=? len - 1)%Z eqn:W;
      [apply Z.leb_le in W|apply Z.leb_gt in W]; repeat split; lia.
  - destruct (len <=? x)%Z eqn:W;
      [apply Z.leb_le in W|apply Z.leb_gt in W]; repeat split; lia.
Qed.

Lemma wrap_around_back len i :
  (2 <= len)%Z -> (0 <= i < len)%Z ->
  wrap_around len (wrap_around len (i + 1) + -1) = i
  /\ wrap_around len (wrap_around len (i + -1) + 1) = i.
Proof.
  intros L R. split.
  - destruct (Z.eq_dec (i + 1) len) as [E|E].
    + rewrite (proj2 (proj2 (wrap_around_cases len (i + 1) ltac:(lia))))
        by lia.
      rewrite (proj1 (wrap_around_cases len (0 + -1) ltac:(lia))) by lia.
      lia.
    + rewrite (proj1 (proj2 (wrap_around_cases len (i + 1) ltac:(lia))))
        by lia.
      rewrite (proj1 (proj2 (wrap_around_cases len _ ltac:(lia)))) by lia.
      lia.
  - destruct (Z.eq_dec i 0) as [E|E].
    + rewrite (proj1 (wrap_around_cases len (i + -1) ltac:(lia))) by lia.
      rewrite (proj2 (proj2 (wrap_around_cases len _ ltac:(lia)))) by lia.
      lia.
    + rewrite (proj1 (proj2 (wrap_around_cases len (i + -1) ltac:(lia))))
        by lia.
      rewrite (proj1 (proj2 (wrap_around_cases len _ ltac:(lia)))) by lia.
      lia.
Qed.

Lemma switchTerminal_keeps_listing m direction :
  registry_ok m ->
  registry_ok (_switchTerminal direction m)
  /\ map id (getTerminalStates (_switchTerminal direction m))
     = map id (getTerminalStates m).
Proof.
  intro OK. unfold _switchTerminal.
  destruct (Z.of_nat (List.length (getTerminalStates m)) <=? 1)%Z;
    [now split|].
  match goal with
  | |- context [element_at ?l ?i] => destruct (element_at l i) as [t|]
  end; [|now split].
  split; [now apply registry_ok_setActiveTerminal|].
  apply listing_ids_setActiveTerminal.
Qed.

(** X14: next then previous, or previous then next, leads back: when the
    active id is a terminal of the registry, [_switchTerminal 1] followed
    by [_switchTerminal (-1)], or the two in the other order, leaves that
    terminal active. *)
Theorem switchTerminal_there_and_back :
  forall m a,
    registry_ok m ->
    activeTerminalId m = Some a ->
    JsMap.has a (terminals m) = true ->
    activeTerminalId (_switchTerminal (-1) (_switchTerminal 1 m)) = Some a
    /\ activeTerminalId (_switchTerminal 1 (_switchTerminal (-1) m)) = Some a.
Proof.
  intros m a OK A H.
  destruct (Nat.le_gt_cases (List.length (getTerminalStates m)) 1) as [S|S].
  - assert (E : forall d, _switchTerminal d m = m).
    { intro d. unfold _switchTerminal.
      destruct (Z.of_nat (List.length (getTerminalStates m)) <=? 1)%Z eqn:C;
        [reflexivity|]. apply Z.leb_gt in C. lia. }
    now rewrite !E.
  - assert (I : In a (map id (getTerminalStates m))).
    { apply (Permutation_in _ (Permutation_sym (listing_ids_perm m OK))).
      now apply has_true. }
    apply In_nth_error in I. destruct I as [i E].
    assert (Ri : (i < List.length (getTerminalStates m))%nat).
    { rewrite <- (length_map id). apply nth_error_Some. congruence. }
    assert (Back := wrap_around_back
                      (Z.of_nat (List.length (getTerminalStates m)))
                      (Z.of_nat i) ltac:(lia) ltac:(lia)).
    assert (Turn : forall d d',
      wrap_around (Z.of_nat (List.length (getTerminalStates m)))
        (wrap_around (Z.of_nat (List.length (getTerminalStates m)))
           (Z.of_nat i + d) + d') = Z.of_nat i ->
      activeTerminalId (_switchTerminal d' (_switchTerminal d m)) = Some a).
    { intros d d' W.
      pose proof (switchTerminal_step m d a i OK S A E) as Step1.
      destruct (switchTerminal_keeps_listing m d OK) as [OK1 L1].
      set (j := wrap_around _ (Z.of_nat i + d)) in *.
      assert (Rj : (0 <= j < Z.of_nat (List.length (getTerminalStates m)))%Z)
        by (apply wrap_around_range; lia).
      assert (Len1 : List.length (getTerminalStates (_switchTerminal d m))
                     = List.length (getTerminalStates m)).
      { rewrite <- (length_map id), L1. apply length_map. }
      destruct (activeTerminalId (_switchTerminal d m)) as [y|] eqn:A1.
      2:{ apply nth_error_None in Step1. rewrite length_map in Step1. lia. }
      assert (S1 : (2 <= List.length
                           (getTerminalStates (_switchTerminal d m)))%nat)
        by lia.
      pose proof (switchTerminal_step (_switchTerminal d m) d' y
                    (Z.to_nat j) OK1 S1 A1) as Step2.
      rewrite L1, Len1, Z2Nat.id in Step2 by lia.
      rewrite <- (Step2 Step1), W, Nat2Z.id. exact E. }
    split; apply Turn; apply Back.
Qed.

Lemma switchTerminal_there_and_back_witness :
  registry_ok scenario_ABC
  /\ activeTerminalId scenario_ABC = Some (IdStr "B")
  /\ JsMap.has (IdStr "B") (terminals scenario_ABC) = true
  /\ activeTerminalId (_switchTerminal 1 scenario_ABC) = Some (IdStr "C")
  /\ activeTerminalId (_switchTerminal (-1) (_switchTerminal 1 scenario_ABC))
     = Some (IdStr "B").
Proof.
  pose proof (reachable_registry_ok _ reachable_scenario_ABC) as OK.
  assert (A : activeTerminalId scenario_ABC = Some (IdStr "B"))
    by (vm_compute; reflexivity).
  assert (H : JsMap.has (IdStr "B") (terminals scenario_ABC) = true)
    by (vm_compute; reflexivity).
  split; [exact OK|]. split; [exact A|]. split; [exact H|].
  split; [vm_compute; reflexivity|].
  apply (proj1 (switchTerminal_there_and_back scenario_ABC (IdStr "B")
                  OK A H)).
Defined.

(** ** Shortcuts *)

(** X15: every key combination the [keydown] listener of the application
    takes as a shortcut is a combination the key filter of the emulators
    hands to the application (it answers [false]), whatever lower-casing
    does: no shortcut is swallowed by a focused terminal. *)
Theorem shortcuts_pass_the_key_filter :
  forall toLowerCase e,
    preventDefault toLowerCase e = true ->
    customKeyEventHandler toLowerCase e = false.
Proof.
  intros toLowerCase e.
  unfold preventDefault, customKeyEventHandler, shortcut_new, shortcut_close,
    shortcut_next, shortcut_previous, shortcut_number, shortcut_grid.
  destruct (ctrlKey e), (metaKey e), (shiftKey e),
    (between_1_and_9 (key e)), (key e =? "Tab"),
    (toLowerCase (key e) =? "t"), (toLowerCase (key e) =? "w"),
    (toLowerCase (key e) =? "g"), (toLowerCase (key e) =? "k"),
    (toLowerCase (key e) =? "i"), (toLowerCase (key e) =? "h");
    simpl; intro H; first [reflexivity | discriminate].
Qed.

Lemma shortcuts_pass_the_key_filter_witness :
  preventDefault ascii_toLowerCase (mkKeyEvent true false true "W") = true
  /\ customKeyEventHandler ascii_toLowerCase (mkKeyEvent true false true "W")
     = false.
Proof.
  assert (P : preventDefault ascii_toLowerCase
                (mkKeyEvent true false true "W") = true)
    by (vm_compute; reflexivity).
  split; [exact P|]. apply (shortcuts_pass_the_key_filter _ _ P).
Defined.

(** X16: a key pressed without Ctrl and without Cmd is no shortcut: the
    listener of the application leaves the manager as it is and does not
    call [preventDefault], and the key filter leaves the key to the
    emulator. *)
Theorem plain_keys_reach_the_terminal :
  forall toLowerCase e m,
    ctrlKey e = false -> metaKey e = false ->
    keydown toLowerCase e m = m
    /\ preventDefault toLowerCase e = false
    /\ customKeyEventHandler toLowerCase e = true.
Proof.
  intros toLowerCase e m C M.
  unfold keydown, preventDefault, customKeyEventHandler, shortcut_new,
    shortcut_close, shortcut_next, shortcut_previous, shortcut_number,
    shortcut_grid.
  rewrite C, M. simpl. repeat split.
Qed.

Lemma plain_keys_reach_the_terminal_witness :
  keydown ascii_toLowerCase (mkKeyEvent false false true "T") scenario_ABC
  = scenario_ABC
  /\ customKeyEventHandler ascii_toLowerCase (mkKeyEvent false false true "T")
     = true.
Proof.
  destruct (plain_keys_reach_the_terminal ascii_toLowerCase
              (mkKeyEvent false false true "T") scenario_ABC
              eq_refl eq_refl) as (K & _ & F).
  split; [exact K|exact F].
Defined.

Lemma size_delete_ge {V} k (l : JsMap.t V) :
  NoDup (JsMap.keys l) ->
  (JsMap.size l <= S (JsMap.size (JsMap.delete k l)))%nat.
Proof.
  unfold JsMap.size. induction l as [|[k' v] l IH]; simpl; [lia|].
  intro ND. inversion ND as [|? ? Hn Hd]; subst.
  destruct (id_eqb k' k) eqn:E; simpl.
  - apply id_eqb_eq in E. subst k'.
    rewrite delete_absent; [lia|]. now apply get_None.
  - specialize (IH Hd). lia.
Qed.

Lemma size_setActiveTerminal t m :
  JsMap.size (terminals (setActiveTerminal t m)) = JsMap.size (terminals m).
Proof. now rewrite !size_keys, keys_setActiveTerminal. Qed.

Lemma well_activated_switchTerminal d m :
  well_activated m ->
  well_activated (_switchTerminal d m)
  /\ JsMap.size (terminals (_switchTerminal d m)) = JsMap.size (terminals m).
Proof.
  intro W.
  destruct (Nat.le_gt_cases (JsMap.size (terminals m)) 1) as [S|S].
  - rewrite (switchTerminal_few d m S). now split.
  - destruct (switchTerminal_many d m (proj1 W) S) as (t & _ & H & ->).
    split; [now apply well_activated_setActiveTerminal; [apply W|]|].
    apply size_setActiveTerminal.
Qed.

Lemma well_activated_switch_to_number k m :
  well_activated m ->
  well_activated (switch_to_number k m)
  /\ JsMap.size (terminals (switch_to_number k m))
     = JsMap.size (terminals m).
Proof.
  intro W. unfold switch_to_number.
  destruct (parseInt k) as [n|]; [|now split].
  destruct (n - 1 <? Z.of_nat (List.length (getTerminalStates m)))%Z;
    [|now split].
  destruct (element_at (getTerminalStates m) (n - 1)) as [t|] eqn:E;
    [|now split].
  assert (I : In t (getTerminalStates m)).
  { unfold element_at in E. destruct (n - 1 <? 0)%Z; [discriminate|].
    now apply nth_error_In in E. }
  split; [|apply size_setActiveTerminal].
  apply well_activated_setActiveTerminal; [apply W|].
  now apply listing_member; [apply W|].
Qed.

Lemma well_activated_close_active m :
  well_activated m ->
  well_activated (close_active m)
  /\ (JsMap.size (terminals (close_active m)) <= JsMap.size (terminals m))%nat
  /\ ((1 <= JsMap.size (terminals m))%nat ->
      (1 <= JsMap.size (terminals (close_active m)))%nat).
Proof.
  intro W. unfold close_active.
  destruct (activeTerminalId m) as [a|];
    [|split; [exact W|split; [lia|auto]]].
  destruct (truthy a && (1 <? JsMap.size (terminals m))%nat) eqn:C;
    [|split; [exact W|split; [lia|auto]]].
  apply andb_true_iff in C. destruct C as [_ C]. apply Nat.ltb_lt in C.
  split; [now apply well_activated_closeTerminal|].
  rewrite (size_keys (terminals (closeTerminal a m))), keys_closeTerminal,
    <- size_keys.
  pose proof (size_delete_le a (terminals m)).
  pose proof (size_delete_ge a (terminals m) (proj1 (proj1 W))).
  split; [assumption|]. intros _. lia.
Qed.

(** X17: the keyboard cannot lose the activation nor close the last
    terminal: from a state in which the active id names the marked session
    of the registry, any key event leads to such a state again, adds no
    terminal, and leaves at least one terminal if there was one. *)
Theorem keydown_keeps_a_terminal :
  forall toLowerCase e m,
    well_activated m ->
    well_activated (keydown toLowerCase e m)
    /\ (JsMap.size (terminals (keydown toLowerCase e m))
        <= JsMap.size (terminals m))%nat
    /\ ((1 <= JsMap.size (terminals m))%nat ->
        (1 <= JsMap.size (terminals (keydown toLowerCase e m)))%nat).
Proof.
  intros toLowerCase e m W. unfold keydown.
  set (lowered := toLowerCase (key e)).
  set (m1 := if shortcut_new lowered e
             then snd (createTerminal no_options m) else m).
  assert (W1 : well_activated m1
               /\ JsMap.size (terminals m1) = JsMap.size (terminals m)).
  { subst m1. destruct (shortcut_new lowered e); [|now split].
    unfold createTerminal.
    destruct (maxTerminals m <=? JsMap.size (terminals m))%nat;
      simpl; now split. }
  destruct W1 as [W1 S1].
  set (m2 := if shortcut_close lowered e then close_active m1 else m1).
  assert (W2 : well_activated m2
               /\ (JsMap.size (terminals m2) <= JsMap.size (terminals m))%nat
               /\ ((1 <= JsMap.size (terminals m))%nat ->
                   (1 <= JsMap.size (terminals m2))%nat)).
  { subst m2. rewrite <- S1. destruct (shortcut_close lowered e).
    - now apply well_activated_close_active.
    - split; [exact W1|split; [lia|auto]]. }
  destruct W2 as (W2 & Le2 & Ge2).
  set (m3 := if shortcut_next e then _switchTerminal 1 m2 else m2).
  assert (W3 : well_activated m3
               /\ JsMap.size (terminals m3) = JsMap.size (terminals m2)).
  { subst m3. destruct (shortcut_next e); [|now split].
    now apply well_activated_switchTerminal. }
  destruct W3 as [W3 S3].
  set (m4 := if shortcut_previous e then _switchTerminal (-1) m3 else m3).
  assert (W4 : well_activated m4
               /\ JsMap.size (terminals m4) = JsMap.size (terminals m3)).
  { subst m4. destruct (shortcut_previous e); [|now split].
    now apply well_activated_switchTerminal. }
  destruct W4 as [W4 S4].
  set (m5 := if shortcut_number e then switch_to_number (key e) m4 else m4).
  assert (W5 : well_activated m5
               /\ JsMap.size (terminals m5) = JsMap.size (terminals m4)).
  { subst m5. destruct (shortcut_number e); [|now split].
    now apply well_activated_switch_to_number. }
  destruct W5 as [W5 S5].
  assert (W6 : well_activated
                 (if shortcut_grid lowered e then toggle_grid m5 else m5)
               /\ JsMap.size
                    (terminals
                       (if shortcut_grid lowered e
                        then toggle_grid m5 else m5))
                  = JsMap.size (terminals m5)).
  { destruct (shortcut_grid lowered e); [|now split].
    unfold toggle_grid, setViewMode.
    split; [now apply well_activated_notify|].
    now rewrite terminals_notifyStateChange. }
  destruct W6 as [W6 S6].
  split; [exact W6|]. rewrite S6, S5, S4, S3. split; [exact Le2|exact Ge2].
Qed.

Lemma keydown_keeps_a_terminal_witness :
  well_activated one_terminal
  /\ JsMap.keys
       (terminals
          (keydown ascii_toLowerCase (mkKeyEvent true false true "W")
             one_terminal))
     = [IdStr "A"]
  /\ (1 <= JsMap.size
             (terminals
                (keydown ascii_toLowerCase (mkKeyEvent true false true "W")
                   scenario_ABC)))%nat.
Proof.
  assert (W : well_activated one_terminal).
  { split; [apply (reachable_registry_ok _ reachable_one_terminal)|].
    vm_compute. eexists. split; reflexivity. }
  assert (W' : well_activated scenario_ABC).
  { split; [apply (reachable_registry_ok _ reachable_scenario_ABC)|].
    vm_compute. eexists. split; reflexivity. }
  split; [exact W|]. split; [vm_compute; reflexivity|].
  destruct (keydown_keeps_a_terminal ascii_toLowerCase
              (mkKeyEvent true false true "W") scenario_ABC W')
    as (_ & _ & Ge).
  apply Ge. vm_compute. lia.
Defined.

Lemma switch_to_number_nth k z m :
  parseInt k = Some z -> (1 <= z)%Z ->
  switch_to_number k m
  = match nth_error (getTerminalStates m) (Z.to_nat (z - 1)) with
    | Some t => setActiveTerminal (id t) m
    | None => m
    end.
Proof.
  intros P L. unfold switch_to_number. rewrite P. cbv zeta.
  rewrite element_at_nth by lia.
  destruct (z - 1 <? Z.of_nat (List.length (getTerminalStates m)))%Z eqn:C;
    [reflexivity|].
  apply Z.ltb_ge in C.
  assert (N : nth_error (getTerminalStates m) (Z.to_nat (z - 1)) = None)
    by (apply nth_error_None; lia).
  now rewrite N.
Qed.

Lemma digit_key n :
  (1 <= n <= 9)%nat ->
  parseInt (NilEmpty.string_of_uint (Nat.to_uint n)) = Some (Z.of_nat n)
  /\ between_1_and_9 (NilEmpty.string_of_uint (Nat.to_uint n)) = true
  /\ (NilEmpty.string_of_uint (Nat.to_uint n) =? "Tab") = false.
Proof.
  intros [L U].
  do 10 (destruct n as [|n]; [try lia; now repeat split|]). lia.
Qed.

(** X18: Ctrl (or Cmd) with a digit n from 1 to 9 activates the n-th
    terminal of the listing, counted from the oldest, when the registry
    holds at least n terminals, and does nothing when it holds fewer. *)
Theorem number_shortcut_activates_nth :
  forall toLowerCase m n cmd,
    (1 <= n <= 9)%nat ->
    keydown toLowerCase
      (mkKeyEvent (negb cmd) cmd false
         (NilEmpty.string_of_uint (Nat.to_uint n))) m
    = match nth_error (getTerminalStates m) (n - 1) with
      | Some t => setActiveTerminal (id t) m
      | None => m
      end.
Proof.
  intros toLowerCase m n cmd R.
  destruct (digit_key n R) as (P & B & T).
  unfold keydown, shortcut_new, shortcut_close, shortcut_next,
    shortcut_previous, shortcut_number, shortcut_grid.
  cbn [ctrlKey metaKey shiftKey key]. rewrite B, T.
  replace (negb cmd || cmd) with true by now destruct cmd.
  cbn [andb negb].
  rewrite (switch_to_number_nth _ _ _ P) by lia.
  replace (Z.to_nat (Z.of_nat n - 1)) with (n - 1)%nat by lia.
  reflexivity.
Qed.

Lemma number_shortcut_activates_nth_witness :
  activeTerminalId
    (keydown ascii_toLowerCase (mkKeyEvent true false false "3") scenario_ABC)
  = Some (IdStr "C")
  /\ keydown ascii_toLowerCase (mkKeyEvent true false false "4") scenario_ABC
     = scenario_ABC.
Proof.
  assert (R3 : (1 <= 3 <= 9)%nat) by lia.
  assert (R4 : (1 <= 4 <= 9)%nat) by lia.
  pose proof (number_shortcut_activates_nth ascii_toLowerCase scenario_ABC
                3 false R3) as K3.
  pose proof (number_shortcut_activates_nth ascii_toLowerCase scenario_ABC
                4 false R4) as K4.
  split.
  - change (mkKeyEvent true false false "3")
      with (mkKeyEvent (negb false) false false
              (NilEmpty.string_of_uint (Nat.to_uint 3))).
    rewrite K3. vm_compute. reflexivity.
  - change (mkKeyEvent true false false "4")
      with (mkKeyEvent (negb false) false false
              (NilEmpty.string_of_uint (Nat.to_uint 4))).
    rewrite K4. vm_compute. reflexivity.
Defined.

(** * The prompt log *)

Lemma all_chars_app test s s' :
  all_chars test (s ++ s') = all_chars test s && all_chars test s'.
Proof.
  induction s as [|c s IH]; simpl; [reflexivity|].
  now rewrite IH, andb_assoc.
Qed.

Lemma all_chars_slice_last test s :
  all_chars test s = true -> all_chars test (slice_last s) = true.
Proof.
  induction s as [|c s IH]; [reflexivity|].
  simpl. intro H. apply andb_true_iff in H. destruct H as [Hc Hs].
  destruct s as [|c' s']; [reflexivity|].
  change (slice_last (String c (String c' s')))
    with (String c (slice_last (String c' s'))).
  cbn [all_chars]. rewrite Hc. exact (IH Hs).
Qed.

Lemma slice_last_app s c : slice_last (s ++ String c "") = s.
Proof.
  induction s as [|c' s IH]; [reflexivity|].
  simpl. rewrite IH. now destruct s.
Qed.

(** A printable character is neither a line end nor a backspace. *)
Lemma printable_plain c :
  printable c = true ->
  ((c =? "013")%char || (c =? "010")%char) = false
  /\ ((c =? "127")%char || (c =? "008")%char) = false.
Proof.
  destruct c as [[] [] [] [] [] [] [] []]; vm_compute;
    first [discriminate | now split].
Qed.

Lemma log_chars_app clock d d' p :
  log_chars clock (d ++ d') p = log_chars clock d' (log_chars clock d p).
Proof.
  revert p. induction d as [|c d IH]; intro p; [reflexivity|]. apply IH.
Qed.

Lemma ptyProcess_log_char clock p c :
  ptyProcess (log_char clock p c) = ptyProcess p.
Proof. unfold log_char. now split_matches. Qed.

Lemma ptyProcess_log_chars clock d :
  forall p, ptyProcess (log_chars clock d p) = ptyProcess p.
Proof.
  induction d as [|c d IH]; intro p; [reflexivity|].
  simpl. now rewrite IH, ptyProcess_log_char.
Qed.

(** The buffer and the file after a character depend on the buffer and the
    file before it only. *)
Lemma log_char_same clock p q c :
  inputBuffer p = inputBuffer q -> appended p = appended q ->
  inputBuffer (log_char clock p c) = inputBuffer (log_char clock q c)
  /\ appended (log_char clock p c) = appended (log_char clock q c).
Proof.
  intros B A. unfold log_char. rewrite B, A.
  split_matches; simpl; now rewrite ?B, ?A.
Qed.

Lemma log_chars_same clock d :
  forall p q,
    inputBuffer p = inputBuffer q -> appended p = appended q ->
    inputBuffer (log_chars clock d p) = inputBuffer (log_chars clock d q)
    /\ appended (log_chars clock d p) = appended (log_chars clock d q).
Proof.
  induction d as [|c d IH]; intros p q B A; [now split|].
  simpl. destruct (log_char_same clock p q c B A) as [B' A'].
  now apply IH.
Qed.

(** Typing printable characters only extends the buffer. *)
Lemma log_chars_printable clock line :
  all_chars printable line = true ->
  forall p,
    inputBuffer (log_chars clock line p) = (inputBuffer p ++ line)%string
    /\ appended (log_chars clock line p) = appended p.
Proof.
  induction line as [|c line IH]; intros H p.
  - simpl. split; [|reflexivity].
    induction (inputBuffer p) as [|x b IHb]; [reflexivity|].
    simpl. now rewrite <- IHb.
  - simpl in H. apply andb_true_iff in H. destruct H as [Hc Hl].
    destruct (printable_plain c Hc) as [N1 N2].
    simpl. destruct (IH Hl (log_char clock p c)) as [B A].
    rewrite B, A. unfold log_char. rewrite N1, N2, Hc. simpl.
    split; [|reflexivity].
    induction (inputBuffer p) as [|x b IHb]; [reflexivity|].
    simpl. now rewrite IHb.
Qed.

Lemma proper_log_char clock p c :
  all_chars printable (inputBuffer p) = true ->
  Forall (proper_entry clock) (appended p) ->
  all_chars printable (inputBuffer (log_char clock p c)) = true
  /\ Forall (proper_entry clock) (appended (log_char clock p c)).
Proof.
  intros B A. unfold log_char.
  destruct ((c =? "013")%char || (c =? "010")%char).
  - split; [reflexivity|]. simpl.
    destruct (blank (inputBuffer p)) eqn:Bl; simpl; [exact A|].
    apply Forall_app. split; [exact A|]. constructor; [|constructor].
    now exists (List.length (appended p)), (inputBuffer p).
  - destruct ((c =? "127")%char || (c =? "008")%char).
    + split; [|exact A]. simpl. now apply all_chars_slice_last.
    + destruct (printable c) eqn:P; [|now split].
      split; [|exact A]. simpl. rewrite all_chars_app, B. simpl.
      now rewrite P.
Qed.

Lemma proper_log_chars clock d :
  forall p,
    all_chars printable (inputBuffer p) = true ->
    Forall (proper_entry clock) (appended p) ->
    all_chars printable (inputBuffer (log_chars clock d p)) = true
    /\ Forall (proper_entry clock) (appended (log_chars clock d p)).
Proof.
  induction d as [|c d IH]; intros p B A; [now split|].
  simpl. destruct (proper_log_char clock p c B A) as [B' A'].
  now apply IH.
Qed.

(** X19: whatever is sent to the terminal, in whatever chunks, the line
    buffer only ever holds printable ASCII, and every entry appended to the
    history file is a time stamp followed by a line of printable ASCII that
    is not blank: control characters, escape bytes and empty lines never
    reach the file. *)
Theorem history_entries_are_proper :
  forall clock chunks,
    all_chars printable
      (inputBuffer
         (fold_left (fun p data => onTerminalInput clock data p) chunks
            main_started)) = true
    /\ Forall (proper_entry clock)
         (appended
            (fold_left (fun p data => onTerminalInput clock data p) chunks
               main_started)).
Proof.
  intros clock chunks.
  apply (fold_left_invariant
           (fun p => all_chars printable (inputBuffer p) = true
                     /\ Forall (proper_entry clock) (appended p))).
  - intros p data [B A]. unfold onTerminalInput.
    destruct (ptyProcess p); [|now split].
    now apply proper_log_chars.
  - split; [reflexivity|constructor].
Qed.

(** X20: a line end appends what the buffer holds, followed by the
    printable characters typed before the line end, as one entry stamped
    with the clock reading, and empties the buffer; if that line is blank
    nothing is appended. *)
Theorem enter_logs_the_line :
  forall clock p line,
    ptyProcess p = true ->
    all_chars printable line = true ->
    inputBuffer (onTerminalInput clock (line ++ String "013"%char "") p) = ""
    /\ appended (onTerminalInput clock (line ++ String "013"%char "") p)
       = if blank (inputBuffer p ++ line)%string then appended p
         else appended p
              ++ [logEntry (clock (List.length (appended p)))
                    (inputBuffer p ++ line)%string].
Proof.
  intros clock p line On P. unfold onTerminalInput. rewrite On.
  rewrite log_chars_app.
  destruct (log_chars_printable clock line P
              (pty_write (line ++ String "013"%char "") p)) as [B A].
  simpl log_chars. unfold log_char. simpl orb. cbv iota.
  rewrite B, A. simpl inputBuffer. simpl appended.
  split; [reflexivity|].
  destruct (blank (inputBuffer p ++ line)%string); simpl; now rewrite A.
Qed.

Lemma enter_logs_the_line_witness :
  appended (onTerminalInput (fun _ => "2026-01-24T10:00:00.000Z")
              ("claude" ++ String "013"%char "") main_started)
  = [("[2026-01-24T10:00:00.000Z] claude" ++ String "010"%char "")%string]
  /\ appended (onTerminalInput (fun _ => "2026-01-24T10:00:00.000Z")
                 ("   " ++ String "013"%char "") main_started)
     = [].
Proof.
  destruct (enter_logs_the_line (fun _ => "2026-01-24T10:00:00.000Z")
              main_started "claude" eq_refl eq_refl) as [_ A].
  destruct (enter_logs_the_line (fun _ => "2026-01-24T10:00:00.000Z")
              main_started "   " eq_refl eq_refl) as [_ A'].
  split; [rewrite A|rewrite A']; vm_compute; reflexivity.
Defined.

(** X21: a backspace (DEL or BS) takes back the printable character typed
    before it: after the two the buffer and the history file are as
    before. *)
Theorem backspace_undoes_a_character :
  forall clock p c bs,
    ptyProcess p = true ->
    printable c = true ->
    bs = "127"%char \/ bs = "008"%char ->
    inputBuffer (onTerminalInput clock (String c (String bs "")) p)
    = inputBuffer p
    /\ appended (onTerminalInput clock (String c (String bs "")) p)
       = appended p.
Proof.
  intros clock p c bs On P Bs. unfold onTerminalInput. rewrite On.
  destruct (printable_plain c P) as [N1 N2].
  simpl log_chars. unfold log_char. rewrite N1, N2, P.
  destruct Bs as [-> | ->]; simpl; now rewrite slice_last_app.
Qed.

Lemma backspace_undoes_a_character_witness :
  inputBuffer
    (onTerminalInput (fun _ => "") (String "x"%char (String "127"%char ""))
       (onTerminalInput (fun _ => "") "clau" main_started))
  = "clau".
Proof.
  destruct (backspace_undoes_a_character (fun _ => "")
              (onTerminalInput (fun _ => "") "clau" main_started)
              "x"%char "127"%char eq_refl eq_refl (or_introl eq_refl))
    as [B _].
  rewrite B. vm_compute. reflexivity.
Defined.

(** X22: how the input is cut into chunks does not matter to the history:
    two chunks one after the other leave the buffer and the file that the
    two joined into one chunk leave; and with no pty nothing is buffered or
    logged. *)
Theorem chunking_does_not_matter :
  forall clock p d d',
    (ptyProcess p = true ->
       inputBuffer (onTerminalInput clock d' (onTerminalInput clock d p))
       = inputBuffer (onTerminalInput clock (d ++ d') p)
       /\ appended (onTerminalInput clock d' (onTerminalInput clock d p))
          = appended (onTerminalInput clock (d ++ d') p))
    /\ (ptyProcess p = false -> onTerminalInput clock d p = p).
Proof.
  intros clock p d d'. split.
  - intro On. unfold onTerminalInput. rewrite On.
    rewrite ptyProcess_log_chars. simpl ptyProcess. rewrite On.
    rewrite log_chars_app.
    apply log_chars_same;
      apply (log_chars_same clock d (pty_write d p) (pty_write (d ++ d') p));
      reflexivity.
  - intro Off. unfold onTerminalInput. now rewrite Off.
Qed.

Lemma chunking_does_not_matter_witness :
  appended
    (onTerminalInput (fun _ => "t") ("ude" ++ String "013"%char "")
       (onTerminalInput (fun _ => "t") "cla" main_started))
  = appended
      (onTerminalInput (fun _ => "t") ("cla" ++ "ude" ++ String "013"%char "")
         main_started).
Proof.
  apply (proj1 (chunking_does_not_matter (fun _ => "t") main_started "cla"
                  ("ude" ++ String "013"%char "")) eq_refl).
Defined.

(** * A request and its reply *)

Lemma sent_initializeTerminal t o now m :
  sent (_initializeTerminal t o now m) = sent m.
Proof.
  unfold _initializeTerminal.
  destruct (truthy_str (opt_name o)); rewrite sent_notifyStateChange;
    match goal with
    | |- sent (if ?c then _ else _) = _ => destruct c
    end; try rewrite sent_setActiveTerminal; reflexivity.
Qed.

Lemma name_of_initializeTerminal t o now m :
  name_of t (_initializeTerminal t o now m)
  = Some match truthy_str (opt_name o) with
         | Some n => n
         | None => default_name (S (terminalCounter m))
         end.
Proof.
  unfold _initializeTerminal.
  destruct (truthy_str (opt_name o));
    rewrite (name_of_same _ _ _ (terminals_notifyStateChange _));
    match goal with
    | |- name_of t (if ?c then _ else _) = _ => destruct c
    end; try rewrite name_of_setActiveTerminal;
    unfold name_of; simpl; now rewrite get_set, id_eqb_refl.
Qed.

(** X23: a creation request made below the bound, with no other request
    outstanding, and then its successful reply: one creation message went
    out, carrying the working directory asked for (none, if it was missing
    or empty); the terminal is in the registry under the id of the reply,
    named as the request asked or by the next number; and no handler is
    left waiting. *)
Theorem request_then_reply :
  forall m o t now,
    listeners m = [] ->
    (JsMap.size (terminals m) < maxTerminals m)%nat ->
    fst (createTerminal o m) = Pending
    /\ sent (onTerminalCreated (Created t) now (snd (createTerminal o m)))
       = sent m ++ [TERMINAL_CREATE (truthy_str (opt_cwd o))]
    /\ listeners (onTerminalCreated (Created t) now (snd (createTerminal o m)))
       = []
    /\ JsMap.has t
         (terminals
            (onTerminalCreated (Created t) now (snd (createTerminal o m))))
       = true
    /\ name_of t (onTerminalCreated (Created t) now (snd (createTerminal o m)))
       = Some match truthy_str (opt_name o) with
              | Some n => n
              | None => default_name (S (terminalCounter m))
              end.
Proof.
  intros m o t now L Room.
  assert (C : createTerminal o m
              = (Pending,
                 send (TERMINAL_CREATE (truthy_str (opt_cwd o)))
                   (set_listeners (listeners m ++ [o]) m))).
  { unfold createTerminal.
    destruct (maxTerminals m <=? JsMap.size (terminals m))%nat eqn:Full;
      [apply Nat.leb_le in Full; lia|reflexivity]. }
  rewrite C, L. cbn [fst snd app].
  split; [reflexivity|].
  split; [|split; [apply listeners_onTerminalCreated|]].
  - change (onTerminalCreated (Created t) now
              (send (TERMINAL_CREATE (truthy_str (opt_cwd o)))
                 (set_listeners ([] ++ [o]) m)))
      with (_initializeTerminal t o now
              (set_listeners []
                 (send (TERMINAL_CREATE (truthy_str (opt_cwd o)))
                    (set_listeners [o] m)))).
    now rewrite sent_initializeTerminal.
  - change (onTerminalCreated (Created t) now
              (send (TERMINAL_CREATE (truthy_str (opt_cwd o)))
                 (set_listeners ([] ++ [o]) m)))
      with (_initializeTerminal t o now
              (set_listeners []
                 (send (TERMINAL_CREATE (truthy_str (opt_cwd o)))
                    (set_listeners [o] m)))).
    split.
    + apply has_true. rewrite keys_initializeTerminal.
      match goal with
      | |- In t (if ?c then _ else _) => destruct c eqn:H
      end; [now apply has_true|]. apply in_or_app. right. now left.
    + now rewrite name_of_initializeTerminal.
Qed.

Lemma request_then_reply_witness :
  listeners one_terminal = []
  /\ (JsMap.size (terminals one_terminal) < maxTerminals one_terminal)%nat
  /\ name_of (IdStr "B")
       (onTerminalCreated (Created (IdStr "B")) 2000
          (snd (createTerminal (mkOptions (Some "/work") None) one_terminal)))
     = Some "Terminal 2"
  /\ sent
       (onTerminalCreated (Created (IdStr "B")) 2000
          (snd (createTerminal (mkOptions (Some "/work") None) one_terminal)))
     = [TERMINAL_CREATE None; TERMINAL_CREATE (Some "/work")].
Proof.
  assert (L : listeners one_terminal = []) by (vm_compute; reflexivity).
  assert (R : (JsMap.size (terminals one_terminal)
               < maxTerminals one_terminal)%nat) by (vm_compute; lia).
  split; [exact L|]. split; [exact R|].
  destruct (request_then_reply one_terminal (mkOptions (Some "/work") None)
              (IdStr "B") 2000 L R) as (_ & S & _ & _ & N).
  split; [rewrite N|rewrite S]; vm_compute; reflexivity.
Defined.
